(** * WiggleBot v0.3: the task queue, the pointer and the reminder timers

    A shallow embedding of [main_v3.py] (and of the reminder loop of
    [main_v2.py]): the per-chat session store [users], the queue builder
    [add_tasks_from_morning], the pointer advancer [next_task], the
    reminder loop [remind_loop] and the webhook handler
    [telegram_webhook], written as state-and-exception passing functions
    over an explicit world. The webhook of [main_v2.py], with its two
    dicts, follows the same lines.

    Conventions of the embedding.
    - A Python [str] is a Rocq [string]; a character is a code point
      below 256. String literals of the source are kept byte for byte;
      they are only passed through and compared, never split.
    - In the serial program a coroutine runs to its end before the
      next one starts: a handler or one firing of a reminder is one step
      of the world. The [await] points inside a step can fail (the
      collaborator raises) but do not interleave other steps.
    - In [Overlap] the webhook handler and the morning job [morning_prompt]
      are written with their waits: a coroutine gives the loop back at
      each [await], and the schedules of the loop interleave them. Run
      without another in between, a handler is the serial one.
    - Collaborators (the messenger and the text generator) are an
      environment [oracle] that answers the n-th call of the run.

    The file has three parts: the program, the vocabulary in which its
    properties are stated, and the proofs. *)

From Stdlib Require Import String Ascii ZArith Bool Lia.
From stdpp Require Import base option list gmap pretty.

Local Open Scope string_scope.

(** ** Python string operations used by the source *)

Module PyStr.

Definition code (c : ascii) : N := N_of_ascii c.

(** [str.isspace] on code points below 256. *)
Definition isspace (c : ascii) : bool :=
  let n := code c in
  ((9 <=? n) && (n <=? 13) || (28 <=? n) && (n <=? 32)
   || (n =? 133) || (n =? 160))%N.

(** The line boundaries of [str.splitlines] below 256:
    \n \r \v \f \x1c \x1d \x1e \x85. *)
Definition is_linebreak (c : ascii) : bool :=
  let n := code c in
  ((10 <=? n) && (n <=? 13) || (28 <=? n) && (n <=? 30) || (n =? 133))%N.

Definition LF : ascii := ascii_of_N 10.
Definition CR : ascii := ascii_of_N 13.

Definition nonempty (s : string) : bool :=
  match s with EmptyString => false | String _ _ => true end.

Fixpoint lstrip (s : string) : string :=
  match s with
  | EmptyString => EmptyString
  | String c s' => if isspace c then lstrip s' else s
  end.

Fixpoint rstrip (s : string) : string :=
  match s with
  | EmptyString => EmptyString
  | String c s' =>
      let r := rstrip s' in
      if isspace c && negb (nonempty r) then EmptyString else String c r
  end.

Definition strip (s : string) : string := rstrip (lstrip s).

(** [cur] is the line being read, last character first. A line is
    closed at a boundary (\r\n is one boundary) and at the end of the
    text when it is not empty. *)
Fixpoint splitlines_from (cur : list ascii) (s : string) : list string :=
  match s with
  | EmptyString =>
      match cur with
      | [] => []
      | _ => [string_of_list_ascii (rev cur)]
      end
  | String c s' =>
      if is_linebreak c then
        string_of_list_ascii (rev cur) ::
          match s' with
          | String c' s'' =>
              if Ascii.eqb c CR && Ascii.eqb c' LF
              then splitlines_from [] s''
              else splitlines_from [] s'
          | EmptyString => splitlines_from [] s'
          end
      else splitlines_from (c :: cur) s'
  end.

Definition splitlines (s : string) : list string := splitlines_from [] s.

(** [c in s] for a one-character [c]. *)
Fixpoint contains (c : ascii) (s : string) : bool :=
  match s with
  | EmptyString => false
  | String c' s' => Ascii.eqb c c' || contains c s'
  end.

(** [str.lower] below 256: A-Z and the Latin-1 capitals move by 32. *)
Definition lower_char (c : ascii) : ascii :=
  let n := code c in
  if ((65 <=? n) && (n <=? 90)
      || (192 <=? n) && (n <=? 222) && negb (n =? 215))%N
  then ascii_of_N (n + 32) else c.

Fixpoint lower (s : string) : string :=
  match s with
  | EmptyString => EmptyString
  | String c s' => String (lower_char c) (lower s')
  end.

(** [s.split(sep, 1)] for a one-character [sep]: [None] when [sep]
    does not occur (the result has one element), else the text before
    and after its first occurrence. *)
Fixpoint split_once (sep : ascii) (s : string) : option (string * string) :=
  match s with
  | EmptyString => None
  | String c s' =>
      if Ascii.eqb c sep then Some (EmptyString, s')
      else match split_once sep s' with
           | Some (a, b) => Some (String c a, b)
           | None => None
           end
  end.

(** [l[i:j]] for non-negative bounds. *)
Definition slice {A} (i j : nat) (l : list A) : list A :=
  take (j - i) (drop i l).

End PyStr.

(** [[l.strip() for l in raw.splitlines() if l.strip()]] *)
Definition lines_of (raw : string) : list string :=
  map PyStr.strip
    (List.filter (fun l => PyStr.nonempty (PyStr.strip l)) (PyStr.splitlines raw)).

(** ** State *)

(** [class Task]: [prio] is one of the strings top, mid, extra. *)
Record Task := mkTask {
  t_id : string;
  t_text : string;
  t_prio : string;
  t_done : bool
}.

(** A reminder handle is the index of its timer in [timers]. *)
Abbreviation handle := nat (only parsing).

(** [users[chat_id]]: the dict with keys tasks, pointer, reminder. *)
Record User := mkUser {
  tasks : list Task;
  pointer : nat;
  reminder : option handle
}.

(** An [asyncio.Task] running [remind_loop]: sleeping between firings,
    asked to cancel (the request is delivered at the task's next step),
    cancelled, returned, or ended by an exception. *)
Inductive status := Sleeping | CancelRequested | Cancelled | Finished | Failed.

Record Timer := mkTimer {
  tm_chat : Z;
  tm_task : string;
  tm_status : status
}.

Record Button := mkButton { b_text : string; callback_data : string }.

(** What the program does to the outside, and to its timers. *)
Inductive effect :=
| SendMessage (chat : Z) (text : string) (reply_markup : option (list Button))
| AnswerCallback (query_id : string)
| Gpt (role content : string)
| Arm (chat : Z) (h : handle) (task_id : string)
| Cancel (chat : Z) (h : handle).

Inductive outcome := Succeeds (reply : string) | Fails.

Inductive exn :=
| KeyError | StopIteration | RuntimeError | ValueError | ValidationError
| CollaboratorError.

Record World := mkWorld {
  users : gmap Z User;
  timers : list Timer;
  uuids : nat;               (* how many ids [uuid.uuid4] has handed out *)
  oracle : nat -> outcome;   (* the answer to the n-th collaborator call *)
  calls : nat;               (* collaborator calls made so far *)
  log : list effect          (* effects so far, oldest first *)
}.

Definition with_users (f : gmap Z User -> gmap Z User) (w : World) : World :=
  mkWorld (f (users w)) (timers w) (uuids w) (oracle w) (calls w) (log w).
Definition with_timers (f : list Timer -> list Timer) (w : World) : World :=
  mkWorld (users w) (f (timers w)) (uuids w) (oracle w) (calls w) (log w).
Definition emit (e : effect) (w : World) : World :=
  mkWorld (users w) (timers w) (uuids w) (oracle w) (calls w) (log w ++ [e]).

Definition init (env : nat -> outcome) : World :=
  mkWorld ∅ [] 0 env 0 [].

(** ** Computations: state passing with exceptions *)

Inductive result (A : Type) := Ok (a : A) | Raise (e : exn).
Arguments Ok {A} a.
Arguments Raise {A} e.

Definition M (A : Type) : Type := World -> result A * World.

#[global] Instance M_ret : MRet M := fun A a w => (Ok a, w).
#[global] Instance M_bind : MBind M := fun A B k m w =>
  match m w with
  | (Ok a, w') => k a w'
  | (Raise e, w') => (Raise e, w')
  end.

Definition raise {A} (e : exn) : M A := fun w => (Raise e, w).
Definition pass : M unit := mret tt.
Definition modify (f : World -> World) : M unit := fun w => (Ok tt, f w).
Definition gets {A} (f : World -> A) : M A := fun w => (Ok (f w), w).

(** One awaited call of a collaborator: the effect [e] happens when the
    call succeeds, and the call raises when it fails. *)
Definition tick (w : World) : World :=
  mkWorld (users w) (timers w) (uuids w) (oracle w) (S (calls w)) (log w).

Definition await (e : effect) : M string := fun w =>
  match oracle w (calls w) with
  | Succeeds r => (Ok r, emit e (tick w))
  | Fails => (Raise CollaboratorError, tick w)
  end.

(** [users[chat_id]] *)
Definition user_of (chat_id : Z) : M User :=
  u ← gets (fun w => users w !! chat_id);
  match u with Some u => mret u | None => raise KeyError end.

(** [str(uuid.uuid4())]: a fresh identifier, here the decimal numeral of
    the number of identifiers handed out before. *)
Definition uuid4 : M string := fun w =>
  (Ok (pretty (uuids w)),
   mkWorld (users w) (timers w) (S (uuids w)) (oracle w) (calls w) (log w)).

(** [Task(text, priority)] *)
Definition new_Task (text priority : string) : M Task :=
  i ← uuid4; mret (mkTask i text priority false).

(** ** Timers *)

(** [handle.cancelled()] *)
Definition cancelled (h : handle) : M bool :=
  gets (fun w => match timers w !! h with
                 | Some tm => match tm_status tm with Cancelled => true | _ => false end
                 | None => false
                 end).

Definition request_cancel (tm : Timer) : Timer :=
  match tm_status tm with
  | Sleeping => mkTimer (tm_chat tm) (tm_task tm) CancelRequested
  | _ => tm
  end.

(** [handle.cancel()], called by the handler of [chat_id]: a sleeping
    loop is asked to stop; a loop that is done is left as it is. *)
Definition cancel_timer (h : handle) (ts : list Timer) : list Timer :=
  match ts !! h with
  | Some tm => <[h := request_cancel tm]> ts
  | None => ts
  end.

Definition cancel (chat_id : Z) (h : handle) : M unit :=
  modify (fun w => emit (Cancel chat_id h) (with_timers (cancel_timer h) w)).

(** [loop.create_task(remind_loop(chat_id, task_id))] *)
Definition create_task (chat_id : Z) (task_id : string) : M handle := fun w =>
  let h := length (timers w) in
  (Ok h, emit (Arm chat_id h task_id)
           (with_timers (fun ts => (ts ++ [mkTimer chat_id task_id Sleeping])%list) w)).

(** ** The program *)

Definition build_keyboard (task_id : string) : list Button :=
  [ mkButton "✅ Done" ("done:" ++ task_id);
    mkButton "🆘 Stuck" ("stuck:" ++ task_id) ].

Definition send_message (chat_id : Z) (text : string)
    (reply_markup : option (list Button)) : M unit :=
  await (SendMessage chat_id text reply_markup);; mret tt.

Definition answer_callback_query (query_id : string) : M unit :=
  await (AnswerCallback query_id);; mret tt.

(** [gpt(role, content)]: the reply of the model, stripped. *)
Definition gpt (role content : string) : M string :=
  r ← await (Gpt role content); mret (PyStr.strip r).

(** The [while] of [next_task], [fuel] turns of it: the pointer moves
    on while it is inside the queue and on a task that is done. *)
Fixpoint advance (fuel : nat) (ts : list Task) (p : nat) : nat :=
  match fuel with
  | O => p
  | S fuel' =>
      match ts !! p with
      | Some t => if t_done t then advance fuel' ts (S p) else p
      | None => p
      end
  end.

Definition next_task (chat_id : Z) : M (option Task) := fun w =>
  match users w !! chat_id with
  | None => (Ok None, w)
  | Some u =>
      let p := advance (length (tasks u)) (tasks u) (pointer u) in
      (Ok (tasks u !! p),
       with_users (insert chat_id (mkUser (tasks u) p (reminder u))) w)
  end.

(** [users[chat_id]["reminder"] = h] *)
Definition set_reminder (chat_id : Z) (h : handle) : M unit :=
  u ← user_of chat_id;
  modify (with_users (insert chat_id (mkUser (tasks u) (pointer u) (Some h)))).

Definition start_focus (chat_id : Z) : M unit :=
  task ← next_task chat_id;
  match task with
  | None => send_message chat_id "🥳 Day’s list complete! Great work." None
  | Some task =>
      msg ← gpt "coach" ("Start focusing on: " ++ t_text task);
      send_message chat_id msg (Some (build_keyboard (t_id task)));;
      h ← create_task chat_id (t_id task);
      set_reminder chat_id h
  end.

(** [next((i, t) for ... if t.id == tid)]: the first task with that id,
    with its place in the list. *)
Fixpoint find_task (tid : string) (ts : list Task) (i : nat) : option (nat * Task) :=
  match ts with
  | [] => None
  | t :: ts' => if String.eqb (t_id t) tid then Some (i, t) else find_task tid ts' (S i)
  end.

(** One turn of [remind_loop] after its sleep: [true] when the loop goes
    round again, [false] when it returns. *)
Definition remind_loop (chat_id : Z) (task_id : string) : M bool :=
  u ← gets (fun w => users w !! chat_id);
  match u with
  | None => mret false
  | Some u =>
      match find_task task_id (tasks u) 0 with
      | None => mret false
      | Some (_, task) =>
          if t_done task then mret false
          else
            nud ← gpt "remind" ("I haven't finished: " ++ t_text task);
            send_message chat_id nud (Some (build_keyboard (t_id task)));;
            mret true
      end
  end.

Definition is_morning_input (txt : string) : bool := PyStr.contains PyStr.LF txt.

(** [get_task]: the task object is its place in [users[chat_id]["tasks"]]. *)
Definition get_task (chat_id : Z) (tid : string) : M (nat * Task) :=
  u ← user_of chat_id;
  match find_task tid (tasks u) 0 with
  | Some it => mret it
  | None => raise StopIteration
  end.

Definition set_done (t : Task) : Task := mkTask (t_id t) (t_text t) (t_prio t) true.

Definition mark_done (chat_id : Z) (tid : string) : M unit :=
  '(i, t) ← get_task chat_id tid;
  modify (with_users (fun us =>
    match us !! chat_id with
    | Some u => <[chat_id := mkUser (<[i := set_done t]> (tasks u)) (pointer u) (reminder u)]> us
    | None => us
    end));;
  u ← user_of chat_id;
  match reminder u with
  | Some rem =>
      cancelled rem ≫= fun c : bool =>
      if c then pass else cancel chat_id rem
  | None => pass
  end.

(** [for l in ls: u["tasks"].append(Task(l, prio))] *)
Fixpoint append_tasks (chat_id : Z) (prio : string) (ls : list string) : M unit :=
  match ls with
  | [] => pass
  | l :: ls' =>
      t ← new_Task l prio;
      modify (with_users (fun us =>
        match us !! chat_id with
        | Some u => <[chat_id := mkUser (tasks u ++ [t]) (pointer u) (reminder u)]> us
        | None => us
        end));;
      append_tasks chat_id prio ls'
  end.

Definition add_tasks_from_morning (chat_id : Z) (raw : string) : M unit :=
  let lines := lines_of raw in
  let top := PyStr.slice 0 1 lines in
  let mids := PyStr.slice 1 4 lines in
  let extras := drop 4 lines in
  u ← user_of chat_id;
  modify (with_users (insert chat_id (mkUser [] 0 (reminder u))));;
  match reminder u with
  | Some rem => cancel chat_id rem
  | None => pass
  end;;
  append_tasks chat_id "top" top;;
  append_tasks chat_id "mid" mids;;
  append_tasks chat_id "extra" extras.

(** ** The webhook *)

Record CallbackQuery := mkCallbackQuery {
  cq_id : string;
  cq_data : option string;
  cq_from_user : Z
}.

Record Message := mkMessage { msg_chat : Z; msg_text : option string }.

Record Update := mkUpdate {
  callback_query : option CallbackQuery;
  message : option Message
}.

(** The body of the request: an envelope that [types.Update] accepts, or
    one that it rejects. *)
Inductive Request := Malformed | Json (update : Update).

(** The JSON object the endpoint answers with. *)
Definition response := list (string * bool).
Definition ok_true : response := [("ok", true)].

Definition parse_update (req : Request) : M Update :=
  match req with
  | Malformed => raise ValidationError
  | Json update => mret update
  end.

(** A [StopIteration] that leaves a coroutine does so as [RuntimeError]. *)
Definition coroutine {A} (m : M A) : M A := fun w =>
  match m w with
  | (Raise StopIteration, w') => (Raise RuntimeError, w')
  | r => r
  end.

(** [users.setdefault(chat_id, {"tasks": [], "pointer": 0, "reminder": None})] *)
Definition setdefault_user (chat_id : Z) : M unit :=
  modify (with_users (fun us =>
    match us !! chat_id with
    | Some _ => us
    | None => <[chat_id := mkUser [] 0 None]> us
    end)).

Definition on_callback (cq : CallbackQuery) : M response :=
  let data := default "" (cq_data cq) in
  match PyStr.split_once ":" data with
  | None => raise ValueError
  | Some (action, tid) =>
      let chat_id := cq_from_user cq in
      answer_callback_query (cq_id cq);;
      (if String.eqb action "done" then
         mark_done chat_id tid;;
         send_message chat_id "🎉 Task marked done!" None;;
         start_focus chat_id
       else if String.eqb action "stuck" then
         get_task chat_id tid ≫= fun it : nat * Task =>
         let t := snd it in
         tip ← gpt "stuck" ("I'm stuck on: " ++ t_text t);
         send_message chat_id tip (Some (build_keyboard (t_id t)))
       else pass);;
      mret ok_true
  end.

Definition on_message (chat_id : Z) (text : string) : M response :=
  setdefault_user chat_id;;
  if String.eqb (PyStr.lower text) "/start" then
    send_message chat_id
      "👋 Welcome! I’ll ping you at 7 AM each morning to plan your day." None;;
    mret ok_true
  else if is_morning_input text then
    add_tasks_from_morning chat_id text;;
    ack ← gpt "ack" "I've planned my goals for today";
    send_message chat_id ack None;;
    start_focus chat_id;;
    mret ok_true
  else
    send_message chat_id
      "I didn't catch that. Wait for the morning prompt or press buttons 😉" None;;
    mret ok_true.

Definition telegram_webhook (req : Request) : M response :=
  coroutine (
    update ← parse_update req;
    match callback_query update with
    | Some cq => on_callback cq
    | None =>
        match message update with
        | Some m =>
            match msg_text m with
            | Some text =>
                if PyStr.nonempty text
                then on_message (msg_chat m) (PyStr.strip text)
                else mret ok_true
            | None => mret ok_true
            end
        | None => mret ok_true
        end
    end).

(** ** The event loop *)

Definition set_status (h : handle) (st : status) : World -> World :=
  with_timers (fun ts =>
    match ts !! h with
    | Some tm => <[h := mkTimer (tm_chat tm) (tm_task tm) st]> ts
    | None => ts
    end).

(** The sleep of timer [h] ends: one turn of its loop. A loop that is not
    sleeping (cancelled, asked to cancel, or done) has no turn to take. *)
Definition fire (h : handle) (w : World) : World :=
  match timers w !! h with
  | Some tm =>
      match tm_status tm with
      | Sleeping =>
          match remind_loop (tm_chat tm) (tm_task tm) w with
          | (Ok true, w') => w'
          | (Ok false, w') => set_status h Finished w'
          | (Raise _, w') => set_status h Failed w'
          end
      | _ => w
      end
  | None => w
  end.

(** The cancellation asked of timer [h] reaches it. *)
Definition deliver (h : handle) (w : World) : World :=
  match timers w !! h with
  | Some tm =>
      match tm_status tm with
      | CancelRequested => set_status h Cancelled w
      | _ => w
      end
  | None => w
  end.

Inductive event :=
| Webhook (req : Request)
| Fire (h : handle)
| Deliver (h : handle).

Definition step (ev : event) (w : World) : World :=
  match ev with
  | Webhook req => snd (telegram_webhook req w)
  | Fire h => fire h w
  | Deliver h => deliver h w
  end.

Definition run (evs : list event) (w : World) : World :=
  foldl (fun w ev => step ev w) w evs.

(** Requests as the transport sends them. *)
Definition text_message (chat_id : Z) (text : string) : Request :=
  Json (mkUpdate None (Some (mkMessage chat_id (Some text)))).
Definition button (chat_id : Z) (data : string) : Request :=
  Json (mkUpdate (Some (mkCallbackQuery "q" (Some data) chat_id)) None).

Definition nl : string := String PyStr.LF EmptyString.
Definition all_fine : nat -> outcome := fun _ => Succeeds "go".

(** ** The reminder loop of v0.2

    The loop that v0.3 rewrote: the request and the send sit in a [try]
    whose handler prints the error, and the loop goes on. *)

Module V2.

(** [tasks[task_id]]: the dict with keys chat_id, text, done. *)
Record task := mkTask { chat_id : Z; text : string; done : bool }.

Definition try_except {A} (m : M A) (handler : exn -> M A) : M A := fun w =>
  match m w with
  | (Raise e, w') => handler e w'
  | r => r
  end.

(** [coach_reply("remind", task_text)] *)
Definition coach_reply_remind (task_text : string) : M string :=
  r ← await (Gpt "remind" ("I haven't finished yet: " ++ task_text));
  mret (PyStr.strip r).

(** One turn of [reminder_loop] after its sleep: [true] when the loop
    goes round again, [false] at [break]. *)
Definition reminder_loop (tasks : gmap string task) (task_id : string) : M bool :=
  match tasks !! task_id with
  | None => mret false
  | Some t =>
      if done t then mret false
      else
        try_except
          (msg ← coach_reply_remind (text t);
           await (SendMessage (chat_id t) msg None);;
           mret tt)
          (fun _ => mret tt);;
        mret true
  end.

End V2.

(** ** The morning prompt job *)

Definition morning_text : string :=
  "🌞 Good morning!" ++ nl ++
  "• Send me <b>ONE top goal</b>." ++ nl ++
  "• <b>THREE medium goals</b> (optional)." ++ nl ++
  "• Any extra tasks." ++ nl ++
  "Put each on its own line.".

(** ** Coroutines that overlap

    [telegram_webhook] and [morning_prompt] are coroutines of one event
    loop. A coroutine runs until it awaits a collaborator; while it
    waits for the answer the loop runs the others, and it goes on in the
    world they have left. The program is written here once more with
    these waits in it. What lies between two waits is a computation of
    the serial program above. *)

Module Overlap.

(** A coroutine after it has run: ended, or waiting for an answer with
    the rest [k] to run then. *)
Inductive Res (A : Type) : Type :=
| Ended (r : result A) (w : World)
| Parked (w : World) (k : World -> Res A).
Arguments Ended {A} r w.
Arguments Parked {A} w k.

Definition Co (A : Type) : Type := World -> Res A.

Fixpoint then_ {A B} (x : Res A) (f : A -> Co B) : Res B :=
  match x with
  | Ended (Ok a) w => f a w
  | Ended (Raise e) w => Ended (Raise e) w
  | Parked w k => Parked w (fun w' => then_ (k w') f)
  end.

#[global] Instance Co_ret : MRet Co := fun A a w => Ended (Ok a) w.
#[global] Instance Co_bind : MBind Co := fun A B f m w => then_ (m w) f.

(** What runs without a wait. *)
Definition now {A} (m : M A) : Co A := fun w => Ended (m w).1 (m w).2.

(** One awaited call of a collaborator: the coroutine waits, and the
    call is answered in the world it is resumed in. *)
Definition await (e : effect) : Co string := fun w => Parked w (now (await e)).

Definition send_message (chat_id : Z) (text : string)
    (reply_markup : option (list Button)) : Co unit :=
  await (SendMessage chat_id text reply_markup);; mret tt.

Definition answer_callback_query (query_id : string) : Co unit :=
  await (AnswerCallback query_id);; mret tt.

Definition gpt (role content : string) : Co string :=
  r ← await (Gpt role content); mret (PyStr.strip r).

Definition start_focus (chat_id : Z) : Co unit :=
  task ← now (next_task chat_id);
  match task with
  | None => send_message chat_id "🥳 Day’s list complete! Great work." None
  | Some task =>
      msg ← gpt "coach" ("Start focusing on: " ++ t_text task);
      send_message chat_id msg (Some (build_keyboard (t_id task)));;
      h ← now (create_task chat_id (t_id task));
      now (set_reminder chat_id h)
  end.

Definition on_callback (cq : CallbackQuery) : Co response :=
  let data := default "" (cq_data cq) in
  match PyStr.split_once ":" data with
  | None => now (raise ValueError)
  | Some (action, tid) =>
      let chat_id := cq_from_user cq in
      answer_callback_query (cq_id cq);;
      (if String.eqb action "done" then
         now (mark_done chat_id tid);;
         send_message chat_id "🎉 Task marked done!" None;;
         start_focus chat_id
       else if String.eqb action "stuck" then
         now (get_task chat_id tid) ≫= fun it : nat * Task =>
         let t := snd it in
         tip ← gpt "stuck" ("I'm stuck on: " ++ t_text t);
         send_message chat_id tip (Some (build_keyboard (t_id t)))
       else now pass);;
      mret ok_true
  end.

Definition on_message (chat_id : Z) (text : string) : Co response :=
  now (setdefault_user chat_id);;
  if String.eqb (PyStr.lower text) "/start" then
    send_message chat_id
      "👋 Welcome! I’ll ping you at 7 AM each morning to plan your day." None;;
    mret ok_true
  else if is_morning_input text then
    now (add_tasks_from_morning chat_id text);;
    ack ← gpt "ack" "I've planned my goals for today";
    send_message chat_id ack None;;
    start_focus chat_id;;
    mret ok_true
  else
    send_message chat_id
      "I didn't catch that. Wait for the morning prompt or press buttons 😉" None;;
    mret ok_true.

(** A [StopIteration] that leaves a coroutine does so as [RuntimeError]. *)
Fixpoint guard {A} (x : Res A) : Res A :=
  match x with
  | Ended (Raise StopIteration) w => Ended (Raise RuntimeError) w
  | Ended r w => Ended r w
  | Parked w k => Parked w (fun w' => guard (k w'))
  end.

Definition coroutine {A} (m : Co A) : Co A := fun w => guard (m w).

Definition telegram_webhook (req : Request) : Co response :=
  coroutine (
    update ← now (parse_update req);
    match callback_query update with
    | Some cq => on_callback cq
    | None =>
        match message update with
        | Some m =>
            match msg_text m with
            | Some text =>
                if PyStr.nonempty text
                then on_message (msg_chat m) (PyStr.strip text)
                else mret ok_true
            | None => mret ok_true
            end
        | None => mret ok_true
        end
    end).

(** The [for] over [users.keys()], from the keys [keys] that are left.
    Each step of the iterator first compares the size of the dict with
    [used], its size when the loop began, and raises when it differs. *)
Fixpoint prompt_keys (used : nat) (keys : list Z) : Co unit :=
  n ← now (gets (fun w => size (users w)));
  if bool_decide (n = used) then
    match keys with
    | [] => now pass
    | chat_id :: rest =>
        send_message chat_id morning_text None;;
        prompt_keys used rest
    end
  else now (raise RuntimeError).

(** [morning_prompt]: [keys] are the keys of [users] in the order the
    dict holds them when the job starts. Nothing catches what a send or
    the iterator raises. *)
Definition morning_prompt (keys : list Z) : Co unit := fun w =>
  prompt_keys (size (users w)) keys w.

(** *** The event loop *)

(** What the loop holds of a coroutine it has started: the rest of one
    that waits, or how it ended. *)
Inductive job :=
| Waits {A : Type} (k : World -> Res A)
| Over {A : Type} (r : result A).

Record Loop := mkLoop {
  world : World;
  jobs : list job      (* in the order they were started *)
}.

Definition start (w : World) : Loop := mkLoop w [].

Definition settle {A} (x : Res A) : World * job :=
  match x with
  | Ended r w => (w, Over r)
  | Parked w k => (w, Waits k)
  end.

Inductive move :=
| Arrives (req : Request)    (* a request arrives: its handler starts *)
| Morning (keys : list Z)    (* the morning job starts *)
| Resumes (i : nat)          (* the call job [i] waits for is answered *)
| Delivers (h : handle).     (* a requested cancellation reaches its timer *)

(** One turn of the loop. A started coroutine runs to its next wait. No
    reminder wakes in these schedules: reminders sleep for minutes, and
    their turns are those of [fire] above. *)
Definition step (mv : move) (l : Loop) : Loop :=
  match mv with
  | Arrives req =>
      let ws := settle (telegram_webhook req (world l)) in
      mkLoop ws.1 (jobs l ++ [ws.2])
  | Morning keys =>
      let ws := settle (morning_prompt keys (world l)) in
      mkLoop ws.1 (jobs l ++ [ws.2])
  | Resumes i =>
      match jobs l !! i with
      | Some (Waits k) =>
          let ws := settle (k (world l)) in
          mkLoop ws.1 (<[i := ws.2]> (jobs l))
      | _ => l
      end
  | Delivers h => mkLoop (deliver h (world l)) (jobs l)
  end.

Definition run (mvs : list move) (l : Loop) : Loop :=
  foldl (fun l mv => step mv l) l mvs.

(** The coroutine run to its end with no other in between. *)
Fixpoint finish {A} (x : Res A) : result A * World :=
  match x with
  | Ended r w => (r, w)
  | Parked w k => finish (k w)
  end.

End Overlap.

(** ** The webhook of v0.2

    v0.2 keeps one dict of tasks for all chats, in the order the tasks
    were added, and one dict of reminder loops by task id. *)

Module V2Hook.

Record State := mkState {
  tasks : list (string * V2.task);      (* [tasks], oldest first *)
  active_reminders : gmap string nat;   (* task id to the handle of its loop *)
  loops : list (string * status);       (* the [reminder_loop] tasks, by handle *)
  world : World                         (* the collaborators, the ids, the log *)
}.

Definition SM (A : Type) : Type := State -> result A * State.

#[global] Instance SM_ret : MRet SM := fun A a s => (Ok a, s).
#[global] Instance SM_bind : MBind SM := fun A B k m s =>
  match m s with
  | (Ok a, s') => k a s'
  | (Raise e, s') => (Raise e, s')
  end.

Definition get : SM State := fun s => (Ok s, s).
Definition mutate (f : State -> State) : SM unit := fun s => (Ok tt, f s).

(** A computation on the world alone. *)
Definition lift {A} (m : M A) : SM A := fun s =>
  ((m (world s)).1, mkState (tasks s) (active_reminders s) (loops s) (m (world s)).2).

Definition with_tasks (f : list (string * V2.task) -> list (string * V2.task))
    (s : State) : State :=
  mkState (f (tasks s)) (active_reminders s) (loops s) (world s).

(** The prompt for a reason; a reason that is not a key raises. *)
Definition user_msg (reason task_text : string) : option string :=
  if String.eqb reason "ack" then Some ("I just committed to: " ++ task_text)
  else if String.eqb reason "remind" then Some ("I haven't finished yet: " ++ task_text)
  else if String.eqb reason "stuck" then Some ("I'm stuck on: " ++ task_text)
  else None.

Definition coach_reply (reason task_text : string) : M string :=
  match user_msg reason task_text with
  | None => raise KeyError
  | Some m => r ← await (Gpt reason m); mret (PyStr.strip r)
  end.

(** The first task of [chat] that is not done, with its place: the task
    the [for] over [tasks.items()] stops at, and the one [next] yields. *)
Fixpoint first_open (chat : Z) (ts : list (string * V2.task)) (i : nat)
    : option (nat * (string * V2.task)) :=
  match ts with
  | [] => None
  | (tid, t) :: ts' =>
      if bool_decide (V2.chat_id t = chat) && negb (V2.done t)
      then Some (i, (tid, t))
      else first_open chat ts' (S i)
  end.

(** [t["done"] = True] *)
Definition close (t : V2.task) : V2.task := V2.mkTask (V2.chat_id t) (V2.text t) true.

(** [tasks[k] = v]: a key that is there keeps its place. *)
Fixpoint dict_set {V} (k : string) (v : V) (d : list (string * V)) : list (string * V) :=
  match d with
  | [] => [(k, v)]
  | (k', v') :: d' =>
      if String.eqb k' k then (k, v) :: d' else (k', v') :: dict_set k v d'
  end.

(** [reminder.cancel()] *)
Definition cancel_loop (h : nat) (ls : list (string * status)) : list (string * status) :=
  match ls !! h with
  | Some (tid, Sleeping) => <[h := (tid, CancelRequested)]> ls
  | _ => ls
  end.

(** [reminder = active_reminders.pop(tid, None); if reminder: reminder.cancel()] *)
Definition pop_reminder (tid : string) (s : State) : State :=
  match active_reminders s !! tid with
  | Some h => mkState (tasks s) (delete tid (active_reminders s))
                      (cancel_loop h (loops s)) (world s)
  | None => s
  end.

Definition on_done (chat_id : Z) : SM unit :=
  s ← get;
  match first_open chat_id (tasks s) 0 with
  | Some (i, (tid, t)) =>
      mutate (with_tasks (fun ts => <[i := (tid, close t)]> ts));;
      mutate (pop_reminder tid);;
      lift (send_message chat_id "🎉 Nice work! Task closed." None)
  | None => lift (send_message chat_id "No open tasks to close. 🎈" None)
  end.

Definition on_stuck (chat_id : Z) : SM unit :=
  s ← get;
  match first_open chat_id (tasks s) 0 with
  | None => lift (send_message chat_id "I don't see any open tasks 🧐" None)
  | Some (_, (_, open_task)) =>
      tip ← lift (coach_reply "stuck" (V2.text open_task));
      lift (send_message chat_id tip None)
  end.

(** [loop.create_task(reminder_loop(task_id))] *)
Definition create_task (task_id : string) : SM nat := fun s =>
  (Ok (length (loops s)),
   mkState (tasks s) (active_reminders s) (loops s ++ [(task_id, Sleeping)]) (world s)).

Definition on_new_task (chat_id : Z) (text : string) : SM unit :=
  task_id ← lift uuid4;
  mutate (with_tasks (dict_set task_id (V2.mkTask chat_id text false)));;
  ack ← lift (coach_reply "ack" text);
  lift (send_message chat_id ack None);;
  h ← create_task task_id;
  mutate (fun s => mkState (tasks s) (<[task_id := h]> (active_reminders s))
                           (loops s) (world s)).

Definition done_words : list string := ["done"; "✅ done"; "finished"].

Definition start_text : string :=
  "👋 Hi! What's your <b>#1 priority</b> today?" ++ nl ++
  "Just reply with a sentence (e.g. <i>Finish project outline</i>).".

Definition on_text (chat_id : Z) (text : string) : SM response :=
  if String.eqb (PyStr.lower text) "/start" then
    lift (send_message chat_id start_text None);; mret ok_true
  else if existsb (String.eqb (PyStr.lower text)) done_words then
    on_done chat_id;; mret ok_true
  else if String.eqb (PyStr.lower text) "stuck" then
    on_stuck chat_id;; mret ok_true
  else
    on_new_task chat_id text;; mret ok_true.

Definition telegram_webhook (req : Request) : SM response :=
  update ← lift (parse_update req);
  match message update with
  | Some m =>
      match msg_text m with
      | Some text =>
          if PyStr.nonempty text
          then on_text (msg_chat m) (PyStr.strip text)
          else mret ok_true
      | None => mret ok_true
      end
  | None => mret ok_true
  end.

Definition set_status (h : nat) (st : status) (s : State) : State :=
  mkState (tasks s) (active_reminders s)
    (match loops s !! h with
     | Some (tid, _) => <[h := (tid, st)]> (loops s)
     | None => loops s
     end) (world s).

(** [tasks] as [reminder_loop] reads it. *)
Definition tasks_map (s : State) : gmap string V2.task :=
  list_to_map (tasks s).

(** The sleep of loop [h] ends: one turn of [reminder_loop]. *)
Definition fire (h : nat) (s : State) : State :=
  match loops s !! h with
  | Some (tid, Sleeping) =>
      match lift (V2.reminder_loop (tasks_map s) tid) s with
      | (Ok true, s') => s'
      | (Ok false, s') => set_status h Finished s'
      | (Raise _, s') => set_status h Failed s'
      end
  | _ => s
  end.

(** The cancellation asked of loop [h] reaches it. *)
Definition deliver (h : nat) (s : State) : State :=
  match loops s !! h with
  | Some (_, CancelRequested) => set_status h Cancelled s
  | _ => s
  end.

Definition step (ev : event) (s : State) : State :=
  match ev with
  | Webhook req => (telegram_webhook req s).2
  | Fire h => fire h s
  | Deliver h => deliver h s
  end.

Definition run (evs : list event) (s : State) : State :=
  foldl (fun s ev => step ev s) s evs.

Definition init (env : nat -> outcome) : State :=
  mkState [] ∅ [] (init env).

End V2Hook.

(** * The vocabulary of the properties *)

(** ** Relations between the worlds before and after a computation *)

(** [m] relates the world it starts in to the world it leaves,
    whether it returns or raises. *)
Definition always (R : World -> World -> Prop) {A} (m : M A) : Prop :=
  forall w, R w (m w).2.

(** No session is lost, no queue changes its length, no pointer moves back. *)
Definition pointer_le (w w' : World) : Prop :=
  forall c u, users w !! c = Some u ->
    exists u', users w' !! c = Some u' /\ pointer u <= pointer u'
               /\ length (tasks u') = length (tasks u).

(** ** Requests and worlds used as examples *)

(** A press of the Done button of task [tid], as the transport delivers
    it: query id, chat and task id. *)
Definition done_signal (s : string * Z * string) : event :=
  Webhook (Json (mkUpdate
    (Some (mkCallbackQuery s.1.1 (Some ("done:" ++ s.2)) s.1.2)) None)).

(** ** What the handlers leave behind *)

(** The tasks [append_tasks] makes of [ls] when [n] ids are taken. *)
Fixpoint fresh_tasks (n : nat) (prio : string) (ls : list string) : list Task :=
  match ls with
  | [] => []
  | l :: ls' => mkTask (pretty n) l prio false :: fresh_tasks (S n) prio ls'
  end.

(** The queue made of [lines] when [n] ids are taken. *)
Definition queue (n : nat) (lines : list string) : list Task :=
  let top := take 1 lines in
  let mids := take 3 (drop 1 lines) in
  fresh_tasks n "top" top ++
  fresh_tasks (n + length top) "mid" mids ++
  fresh_tasks (n + length top + length mids) "extra" (drop 4 lines).

(** The world after [users[chat_id]["reminder"].cancel()], when there is
    a reminder. *)
Definition cancel_stored (c : Z) (rem : option handle) (w : World) : World :=
  match rem with
  | Some h => emit (Cancel c h) (with_timers (cancel_timer h) w)
  | None => w
  end.

(** ** Lines of text *)

Fixpoint all_chars (P : ascii -> bool) (s : string) : bool :=
  match s with
  | EmptyString => true
  | String c s' => P c && all_chars P s'
  end.

Definition no_linebreak (s : string) : bool :=
  all_chars (fun c => negb (PyStr.is_linebreak c)) s.

Definition first_char (s : string) : option ascii :=
  match s with EmptyString => None | String c _ => Some c end.

Fixpoint last_char (s : string) : option ascii :=
  match s with
  | EmptyString => None
  | String c s' => match last_char s' with Some c' => Some c' | None => Some c end
  end.

Definition not_space (o : option ascii) : bool :=
  match o with Some c => negb (PyStr.isspace c) | None => false end.

(** A line that is not empty and has no white space at either end. *)
Definition trimmed (s : string) : bool :=
  not_space (first_char s) && not_space (last_char s).

(** ["\n".join(ls)] *)
Fixpoint join_lines (ls : list string) : string :=
  match ls with
  | [] => EmptyString
  | l :: ls' =>
      match ls' with
      | [] => l
      | _ => l ++ String PyStr.LF (join_lines ls')
      end
  end.

(** A goal list of two lines, the second with blanks around it. *)
Definition two_goals : string := "Write report" ++ nl ++ " Call Bob ".

(** Chat 7 has said /start and nothing else. *)
Definition fresh_session : World :=
  mkWorld {[ 7%Z := mkUser [] 0 None ]} [] 0 all_fine 0 [].

(** [rem.cancelled()] read off the world. *)
Definition is_cancelled (h : handle) (w : World) : bool :=
  match timers w !! h with
  | Some tm => match tm_status tm with Cancelled => true | _ => false end
  | None => false
  end.

(** The world [mark_done] leaves when the task is found at place [i]. *)
Definition marked_done (c : Z) (u : User) (i : nat) (t : Task) (w : World) : World :=
  let w1 := with_users (insert c (mkUser (<[i := set_done t]> (tasks u)) (pointer u) (reminder u))) w in
  match reminder u with
  | Some rem => if is_cancelled rem w then w1 else cancel_stored c (Some rem) w1
  | None => w1
  end.

(** The world after [create_task] and the store of its handle. *)
Definition armed (c : Z) (u : User) (tid : string) (w : World) : World :=
  mkWorld (<[c := mkUser (tasks u) (pointer u) (Some (length (timers w)))]> (users w))
          (timers w ++ [mkTimer c tid Sleeping]) (uuids w) (oracle w) (calls w)
          (log w ++ [Arm c (length (timers w)) tid]).

(** The text a collaborator answered with. *)
Definition reply (o : outcome) : string :=
  match o with Succeeds r => r | Fails => EmptyString end.

(** A button press: callback query [q] from chat [c] with payload [data]. *)
Definition press (q : string) (c : Z) (data : string) : Request :=
  Json (mkUpdate (Some (mkCallbackQuery q (Some data) c)) None).

Definition two_tasks : list Task :=
  [mkTask "0" "Write report" "top" false;
   mkTask "1" "Call Bob" "mid" false].

(** Chat 7 works on the first of two tasks; its reminder is asleep. *)
Definition active_session : World :=
  mkWorld {[ 7%Z := mkUser two_tasks 0 (Some 0) ]}
          [mkTimer 7 "0" Sleeping] 2 all_fine 4
          [Arm 7 0 "0"].



(** A timer only moves forward: a sleeping one may be asked to cancel,
    return or fail; a cancellation asked for arrives; the rest stay. *)
Definition status_step (s s' : status) : Prop :=
  s = s' \/ s = Sleeping \/ (s = CancelRequested /\ s' = Cancelled).

(** Every timer is still there, for the same chat and task, and has only
    moved forward. *)
Definition timers_evolve (w w' : World) : Prop :=
  forall h tm, timers w !! h = Some tm ->
    exists tm', timers w' !! h = Some tm'
                /\ tm_chat tm' = tm_chat tm /\ tm_task tm' = tm_task tm
                /\ status_step (tm_status tm) (tm_status tm').

(** One turn of the reminder loop touches no timer and no session. *)
Definition quiet_turn (w w' : World) : Prop :=
  timers w' = timers w /\ users w' = users w /\ uuids w' = uuids w
  /\ oracle w' = oracle w.

(** The task a reminder is about, looked up by id as the loop does. *)
Definition lookup_task (c : Z) (tid : string) (w : World) : option Task :=
  match users w !! c with
  | Some u => snd <$> find_task tid (tasks u) 0
  | None => None
  end.


(** The generator fails once, at the first call, and answers ever after. *)
Definition fails_once : nat -> outcome :=
  fun n => match n with 0 => Fails | _ => Succeeds "go" end.

(** Chat 7 has one open task; its reminder is asleep. *)
Definition open_reminder : World :=
  mkWorld {[ 7%Z := mkUser [mkTask "0" "Write report" "top" false] 0 (Some 0) ]}
          [mkTimer 7 "0" Sleeping] 1 fails_once 0 [Arm 7 0 "0"].

(** ** What a computation returns *)


(** [m] started where [P] holds returns a value, and leaves [Q]. *)
Definition total {A} (P : World -> Prop) (Q : A -> World -> Prop) (m : M A) : Prop :=
  forall w, P w -> exists a w', m w = (Ok a, w') /\ Q a w'.

(** The collaborators answer every call. *)
Definition healthy (w : World) : Prop := forall n, oracle w n <> Fails.

(** They do, and chat [c] has a session. *)
Definition ready (c : Z) (w : World) : Prop :=
  healthy w /\ is_Some (users w !! c).





(** No collaborator call succeeds. *)
Definition all_fail : nat -> outcome := fun _ => Fails.

(** The reminder of chat 7 has returned; its task is pressed Done. *)
Definition finished_reminder : World :=
  mkWorld {[ 7%Z := mkUser two_tasks 0 (Some 0) ]}
          [mkTimer 7 "0" Finished] 2 all_fine 4 [Arm 7 0 "0"].

(** ** Counting arms and cancels *)

Definition is_arm (c : Z) (e : effect) : bool :=
  match e with Arm c' _ _ => bool_decide (c' = c) | _ => false end.

Definition is_cancel (c : Z) (e : effect) : bool :=
  match e with Cancel c' _ => bool_decide (c' = c) | _ => false end.

(** How often a reminder was armed, and how often one was cancelled, for
    chat [c] in the effects [l]. *)
Definition arms (c : Z) (l : list effect) : nat := length (List.filter (is_arm c) l).

Definition cancels (c : Z) (l : list effect) : nat := length (List.filter (is_cancel c) l).

Definition timer_effect (e : effect) : bool :=
  match e with Arm _ _ _ | Cancel _ _ => true | _ => false end.

Definition sleeping (st : status) : bool :=
  match st with Sleeping => true | _ => false end.

(** The timers of chat [c] that can still fire. *)
Definition outstanding (c : Z) (w : World) : nat :=
  length (List.filter (fun tm => bool_decide (tm_chat tm = c) && sleeping (tm_status tm))
            (timers w)).

(** What happened up to each instant: at no instant were there two arms
    more than cancels, and whenever a timer was armed every timer armed
    before it for the chat had been cancelled. *)
Definition hist_ok (c : Z) (l : list effect) : Prop :=
  forall pre suf, l = (pre ++ suf)%list ->
    arms c pre <= cancels c pre + 1
    /\ (forall h tid rest, suf = Arm c h tid :: rest ->
          forall h' tid', Arm c h' tid' ∈ pre -> Cancel c h' ∈ pre).

(** ** The invariant of the reminder timers *)

(** The handle in [users[c]["reminder"]]. *)
Definition stored (c : Z) (w : World) : option handle :=
  match users w !! c with Some u => reminder u | None => None end.

Definition uncancelled (st : status) : bool :=
  match st with Sleeping | Finished | Failed => true | _ => false end.

(** 1 when chat [c] stores a handle that no [cancel] has reached. *)
Definition holds (c : Z) (w : World) : nat :=
  match stored c w with
  | Some h =>
      match timers w !! h with
      | Some tm => if uncancelled (tm_status tm) then 1 else 0
      | None => 0
      end
  | None => 0
  end.

(** What holds between any two steps of the event loop: a session's arms
    exceed its cancels only by the handle it still holds; a stored
    handle is a timer of its own chat; a timer that can fire is the one
    its chat stores; a timer once armed is cancelled or still held; and
    the history is as [hist_ok] says. *)
Record Inv (w : World) : Prop := mkInv {
  inv_count : forall c, arms c (log w) <= cancels c (log w) + holds c w;
  inv_owner : forall c h, stored c w = Some h ->
                exists tm, timers w !! h = Some tm /\ tm_chat tm = c;
  inv_sleep : forall h tm, timers w !! h = Some tm -> tm_status tm = Sleeping ->
                stored (tm_chat tm) w = Some h;
  inv_armed : forall c h tid, Arm c h tid ∈ log w ->
                Cancel c h ∈ log w \/ (stored c w = Some h /\ holds c w = 1);
  inv_hist : forall c, hist_ok c (log w)
}.

(** Between the cancel and the arm of a handler of chat [c]: every timer
    armed for [c] has been cancelled and none of them can fire. *)
Record Quiet (c : Z) (w : World) : Prop := mkQuiet {
  quiet_inv : Inv w;
  quiet_count : arms c (log w) <= cancels c (log w);
  quiet_sleep : forall h tm, timers w !! h = Some tm -> tm_chat tm = c ->
                  tm_status tm <> Sleeping;
  quiet_armed : forall h tid, Arm c h tid ∈ log w -> Cancel c h ∈ log w
}.

(** Steps that touch no timer and no stored handle. *)
Definition silent (w w' : World) : Prop :=
  timers w' = timers w
  /\ (forall c, stored c w' = stored c w)
  /\ (forall c, is_Some (users w !! c) -> is_Some (users w' !! c))
  /\ exists es, log w' = (log w ++ es)%list /\ Forall (fun e => timer_effect e = false) es.

(** Started where [P] holds, [m] leaves [Q] when it returns and the
    invariant when it raises. *)
Definition keeps {A} (P : World -> Prop) (m : M A) (Q : World -> Prop) : Prop :=
  forall w, P w ->
    match m w with
    | (Ok _, w') => Q w'
    | (Raise _, w') => Inv w'
    end.

(** Chat [c] is quiet and has a session. *)
Definition QuietU (c : Z) (w : World) : Prop :=
  Quiet c w /\ is_Some (users w !! c).

(** A day with chat 7: a list of two goals, a reminder, a Done press on
    the first goal, a Stuck press, and a second list. Three timers are
    armed and two cancelled; only the last can still fire. *)
Definition busy_day : list event :=
  [Webhook (text_message 7 two_goals); Fire 0;
   Webhook (press "q" 7 "done:0"); Deliver 0;
   Webhook (press "q" 7 "stuck:1");
   Webhook (text_message 7 two_goals)].

(** Two Done presses for the task in focus, the second arriving while
    the first is handled (a double tap): each handler goes on when its
    call is answered, in turn, and the cancellation of the old timer is
    delivered in between. *)
Definition double_tap : list Overlap.move :=
  [Overlap.Arrives (press "a" 7 "done:0"); Overlap.Arrives (press "b" 7 "done:0");
   Overlap.Resumes 0; Overlap.Delivers 0; Overlap.Resumes 1;
   Overlap.Resumes 0; Overlap.Resumes 1;
   Overlap.Resumes 0; Overlap.Resumes 1;
   Overlap.Resumes 0; Overlap.Resumes 1].

(** The first message of chat 8 arrives while the morning round waits
    for its send to chat 7. *)
Definition newcomer_at_dawn : list Overlap.move :=
  [Overlap.Morning [7%Z]; Overlap.Arrives (text_message 8 "/start");
   Overlap.Resumes 0; Overlap.Resumes 1].

(** [keys] are the keys of [users], each once. *)
Definition keys_of (keys : list Z) (w : World) : Prop :=
  NoDup keys /\ forall c, c ∈ keys <-> is_Some (users w !! c).

(** The prompts of a morning round to the chats [keys]. *)
Definition prompts (keys : list Z) : list effect :=
  map (fun c => SendMessage c morning_text None) keys.

(** [c] runs as [m] does when no other coroutine runs in between. *)
Definition serial_of {A} (c : Overlap.Co A) (m : M A) : Prop :=
  forall w, Overlap.finish (c w) = m w.

(** ** Goal lists *)

(** A line with something on it once stripped. *)
Definition nonblank (l : string) : bool := PyStr.nonempty (PyStr.strip l).

Definition has_nonspace (l : list ascii) : bool :=
  existsb (fun c => negb (PyStr.isspace c)) l.

(** Sessions keep their queues, and no pointer moves back. *)
Definition queue_kept (w w' : World) : Prop :=
  forall c u, users w !! c = Some u ->
    exists u', users w' !! c = Some u' /\ tasks u' = tasks u
               /\ pointer u <= pointer u'.

(** ** Whose request it is *)

(** The chat a request is handled for: the sender of a button press,
    the chat of a message. *)
Definition chat_of (req : Request) : option Z :=
  match req with
  | Malformed => None
  | Json update =>
      match callback_query update with
      | Some cq => Some (cq_from_user cq)
      | None => msg_chat <$> message update
      end
  end.

(** Every session but that of chat [c] is as it was. *)
Definition others_kept (c : Z) (w w' : World) : Prop :=
  forall c', c' <> c -> users w' !! c' = users w !! c'.

(** An event that is no request of chat [c]. *)
Definition foreign (c : Z) (ev : event) : bool :=
  match ev with
  | Webhook req => negb (bool_decide (chat_of req = Some c))
  | _ => true
  end.

(** Two chats at work, each on the first task of its own list. *)
Definition two_chats : World :=
  mkWorld {[ 7%Z := mkUser two_tasks 0 (Some 0);
             8%Z := mkUser [mkTask "2" "Water plants" "top" false] 0 (Some 1) ]}
          [mkTimer 7 "0" Sleeping; mkTimer 8 "2" Sleeping] 3 all_fine 7
          [Arm 7 0 "0"; Arm 8 1 "2"].

(** ** Sessions as the handlers leave them *)

(** The ids of a queue differ pairwise; the pointer is inside the queue
    or at its end; every task the pointer has passed is done. *)
Record sound_user (u : User) : Prop := mkSound {
  ids_differ : NoDup (map t_id (tasks u));
  pointer_inside : pointer u <= length (tasks u);
  passed_done : forall i t, i < pointer u -> tasks u !! i = Some t -> t_done t = true
}.

Definition sound (w : World) : Prop :=
  forall c u, users w !! c = Some u -> sound_user u.

Definition stays_sound (w w' : World) : Prop := sound w -> sound w'.

(** ** The task a reminder is about *)

(** Every reminder that can fire is about the task its chat's pointer
    is at, and that task is not done. *)
Definition in_focus (w : World) : Prop :=
  forall h tm, timers w !! h = Some tm -> tm_status tm = Sleeping ->
    exists u t, users w !! tm_chat tm = Some u /\ tasks u !! pointer u = Some t
                /\ t_id t = tm_task tm /\ t_done t = false.

(** What holds between any two steps of the event loop. *)
Definition Steady (w : World) : Prop := Inv w /\ in_focus w.

(** Between the cancel and the arm of a handler of chat [c]. *)
Definition Calm (c : Z) (w : World) : Prop := Quiet c w /\ in_focus w.

(** The same, with the pointer of [c] on the open task [task]. *)
Definition Poised (c : Z) (task : Task) (w : World) : Prop :=
  Quiet c w /\ in_focus w
  /\ exists u, users w !! c = Some u /\ tasks u !! pointer u = Some task
               /\ t_done task = false.

(** Started where [P] holds, [m] leaves [Q] when it returns and a
    steady world when it raises. *)
Definition upholds {A} (P : World -> Prop) (m : M A) (Q : World -> Prop) : Prop :=
  forall w, P w ->
    match m w with
    | (Ok _, w') => Q w'
    | (Raise _, w') => Steady w'
    end.

(** ** Whose timers a request touches *)

(** The timers of the chats other than [c] are as they were. *)
Definition foreign_timers_kept (c : Z) (w w' : World) : Prop :=
  forall h tm, timers w !! h = Some tm -> tm_chat tm <> c -> timers w' !! h = Some tm.

(** Started where [P] holds, [m] leaves a world that [R] relates to the
    one it started in, and [Q] when it returns. *)
Definition moves {A} (R : World -> World -> Prop) (P : World -> Prop) (m : M A)
    (Q : World -> Prop) : Prop :=
  forall w, P w ->
    R w (m w).2 /\ match (m w).1 with Ok _ => Q (m w).2 | Raise _ => True end.

Definition anywhere : World -> Prop := fun _ => True.

(** ** What v0.2 keeps in order *)

(** The task ids differ and were all handed out by [uuid4]; a task id in
    [active_reminders] is that of a task that is not done, and its
    handle is a loop for that task; a loop that can fire is the one
    registered for its task. *)
Record Tidy (s : V2Hook.State) : Prop := mkTidy {
  tidy_keys : NoDup (V2Hook.tasks s).*1;
  tidy_fresh : forall tid, tid ∈ (V2Hook.tasks s).*1 ->
                 exists n, n < uuids (V2Hook.world s) /\ tid = pretty n;
  tidy_registered : forall tid h, V2Hook.active_reminders s !! tid = Some h ->
                      (exists st, V2Hook.loops s !! h = Some (tid, st))
                      /\ exists t, (tid, t) ∈ V2Hook.tasks s /\ V2.done t = false;
  tidy_sleeping : forall h tid, V2Hook.loops s !! h = Some (tid, Sleeping) ->
                    V2Hook.active_reminders s !! tid = Some h
}.

(** Started where [P] holds, [m] leaves [Q] of its value when it
    returns and a tidy state when it raises. *)
Definition sustains {A} (P : V2Hook.State -> Prop) (m : V2Hook.SM A)
    (Q : A -> V2Hook.State -> Prop) : Prop :=
  forall s, P s ->
    match m s with
    | (Ok a, s') => Q a s'
    | (Raise _, s') => Tidy s'
    end.

(** The task [tid] is stored and open and has no reminder yet. *)
Definition Pending (tid : string) (s : V2Hook.State) : Prop :=
  Tidy s
  /\ (exists t, (tid, t) ∈ V2Hook.tasks s /\ V2.done t = false)
  /\ V2Hook.active_reminders s !! tid = None.

(** The id [tid] was handed out and names no task yet. *)
Definition Unused (tid : string) (s : V2Hook.State) : Prop :=
  Tidy s
  /\ (tid ∉ (V2Hook.tasks s).*1)
  /\ exists n, n < uuids (V2Hook.world s) /\ tid = pretty n.


(** ** Working a queue off *)

(** The queue [ts] with its first [k] tasks done. *)
Definition worked (k : nat) (ts : list Task) : list Task :=
  (map set_done (take k ts) ++ drop k ts)%list.

Definition focus_prompt (t : Task) : string := "Start focusing on: " ++ t_text t.

Definition complete_text : string := "🥳 Day’s list complete! Great work.".

(** What an effect tells of the progress of chat [c]: the prompt of a
    coach request, and the completion message. *)
Definition report (c : Z) (e : effect) : list string :=
  match e with
  | Gpt role content => if String.eqb role "coach" then [content] else []
  | SendMessage c' text None =>
      if bool_decide (c' = c) && String.eqb text complete_text then [text] else []
  | _ => []
  end.

Definition progress (c : Z) (l : list effect) : list string := flat_map (report c) l.

(** The press of the Done button sent with task [t]. *)
Definition done_press (q : string) (c : Z) (t : Task) : event :=
  Webhook (press q c ("done:" ++ t_id t)).

(** The collaborators answer; chat [c] has done the first [k] tasks of
    [ts], its pointer is at [p], and [L] is its progress so far. *)
Definition Working (c : Z) (ts : list Task) (k p : nat) (L : list string)
    (w : World) : Prop :=
  healthy w /\ progress c (log w) = L
  /\ exists u, users w !! c = Some u /\ tasks u = worked k ts /\ pointer u = p.

(** * Reasoning about computations *)

Example lines_scenario :
  lines_of ("Write report" ++ String PyStr.LF ("  Call Bob " ++ String PyStr.CR (String PyStr.LF (String PyStr.LF "Email team"))))
  = ["Write report"; "Call Bob"; "Email team"].
Proof. reflexivity. Qed.

Section Always.
Context (R : World -> World -> Prop) `{!PreOrder R}.

Lemma always_ret {A} (a : A) : always R (mret a).
Proof. intros w. reflexivity. Qed.

Lemma always_raise {A} (e : exn) : always R (@raise A e).
Proof. intros w. reflexivity. Qed.

Lemma always_gets {A} (f : World -> A) : always R (gets f).
Proof. intros w. reflexivity. Qed.

Lemma always_bind {A B} (m : M A) (k : A -> M B) :
  always R m -> (forall a, always R (k a)) -> always R (m ≫= k).
Proof.
  intros Hm Hk w. unfold mbind, M_bind.
  specialize (Hm w). destruct (m w) as [[a|e] w']; simpl in *.
  - etransitivity; [exact Hm | apply Hk].
  - exact Hm.
Qed.

Lemma always_modify (f : World -> World) :
  (forall w, R w (f w)) -> always R (modify f).
Proof. intros H w. apply H. Qed.

Lemma always_coroutine {A} (m : M A) : always R m -> always R (coroutine m).
Proof.
  intros H w. unfold coroutine. specialize (H w).
  destruct (m w) as [[a|[]] w']; exact H.
Qed.
End Always.

(** * The pointer advancer *)

Lemma advance_ge fuel (ts : list Task) p : p <= advance fuel ts p.
Proof.
  revert p. induction fuel as [|fuel IH]; intros p; simpl; [lia|].
  destruct (ts !! p) as [t|]; [|lia].
  destruct (t_done t); [|lia]. specialize (IH (S p)). lia.
Qed.

Lemma advance_skipped fuel (ts : list Task) p i t :
  p <= i < advance fuel ts p -> ts !! i = Some t -> t_done t = true.
Proof.
  revert p. induction fuel as [|fuel IH]; intros p; simpl; [lia|].
  destruct (ts !! p) as [t0|] eqn:Hp; [|lia].
  destruct (t_done t0) eqn:Hd; [|lia].
  intros Hi Ht. destruct (decide (i = p)) as [->|Hne].
  - congruence.
  - apply (IH (S p)); [lia | exact Ht].
Qed.

(** With the fuel [next_task] gives it, the loop has really stopped: the
    pointer is at a task that is not done, or outside the queue. *)
Lemma advance_stops fuel (ts : list Task) p t :
  length ts <= p + fuel ->
  ts !! advance fuel ts p = Some t -> t_done t = false.
Proof.
  revert p. induction fuel as [|fuel IH]; intros p Hlen; simpl.
  - intros Ht. apply lookup_lt_Some in Ht. lia.
  - destruct (ts !! p) as [t0|] eqn:Hp.
    + destruct (t_done t0) eqn:Hd.
      * apply IH. lia.
      * intros Ht. congruence.
    + congruence.
Qed.

Lemma advance_end fuel (ts : list Task) p :
  p <= length ts -> advance fuel ts p <= length ts.
Proof.
  revert p. induction fuel as [|fuel IH]; intros p Hp; simpl; [lia|].
  destruct (ts !! p) as [t0|] eqn:Hl; [|lia].
  destruct (t_done t0); [|lia].
  apply IH. apply lookup_lt_Some in Hl. lia.
Qed.

Lemma next_task_eq chat_id w u :
  users w !! chat_id = Some u ->
  next_task chat_id w =
    (Ok (tasks u !! advance (length (tasks u)) (tasks u) (pointer u)),
     with_users (insert chat_id
       (mkUser (tasks u) (advance (length (tasks u)) (tasks u) (pointer u)) (reminder u))) w).
Proof. intros H. unfold next_task. rewrite H. reflexivity. Qed.

(** ** The stored pointer never moves back under button presses *)

#[global] Instance pointer_le_preorder : PreOrder pointer_le.
Proof.
  split.
  - intros w c u H. exists u. auto.
  - intros w1 w2 w3 H12 H23 c u H.
    destruct (H12 c u H) as (u2 & H2 & Hp2 & Hl2).
    destruct (H23 c u2 H2) as (u3 & H3 & Hp3 & Hl3).
    exists u3. split; [exact H3|]. split; [lia | congruence].
Qed.

Lemma pointer_le_same_users w w' : users w' = users w -> pointer_le w w'.
Proof. intros E c u H. exists u. rewrite E. auto. Qed.

Lemma pointer_le_insert w w' c u u' :
  users w !! c = Some u -> users w' = <[c := u']> (users w) ->
  pointer u <= pointer u' -> length (tasks u') = length (tasks u) ->
  pointer_le w w'.
Proof.
  intros Hu E Hp Hl c0 u0 H0. rewrite E.
  destruct (decide (c = c0)) as [->|Hne].
  - exists u'. rewrite lookup_insert_eq. split; [done|]. split; congruence.
  - exists u0. rewrite lookup_insert_ne by done. auto.
Qed.

Lemma await_pointer_le e : always pointer_le (await e).
Proof.
  intros w. unfold await. destruct (oracle w (calls w)); apply pointer_le_same_users; reflexivity.
Qed.

Lemma send_message_pointer_le c t k : always pointer_le (send_message c t k).
Proof.
  apply always_bind; [typeclasses eauto | apply await_pointer_le |].
  intros; apply always_ret; typeclasses eauto.
Qed.

Lemma gpt_pointer_le r c : always pointer_le (gpt r c).
Proof.
  apply always_bind; [typeclasses eauto | apply await_pointer_le |].
  intros; apply always_ret; typeclasses eauto.
Qed.

Lemma user_of_pointer_le c : always pointer_le (user_of c).
Proof.
  apply always_bind; [typeclasses eauto | apply always_gets; typeclasses eauto |].
  intros [u|]; [apply always_ret | apply always_raise]; typeclasses eauto.
Qed.

Lemma get_task_pointer_le c tid : always pointer_le (get_task c tid).
Proof.
  apply always_bind; [typeclasses eauto | apply user_of_pointer_le |].
  intros u. destruct (find_task tid (tasks u) 0);
    [apply always_ret | apply always_raise]; typeclasses eauto.
Qed.

Lemma cancel_pointer_le c h : always pointer_le (cancel c h).
Proof. apply always_modify. intros w. apply pointer_le_same_users. reflexivity. Qed.

Lemma mark_done_pointer_le c tid : always pointer_le (mark_done c tid).
Proof.
  apply always_bind; [typeclasses eauto | apply get_task_pointer_le |].
  intros [i t]. apply always_bind; [typeclasses eauto | |].
  - apply always_modify. intros w.
    destruct (users w !! c) as [u|] eqn:Hu.
    + eapply pointer_le_insert; [exact Hu | cbn [with_users users]; rewrite Hu; reflexivity | simpl; lia |].
      simpl. apply length_insert.
    + apply pointer_le_same_users. cbn [with_users users]. rewrite Hu. reflexivity.
  - intros _. apply always_bind; [typeclasses eauto | apply user_of_pointer_le |].
    intros u. destruct (reminder u) as [rem|]; [|apply always_ret; typeclasses eauto].
    apply always_bind; [typeclasses eauto | apply always_gets; typeclasses eauto |].
    intros [|]; [apply always_ret; typeclasses eauto | apply cancel_pointer_le].
Qed.

Lemma next_task_pointer_le c : always pointer_le (next_task c).
Proof.
  intros w. unfold next_task. destruct (users w !! c) as [u|] eqn:Hu; simpl.
  - eapply pointer_le_insert; [exact Hu | reflexivity | | reflexivity].
    simpl. apply advance_ge.
  - reflexivity.
Qed.

Lemma set_reminder_pointer_le c h : always pointer_le (set_reminder c h).
Proof.
  intros w. unfold set_reminder, user_of, gets, modify, raise, mbind, M_bind, mret, M_ret.
  destruct (users w !! c) as [u|] eqn:Hu; simpl.
  - eapply pointer_le_insert; [exact Hu | reflexivity | simpl; lia | reflexivity].
  - reflexivity.
Qed.

Lemma start_focus_pointer_le c : always pointer_le (start_focus c).
Proof.
  apply always_bind; [typeclasses eauto | apply next_task_pointer_le |].
  intros [task|]; [|apply send_message_pointer_le].
  apply always_bind; [typeclasses eauto | apply gpt_pointer_le |]. intros msg.
  apply always_bind; [typeclasses eauto | apply send_message_pointer_le |]. intros _.
  apply always_bind; [typeclasses eauto | |].
  - intros w. apply pointer_le_same_users. reflexivity.
  - intros h. apply set_reminder_pointer_le.
Qed.

Lemma on_callback_pointer_le cq : always pointer_le (on_callback cq).
Proof.
  unfold on_callback.
  destruct (PyStr.split_once ":" (default "" (cq_data cq))) as [[action tid]|];
    [|apply always_raise; typeclasses eauto].
  apply always_bind; [typeclasses eauto | |].
  { apply always_bind; [typeclasses eauto | apply await_pointer_le |].
    intros; apply always_ret; typeclasses eauto. }
  intros _. apply always_bind; [typeclasses eauto | |];
    [|intros; apply always_ret; typeclasses eauto].
  destruct (String.eqb action "done").
  - apply always_bind; [typeclasses eauto | apply mark_done_pointer_le |]. intros _.
    apply always_bind; [typeclasses eauto | apply send_message_pointer_le |]. intros _.
    apply start_focus_pointer_le.
  - destruct (String.eqb action "stuck"); [|apply always_ret; typeclasses eauto].
    apply always_bind; [typeclasses eauto | apply get_task_pointer_le |]. intros it.
    apply always_bind; [typeclasses eauto | apply gpt_pointer_le |]. intros tip.
    apply send_message_pointer_le.
Qed.

Lemma telegram_webhook_callback cq m :
  telegram_webhook (Json (mkUpdate (Some cq) m)) = coroutine (on_callback cq).
Proof. reflexivity. Qed.

Lemma done_signals_pointer_le sigs w :
  pointer_le w (run (map done_signal sigs) w).
Proof.
  revert w. induction sigs as [|s sigs IH]; intros w; simpl.
  - reflexivity.
  - etransitivity; [|apply IH].
    unfold step, done_signal. rewrite telegram_webhook_callback.
    apply always_coroutine, on_callback_pointer_le.
Qed.

(** C2. [next_task] returns the first task that is not done at or after
    the stored pointer, or nothing when the pointer reaches the end of
    the queue; after any sequence of done signals it returns no task
    that is done, and the stored pointer has not moved back: the task
    returned is at an index at or above every pointer stored before. *)
Theorem next_task_first_open (w : World) (chat_id : Z)
    (sigs : list (string * Z * string)) :
  let w' := run (map done_signal sigs) w in
  match users w' !! chat_id with
  | None => next_task chat_id w' = (Ok None, w') /\ users w !! chat_id = None
  | Some u' =>
      exists q : nat,
        next_task chat_id w' =
          (Ok (tasks u' !! q),
           with_users (insert chat_id (mkUser (tasks u') q (reminder u'))) w')
        /\ pointer u' <= q
        /\ (forall i t, pointer u' <= i < q -> tasks u' !! i = Some t -> t_done t = true)
        /\ (forall t, tasks u' !! q = Some t -> t_done t = false)
        /\ (tasks u' !! q = None -> length (tasks u') <= q)
        /\ (pointer u' <= length (tasks u') -> q <= length (tasks u'))
        /\ (forall u, users w !! chat_id = Some u -> pointer u <= pointer u')
  end.
Proof.
  intros w'. pose proof (done_signals_pointer_le sigs w) as Hle. fold w' in Hle.
  destruct (users w' !! chat_id) as [u'|] eqn:Hu'.
  - exists (advance (length (tasks u')) (tasks u') (pointer u')).
    split; [apply next_task_eq; exact Hu'|].
    split; [apply advance_ge|].
    split; [intros i t; apply advance_skipped|].
    split; [intros t; apply advance_stops; lia|].
    split; [intros H; apply lookup_ge_None in H; exact H|].
    split; [apply advance_end|].
    intros u Hu. destruct (Hle chat_id u Hu) as (u2 & H2 & Hp & _).
    congruence.
  - split.
    + unfold next_task. rewrite Hu'. reflexivity.
    + destruct (users w !! chat_id) as [u|] eqn:Hu; [|reflexivity].
      destruct (Hle chat_id u Hu) as (u2 & H2 & _). congruence.
Qed.

(** * The queue builder *)

Lemma fresh_tasks_text n prio ls : map t_text (fresh_tasks n prio ls) = ls.
Proof. revert n. induction ls as [|l ls IH]; intros n; simpl; [done|]. by rewrite IH. Qed.

Lemma fresh_tasks_length n prio ls : length (fresh_tasks n prio ls) = length ls.
Proof. revert n. induction ls as [|l ls IH]; intros n; simpl; [done|]. by rewrite IH. Qed.

Lemma fresh_tasks_Forall n prio ls :
  Forall (fun t => t_prio t = prio /\ t_done t = false) (fresh_tasks n prio ls).
Proof. revert n. induction ls as [|l ls IH]; intros n; simpl; constructor; auto. Qed.

Lemma append_tasks_eq c prio ls w u :
  users w !! c = Some u ->
  append_tasks c prio ls w =
    (Ok tt,
     mkWorld (<[c := mkUser (tasks u ++ fresh_tasks (uuids w) prio ls) (pointer u) (reminder u)]> (users w))
             (timers w) (uuids w + length ls) (oracle w) (calls w) (log w)).
Proof.
  revert w u. induction ls as [|l ls IH]; intros w u Hu.
  - simpl. unfold pass, mret, M_ret. f_equal.
    rewrite app_nil_r, Nat.add_0_r. destruct u, w; simpl in *.
    f_equal. symmetry. apply insert_id. exact Hu.
  - cbn [append_tasks]. unfold new_Task, uuid4, modify, mbind, M_bind, mret, M_ret.
    unfold with_users. cbn [users timers uuids oracle calls log]. rewrite Hu.
    erewrite IH by (cbn [users]; apply lookup_insert_eq).
    cbn. f_equal. f_equal; [|lia].
    rewrite insert_insert_eq. rewrite <- app_assoc. reflexivity.
Qed.

Lemma add_tasks_from_morning_eq c raw w u :
  users w !! c = Some u ->
  add_tasks_from_morning c raw w =
    (Ok tt,
     let w' := cancel_stored c (reminder u) w in
     mkWorld (<[c := mkUser (queue (uuids w) (lines_of raw)) 0 (reminder u)]> (users w))
             (timers w') (uuids w + length (lines_of raw)) (oracle w) (calls w) (log w')).
Proof.
  intros Hu. unfold add_tasks_from_morning, user_of, gets, modify, mbind, M_bind, mret, M_ret.
  rewrite Hu. cbn [fst snd].
  set (w1 := with_users _ w).
  assert (H1 : users w1 !! c = Some (mkUser [] 0 (reminder u))) by apply lookup_insert_eq.
  set (w2 := cancel_stored c (reminder u) w1).
  assert (E : (match reminder u with Some rem => cancel c rem | None => pass end) w1 = (Ok tt, w2)).
  { unfold w2, cancel_stored. destruct (reminder u); reflexivity. }
  rewrite E.
  assert (H2 : users w2 !! c = Some (mkUser [] 0 (reminder u))).
  { unfold w2, cancel_stored. destruct (reminder u); exact H1. }
  erewrite append_tasks_eq by exact H2.
  erewrite append_tasks_eq by (cbn [users]; apply lookup_insert_eq).
  erewrite append_tasks_eq by (cbn [users]; apply lookup_insert_eq).
  cbn [users timers uuids oracle calls log tasks pointer reminder].
  rewrite !insert_insert_eq.
  assert (Hlen : length (PyStr.slice 0 1 (lines_of raw)) + length (PyStr.slice 1 4 (lines_of raw))
                 + length (drop 4 (lines_of raw)) = length (lines_of raw)).
  { unfold PyStr.slice. cbn [Nat.sub drop]. rewrite !length_take, !length_drop. lia. }
  assert (Eu : users w2 = <[c := mkUser [] 0 (reminder u)]> (users w)).
  { unfold w2, cancel_stored. destruct (reminder u); reflexivity. }
  assert (Et : timers w2 = timers (cancel_stored c (reminder u) w)).
  { unfold w2, cancel_stored. destruct (reminder u); reflexivity. }
  assert (El : log w2 = log (cancel_stored c (reminder u) w)).
  { unfold w2, cancel_stored. destruct (reminder u); reflexivity. }
  assert (En : uuids w2 = uuids w).
  { unfold w2, cancel_stored. destruct (reminder u); reflexivity. }
  assert (Eo : oracle w2 = oracle w).
  { unfold w2, cancel_stored. destruct (reminder u); reflexivity. }
  assert (Ec : calls w2 = calls w).
  { unfold w2, cancel_stored. destruct (reminder u); reflexivity. }
  rewrite Eu, Et, El, En, Eo, Ec, insert_insert_eq.
  f_equal. f_equal; [|lia].
  unfold queue, PyStr.slice. cbn [Nat.sub drop app]. rewrite <- !app_assoc.
  reflexivity.
Qed.

(** ** What the lines of a submission look like *)

Lemma all_chars_lstrip P s : all_chars P s = true -> all_chars P (PyStr.lstrip s) = true.
Proof.
  induction s as [|c s IH]; simpl; [done|].
  intros H. apply andb_true_iff in H as [Hc Hs].
  destruct (PyStr.isspace c); [auto|]. simpl. by rewrite Hc, Hs.
Qed.

Lemma all_chars_rstrip P s : all_chars P s = true -> all_chars P (PyStr.rstrip s) = true.
Proof.
  induction s as [|c s IH]; simpl; [done|].
  intros H. apply andb_true_iff in H as [Hc Hs].
  destruct (PyStr.isspace c && negb (PyStr.nonempty (PyStr.rstrip s))); [done|].
  simpl. rewrite Hc. auto.
Qed.

Lemma all_chars_strip P s : all_chars P s = true -> all_chars P (PyStr.strip s) = true.
Proof. intros H. apply all_chars_rstrip, all_chars_lstrip, H. Qed.

Lemma lstrip_first s : PyStr.nonempty (PyStr.lstrip s) = true ->
  not_space (first_char (PyStr.lstrip s)) = true.
Proof.
  induction s as [|c s IH]; simpl; [done|].
  destruct (PyStr.isspace c) eqn:Hc; [exact IH|]. simpl. by rewrite Hc.
Qed.

Lemma rstrip_last s : PyStr.nonempty (PyStr.rstrip s) = true ->
  not_space (last_char (PyStr.rstrip s)) = true.
Proof.
  induction s as [|c s IH]; simpl; [done|].
  destruct (PyStr.isspace c) eqn:Hc; simpl.
  - destruct (PyStr.nonempty (PyStr.rstrip s)) eqn:Hn; simpl; [|done].
    intros _. specialize (IH eq_refl).
    destruct (last_char (PyStr.rstrip s)); [exact IH | done].
  - intros _. destruct (last_char (PyStr.rstrip s)) eqn:Hl.
    + destruct (PyStr.nonempty (PyStr.rstrip s)) eqn:Hn.
      * exact (IH eq_refl).
      * destruct (PyStr.rstrip s); [done | discriminate].
    + simpl. by rewrite Hc.
Qed.

Lemma rstrip_first s :
  not_space (first_char s) = true -> first_char (PyStr.rstrip s) = first_char s.
Proof.
  destruct s as [|c s]; simpl; [done|].
  intros Hc. destruct (PyStr.isspace c); [done|]. reflexivity.
Qed.

Lemma strip_trimmed s : PyStr.nonempty (PyStr.strip s) = true -> trimmed (PyStr.strip s) = true.
Proof.
  unfold PyStr.strip, trimmed. intros Hn.
  assert (Hl : PyStr.nonempty (PyStr.lstrip s) = true).
  { destruct (PyStr.lstrip s); [done | done]. }
  apply lstrip_first in Hl.
  rewrite (rstrip_first _ Hl), Hl. simpl. apply rstrip_last, Hn.
Qed.

Lemma all_chars_of_list P l :
  all_chars P (string_of_list_ascii l) = forallb P l.
Proof. induction l as [|c l IH]; simpl; [done|]. by rewrite IH. Qed.

Lemma forallb_rev {A} (P : A -> bool) l : forallb P (rev l) = forallb P l.
Proof.
  induction l as [|a l IH]; simpl; [done|].
  rewrite forallb_app, IH. simpl. rewrite andb_true_r. apply andb_comm.
Qed.

Lemma splitlines_from_no_linebreak s : forall cur l,
  l ∈ PyStr.splitlines_from cur s ->
  forallb (fun c => negb (PyStr.is_linebreak c)) cur = true ->
  no_linebreak l = true.
Proof.
  remember (String.length s) as n eqn:Hn.
  assert (Hle : String.length s <= n) by lia. clear Hn.
  revert s Hle. induction n as [|n IH]; intros s Hle cur l Hin Hcur.
  - destruct s; [|simpl in Hle; lia]. simpl in Hin.
    destruct cur as [|c cur]; [by apply elem_of_nil in Hin|].
    apply list_elem_of_singleton in Hin as ->.
    unfold no_linebreak. by rewrite all_chars_of_list, forallb_rev.
  - destruct s as [|c s]; simpl in Hin.
    + destruct cur as [|c cur]; [by apply elem_of_nil in Hin|].
      apply list_elem_of_singleton in Hin as ->.
      unfold no_linebreak. by rewrite all_chars_of_list, forallb_rev.
    + simpl in Hle. destruct (PyStr.is_linebreak c) eqn:Hc.
      * apply elem_of_cons in Hin as [->|Hin].
        { unfold no_linebreak. by rewrite all_chars_of_list, forallb_rev. }
        destruct s as [|c' s']; [by apply elem_of_nil in Hin|].
        destruct (Ascii.eqb c PyStr.CR && Ascii.eqb c' PyStr.LF).
        { apply (IH s') with (cur := []); [simpl in Hle; lia | exact Hin | done]. }
        { apply (IH (String c' s')) with (cur := []); [lia | exact Hin | done]. }
      * apply (IH s) with (cur := c :: cur); [lia | exact Hin |].
        simpl. by rewrite Hc, Hcur.
Qed.

Lemma lines_of_shape raw l :
  l ∈ lines_of raw -> trimmed l = true /\ no_linebreak l = true.
Proof.
  unfold lines_of. intros Hin.
  apply list_elem_of_fmap in Hin as (l0 & -> & Hin).
  apply list_elem_of_In, filter_In in Hin as [Hin Hne].
  split; [apply strip_trimmed, Hne|].
  apply all_chars_strip. apply list_elem_of_In in Hin.
  by apply (splitlines_from_no_linebreak raw [] l0).
Qed.

Lemma append_cons c (s t : string) : String c s ++ t = String c (s ++ t).
Proof. reflexivity. Qed.

Lemma splitlines_from_line l : forall cur s,
  no_linebreak l = true ->
  PyStr.splitlines_from cur (l ++ s) =
  PyStr.splitlines_from (rev (list_ascii_of_string l) ++ cur) s.
Proof.
  induction l as [|c l IH]; intros cur s Hl; [done|].
  rewrite append_cons. simpl.
  unfold no_linebreak in Hl. simpl in Hl.
  apply andb_true_iff in Hl as [Hc Hl].
  apply negb_true_iff in Hc. rewrite Hc.
  rewrite IH by exact Hl. by rewrite <- app_assoc.
Qed.

Lemma splitlines_from_LF cur s :
  PyStr.splitlines_from cur (String PyStr.LF s) =
  string_of_list_ascii (rev cur) :: PyStr.splitlines_from [] s.
Proof. simpl. destruct s; reflexivity. Qed.

Lemma append_empty_r (s : string) : s ++ EmptyString = s.
Proof. induction s as [|c s IH]; [done|]. by rewrite append_cons, IH. Qed.

Lemma splitlines_one l :
  no_linebreak l = true ->
  PyStr.splitlines l = if PyStr.nonempty l then [l] else [].
Proof.
  intros Hl. unfold PyStr.splitlines.
  rewrite <- (append_empty_r l) at 1.
  rewrite splitlines_from_line by exact Hl. simpl. rewrite app_nil_r.
  destruct l as [|c l]; [reflexivity|].
  cbn [PyStr.nonempty]. 
  destruct (rev (list_ascii_of_string (String c l))) eqn:E.
  - apply (f_equal (@length _)) in E. rewrite length_rev in E. simpl in E. lia.
  - rewrite <- E, rev_involutive, string_of_list_ascii_of_string. reflexivity.
Qed.

(** On a text written as lines joined by line feeds, the builder reads
    those lines: trimmed, the blank ones dropped, in their order. *)
Lemma lines_of_join ls :
  Forall (fun l => no_linebreak l = true) ls ->
  lines_of (join_lines ls) =
  map PyStr.strip (List.filter (fun l => PyStr.nonempty (PyStr.strip l)) ls).
Proof.
  unfold lines_of. intros Hls. f_equal.
  induction Hls as [|l ls Hl Hls IH]; [reflexivity|].
  destruct ls as [|l' ls'].
  - cbn [join_lines]. rewrite splitlines_one by exact Hl.
    destruct l; reflexivity.
  - change (join_lines (l :: l' :: ls')) with (l ++ String PyStr.LF (join_lines (l' :: ls'))).
    unfold PyStr.splitlines. rewrite splitlines_from_line by exact Hl.
    rewrite splitlines_from_LF, app_nil_r, rev_involutive, string_of_list_ascii_of_string.
    cbn [List.filter]. fold (PyStr.splitlines (join_lines (l' :: ls'))). by rewrite IH.
Qed.

Lemma linebreak_isspace c : PyStr.is_linebreak c = true -> PyStr.isspace c = true.
Proof.
  destruct c as [[] [] [] [] [] [] [] []]; vm_compute; intros H; (reflexivity || discriminate H).
Qed.

Lemma splitlines_from_first s : forall cur,
  cur <> [] ->
  exists tail rest,
    PyStr.splitlines_from cur s = string_of_list_ascii (rev cur ++ tail) :: rest.
Proof.
  induction s as [|c s IH]; intros cur Hcur; simpl.
  - destruct cur as [|c0 cur]; [done|]. exists [], []. by rewrite app_nil_r.
  - destruct (PyStr.is_linebreak c).
    + eexists [], _. rewrite app_nil_r. reflexivity.
    + destruct (IH (c :: cur)) as (tail & rest & E); [done|].
      exists (c :: tail), rest. rewrite E. simpl. by rewrite <- app_assoc.
Qed.

Lemma strip_keeps_first c s :
  PyStr.isspace c = false -> PyStr.nonempty (PyStr.strip (String c s)) = true.
Proof. intros Hc. unfold PyStr.strip. simpl. rewrite Hc. simpl. by rewrite Hc. Qed.

Lemma lines_of_first c s :
  PyStr.isspace c = false -> lines_of (String c s) <> [].
Proof.
  intros Hc. unfold lines_of, PyStr.splitlines. simpl.
  destruct (PyStr.is_linebreak c) eqn:Hl.
  { apply linebreak_isspace in Hl. congruence. }
  destruct (splitlines_from_first s [c]) as (tail & rest & E); [done|].
  rewrite E. cbn [rev app string_of_list_ascii List.filter].
  rewrite strip_keeps_first by exact Hc. discriminate.
Qed.

(** The queue of a list of five goals. *)
Example queue_scenario :
  map (fun t => (t_prio t, t_text t))
    (queue 0 (lines_of ("Write report" ++ nl ++ "Call Bob" ++ nl ++ "Email team"
                          ++ nl ++ "Backup files" ++ nl ++ "Clean desk")))
  = [("top", "Write report"); ("mid", "Call Bob"); ("mid", "Email team");
     ("mid", "Backup files"); ("extra", "Clean desk")].
Proof. reflexivity. Qed.

(** What the webhook passes to the builder has a first line: the text
    is stripped and holds a line feed. *)
Lemma submission_has_lines t :
  is_morning_input (PyStr.strip t) = true -> lines_of (PyStr.strip t) <> [].
Proof.
  intros Hm.
  assert (Hn : PyStr.nonempty (PyStr.strip t) = true).
  { destruct (PyStr.strip t); [discriminate Hm | reflexivity]. }
  apply strip_trimmed in Hn. unfold trimmed in Hn.
  apply andb_true_iff in Hn as [Hf _].
  destruct (PyStr.strip t) as [|c s]; [discriminate Hf|].
  apply lines_of_first. simpl in Hf. by apply negb_true_iff in Hf.
Qed.

(** C3. The queue builder splits the text on line breaks, trims each
    line and drops the empty ones; of the lines left it makes the queue
    in their order: the first line one task of tier top, the next (up to
    three) tasks of tier mid, every further line a task of tier extra.
    A text the webhook takes for a goal list has a first line, so
    exactly one top task. *)
Theorem add_tasks_from_morning_tiers (w : World) (chat_id : Z) (raw : string) (u : User) :
  users w !! chat_id = Some u ->
  exists w' tops mids extras,
    add_tasks_from_morning chat_id raw w = (Ok tt, w')
    /\ users w' !! chat_id = Some (mkUser (tops ++ mids ++ extras) 0 (reminder u))
    /\ map t_text tops = take 1 (lines_of raw)
    /\ Forall (fun t => t_prio t = "top" /\ t_done t = false) tops
    /\ map t_text mids = take 3 (drop 1 (lines_of raw))
    /\ Forall (fun t => t_prio t = "mid" /\ t_done t = false) mids
    /\ map t_text extras = drop 4 (lines_of raw)
    /\ Forall (fun t => t_prio t = "extra" /\ t_done t = false) extras
    /\ map t_text (tops ++ mids ++ extras) = lines_of raw
    /\ (forall l, l ∈ lines_of raw -> trimmed l = true /\ no_linebreak l = true)
    /\ (forall ls, Forall (fun l => no_linebreak l = true) ls -> raw = join_lines ls ->
          lines_of raw =
          map PyStr.strip (List.filter (fun l => PyStr.nonempty (PyStr.strip l)) ls))
    /\ (forall t, raw = PyStr.strip t -> is_morning_input raw = true -> length tops = 1).
Proof.
  intros Hu. rewrite (add_tasks_from_morning_eq _ _ _ _ Hu). unfold queue.
  eexists _, _, _, _. split; [reflexivity|].
  split; [cbn [users]; apply lookup_insert_eq|].
  split; [apply fresh_tasks_text|].
  split; [apply fresh_tasks_Forall|].
  split; [apply fresh_tasks_text|].
  split; [apply fresh_tasks_Forall|].
  split; [apply fresh_tasks_text|].
  split; [apply fresh_tasks_Forall|].
  split.
  { rewrite !map_app, !fresh_tasks_text.
    change 4 with (1 + 3) at 1. rewrite <- drop_drop.
    by rewrite (take_drop 3), take_drop. }
  split; [apply lines_of_shape|].
  split; [intros ls Hls ->; by apply lines_of_join|].
  intros t -> Hm. rewrite fresh_tasks_length.
  pose proof (submission_has_lines t Hm) as Hne.
  destruct (lines_of (PyStr.strip t)); [done | reflexivity].
Qed.

Lemma add_tasks_from_morning_tiers_witness :
  users fresh_session !! 7%Z = Some (mkUser [] 0 None) /\
  exists w' tops mids extras,
    add_tasks_from_morning 7 two_goals fresh_session = (Ok tt, w')
    /\ users w' !! 7%Z = Some (mkUser (tops ++ mids ++ extras) 0 None)
    /\ map t_text tops = ["Write report"]
    /\ map t_text mids = ["Call Bob"]
    /\ extras = [].
Proof.
  split; [reflexivity|].
  destruct (add_tasks_from_morning_tiers fresh_session 7 two_goals (mkUser [] 0 None) eq_refl)
    as (w' & tops & mids & extras & E & Hu & Ht & _ & Hm & _ & He & _).
  exists w', tops, mids, extras.
  split; [exact E|]. split; [exact Hu|]. split; [exact Ht|]. split; [exact Hm|].
  destruct extras; [reflexivity | discriminate He].
Defined.

(** * The handlers, step by step *)

Lemma await_ok e w r :
  oracle w (calls w) = Succeeds r -> await e w = (Ok r, emit e (tick w)).
Proof. intros H. unfold await. by rewrite H. Qed.

Lemma await_fails e w :
  oracle w (calls w) = Fails -> await e w = (Raise CollaboratorError, tick w).
Proof. intros H. unfold await. by rewrite H. Qed.

Lemma send_message_ok c t k w r :
  oracle w (calls w) = Succeeds r ->
  send_message c t k w = (Ok tt, emit (SendMessage c t k) (tick w)).
Proof. intros H. unfold send_message, mbind, M_bind. by rewrite (await_ok _ _ _ H). Qed.

Lemma send_message_fails c t k w :
  oracle w (calls w) = Fails ->
  send_message c t k w = (Raise CollaboratorError, tick w).
Proof. intros H. unfold send_message, mbind, M_bind. by rewrite (await_fails _ _ H). Qed.

Lemma answer_callback_query_ok q w r :
  oracle w (calls w) = Succeeds r ->
  answer_callback_query q w = (Ok tt, emit (AnswerCallback q) (tick w)).
Proof. intros H. unfold answer_callback_query, mbind, M_bind. by rewrite (await_ok _ _ _ H). Qed.

Lemma gpt_ok role content w r :
  oracle w (calls w) = Succeeds r ->
  gpt role content w = (Ok (PyStr.strip r), emit (Gpt role content) (tick w)).
Proof. intros H. unfold gpt, mbind, M_bind. by rewrite (await_ok _ _ _ H). Qed.

Lemma gpt_fails role content w :
  oracle w (calls w) = Fails ->
  gpt role content w = (Raise CollaboratorError, tick w).
Proof. intros H. unfold gpt, mbind, M_bind. by rewrite (await_fails _ _ H). Qed.

Lemma get_task_eq c tid w :
  get_task c tid w =
  match users w !! c with
  | None => (Raise KeyError, w)
  | Some u =>
      match find_task tid (tasks u) 0 with
      | Some it => (Ok it, w)
      | None => (Raise StopIteration, w)
      end
  end.
Proof.
  unfold get_task, user_of, gets, raise, mbind, M_bind, mret, M_ret.
  destruct (users w !! c) as [u|]; [|reflexivity].
  destruct (find_task tid (tasks u) 0); reflexivity.
Qed.

Lemma mark_done_eq c tid w :
  mark_done c tid w =
  match users w !! c with
  | None => (Raise KeyError, w)
  | Some u =>
      match find_task tid (tasks u) 0 with
      | Some (i, t) => (Ok tt, marked_done c u i t w)
      | None => (Raise StopIteration, w)
      end
  end.
Proof.
  unfold mark_done. unfold mbind at 1. unfold M_bind. rewrite get_task_eq.
  destruct (users w !! c) as [u|] eqn:Hu; [|reflexivity].
  destruct (find_task tid (tasks u) 0) as [[i t]|]; [|reflexivity].
  unfold cancelled, cancel, user_of, pass, gets, modify, raise, mbind, M_bind, mret, M_ret.
  unfold with_users at 1 2. cbn [users fst snd]. rewrite Hu, lookup_insert_eq.
  cbn [reminder]. unfold marked_done, cancel_stored, is_cancelled.
  destruct (reminder u) as [rem|]; [|reflexivity].
  cbn [with_users timers].
  destruct (timers w !! rem) as [tm|]; [|reflexivity].
  destruct (tm_status tm); reflexivity.
Qed.

Lemma arm_eq c tid w u :
  users w !! c = Some u ->
  (create_task c tid ≫= set_reminder c) w = (Ok tt, armed c u tid w).
Proof.
  intros Hu. unfold create_task, set_reminder, user_of, gets, modify, mbind, M_bind, mret, M_ret.
  cbn [emit with_timers with_users users timers uuids oracle calls log fst snd].
  rewrite Hu. reflexivity.
Qed.

Lemma find_task_Some tid ts : forall k i t,
  find_task tid ts k = Some (i, t) ->
  k <= i /\ ts !! (i - k) = Some t /\ t_id t = tid.
Proof.
  induction ts as [|t0 ts IH]; intros k i t; simpl; [done|].
  destruct (String.eqb (t_id t0) tid) eqn:E.
  - intros [= <- <-]. rewrite Nat.sub_diag. apply String.eqb_eq in E. auto.
  - intros H. apply IH in H as (Hk & Hl & Hid).
    split; [lia|]. split; [|exact Hid].
    replace (i - k) with (S (i - S k)) by lia. exact Hl.
Qed.

Lemma find_task_None tid ts : forall k,
  find_task tid ts k = None -> forall t, t ∈ ts -> t_id t <> tid.
Proof.
  induction ts as [|t0 ts IH]; intros k H t Hin; [by apply elem_of_nil in Hin|].
  simpl in H. destruct (String.eqb (t_id t0) tid) eqn:E; [discriminate|].
  apply elem_of_cons in Hin as [->|Hin].
  - by apply String.eqb_neq in E.
  - eapply IH; eauto.
Qed.


Lemma start_focus_eq c w u :
  users w !! c = Some u ->
  start_focus c w =
  let p := advance (length (tasks u)) (tasks u) (pointer u) in
  let w1 := with_users (insert c (mkUser (tasks u) p (reminder u))) w in
  match tasks u !! p with
  | None => send_message c "🥳 Day’s list complete! Great work." None w1
  | Some task =>
      (msg ← gpt "coach" ("Start focusing on: " ++ t_text task);
       send_message c msg (Some (build_keyboard (t_id task)));;
       create_task c (t_id task) ≫= set_reminder c) w1
  end.
Proof.
  intros Hu. unfold start_focus. unfold mbind at 1. unfold M_bind.
  rewrite (next_task_eq _ _ _ Hu). cbv zeta.
  destruct (tasks u !! _); reflexivity.
Qed.

Lemma on_callback_done q c tid :
  on_callback (mkCallbackQuery q (Some ("done:" ++ tid)) c) =
  (answer_callback_query q;;
   (mark_done c tid;;
    send_message c "🎉 Task marked done!" None;;
    start_focus c);;
   mret ok_true).
Proof. reflexivity. Qed.

Lemma on_callback_stuck q c tid :
  on_callback (mkCallbackQuery q (Some ("stuck:" ++ tid)) c) =
  (answer_callback_query q;;
   (get_task c tid ≫= fun it : nat * Task =>
    let t := snd it in
    tip ← gpt "stuck" ("I'm stuck on: " ++ t_text t);
    send_message c tip (Some (build_keyboard (t_id t))));;
   mret ok_true).
Proof. reflexivity. Qed.


(** Read a field through the updates of the world, without unfolding
    the updates anywhere else. *)
Ltac fields := cbn [users timers uuids oracle calls log emit tick with_users with_timers].





Lemma all_fine_answers (w : World) (k : nat) :
  oracle w = all_fine -> forall n, n < k -> oracle w (calls w + n) <> Fails.
Proof. intros -> n _. discriminate. Qed.


(** * How timers change *)

#[global] Instance timers_evolve_preorder : PreOrder timers_evolve.
Proof.
  split.
  - intros w h tm H. exists tm. unfold status_step. auto.
  - intros w1 w2 w3 H12 H23 h tm H.
    destruct (H12 h tm H) as (tm2 & H2 & Hc2 & Ht2 & Hs2).
    destruct (H23 h tm2 H2) as (tm3 & H3 & Hc3 & Ht3 & Hs3).
    exists tm3. split; [exact H3|]. split; [congruence|]. split; [congruence|].
    unfold status_step in *.
    destruct Hs2 as [E|[E|[E1 E2]]]; [rewrite E; exact Hs3 | auto |].
    destruct Hs3 as [E|[E|[E3 E4]]]; [rewrite <- E; auto | congruence | congruence].
Qed.

Lemma timers_evolve_same w w' : timers w' = timers w -> timers_evolve w w'.
Proof. intros E h tm H. exists tm. rewrite E. unfold status_step. auto. Qed.

Lemma timers_evolve_update w w' h tm0 tm1 :
  timers w !! h = Some tm0 -> timers w' = <[h := tm1]> (timers w) ->
  tm_chat tm1 = tm_chat tm0 -> tm_task tm1 = tm_task tm0 ->
  status_step (tm_status tm0) (tm_status tm1) ->
  timers_evolve w w'.
Proof.
  intros H0 E Hc Ht Hs h' tm H. rewrite E.
  destruct (decide (h = h')) as [<-|Hne].
  - exists tm1. rewrite list_lookup_insert_eq by (eapply lookup_lt_Some; eauto).
    assert (tm = tm0) as -> by congruence. auto.
  - exists tm. rewrite list_lookup_insert_ne by done. unfold status_step. auto.
Qed.

Create HintDb timers_db.

(** Taking a computation apart along its binds and branches. *)
Ltac always_step :=
  match goal with
  | |- PreOrder _ => typeclasses eauto
  | |- forall _, _ => intro
  | |- always _ (mret _) => apply always_ret
  | |- always _ pass => apply always_ret
  | |- always _ (raise _) => apply always_raise
  | |- always _ (gets _) => apply always_gets
  | |- always _ (coroutine _) => apply always_coroutine
  | |- always _ (_ ≫= _) => apply always_bind
  | |- always _ (let _ := _ in _) => cbv zeta
  | |- always _ (match ?x with _ => _ end) => destruct x
  end.

Ltac always_auto db := repeat always_step; eauto with db.

Lemma await_evolve e : always timers_evolve (await e).
Proof.
  intros w. unfold await. destruct (oracle w (calls w)); apply timers_evolve_same; reflexivity.
Qed.

Lemma with_users_evolve f : always timers_evolve (modify (with_users f)).
Proof. intros w. apply timers_evolve_same. reflexivity. Qed.

Lemma uuid4_evolve : always timers_evolve uuid4.
Proof. intros w. apply timers_evolve_same. reflexivity. Qed.

Lemma next_task_evolve c : always timers_evolve (next_task c).
Proof.
  intros w. unfold next_task. destruct (users w !! c); apply timers_evolve_same; reflexivity.
Qed.

Lemma cancel_evolve c h : always timers_evolve (cancel c h).
Proof.
  intros w. unfold cancel, modify. cbn [snd].
  destruct (timers w !! h) as [tm|] eqn:Hh.
  - apply timers_evolve_update with (h := h) (tm0 := tm) (tm1 := request_cancel tm).
    + exact Hh.
    + fields. unfold cancel_timer. by rewrite Hh.
    + unfold request_cancel. by destruct (tm_status tm).
    + unfold request_cancel. by destruct (tm_status tm).
    + unfold request_cancel, status_step.
      destruct (tm_status tm) eqn:E; simpl; rewrite ?E; auto.
  - apply timers_evolve_same. fields. unfold cancel_timer. by rewrite Hh.
Qed.

Lemma create_task_evolve c tid : always timers_evolve (create_task c tid).
Proof.
  intros w h tm H. exists tm. cbn. rewrite lookup_app_l by (eapply lookup_lt_Some; eauto).
  unfold status_step. auto.
Qed.

#[global] Hint Resolve await_evolve with_users_evolve uuid4_evolve next_task_evolve
  cancel_evolve create_task_evolve : timers_db.

Lemma append_tasks_evolve c prio ls : always timers_evolve (append_tasks c prio ls).
Proof.
  induction ls as [|l ls IH]; simpl; [apply always_ret; typeclasses eauto|].
  unfold new_Task. always_auto timers_db.
Qed.

#[global] Hint Resolve append_tasks_evolve : timers_db.

Lemma telegram_webhook_evolve req : always timers_evolve (telegram_webhook req).
Proof.
  unfold telegram_webhook, parse_update, on_callback, on_message, setdefault_user,
    add_tasks_from_morning, mark_done, get_task, start_focus, set_reminder, user_of,
    send_message, answer_callback_query, gpt, cancelled.
  always_auto timers_db.
Qed.

Lemma remind_loop_evolve c tid : always timers_evolve (remind_loop c tid).
Proof.
  unfold remind_loop, send_message, gpt. always_auto timers_db.
Qed.

Lemma set_status_evolve h st w tm :
  timers w !! h = Some tm -> status_step (tm_status tm) st ->
  timers_evolve w (set_status h st w).
Proof.
  intros Hh Hs.
  apply timers_evolve_update with (h := h) (tm0 := tm)
    (tm1 := mkTimer (tm_chat tm) (tm_task tm) st); auto.
  unfold set_status. fields. by rewrite Hh.
Qed.

#[global] Instance quiet_turn_preorder : PreOrder quiet_turn.
Proof.
  split.
  - intros w. by repeat split.
  - intros w1 w2 w3 (H1 & H2 & H3 & H4) (H5 & H6 & H7 & H8).
    repeat split; congruence.
Qed.

Lemma await_quiet e : always quiet_turn (await e).
Proof. intros w. unfold await. destruct (oracle w (calls w)); by repeat split. Qed.

Create HintDb quiet_db.
#[global] Hint Resolve await_quiet : quiet_db.

Lemma remind_loop_quiet c tid : always quiet_turn (remind_loop c tid).
Proof. unfold remind_loop, send_message, gpt. always_auto quiet_db. Qed.

Lemma fire_evolve h w : timers_evolve w (fire h w).
Proof.
  unfold fire. destruct (timers w !! h) as [tm|] eqn:Hh; [|reflexivity].
  destruct (tm_status tm) eqn:Hs; try reflexivity.
  pose proof (remind_loop_quiet (tm_chat tm) (tm_task tm) w) as (Ht & _).
  destruct (remind_loop (tm_chat tm) (tm_task tm) w) as [[[|]|e] w'];
    cbn [snd] in Ht.
  - by apply timers_evolve_same.
  - transitivity w'; [by apply timers_evolve_same|].
    eapply set_status_evolve; [rewrite Ht; exact Hh|].
    unfold status_step. auto.
  - transitivity w'; [by apply timers_evolve_same|].
    eapply set_status_evolve; [rewrite Ht; exact Hh|].
    unfold status_step. auto.
Qed.

Lemma deliver_evolve h w : timers_evolve w (deliver h w).
Proof.
  unfold deliver. destruct (timers w !! h) as [tm|] eqn:Hh; [|reflexivity].
  destruct (tm_status tm) eqn:Hs; try reflexivity.
  eapply set_status_evolve; [exact Hh|]. unfold status_step. auto.
Qed.

Lemma step_evolve ev w : timers_evolve w (step ev w).
Proof.
  destruct ev as [req|h|h]; simpl.
  - apply telegram_webhook_evolve.
  - apply fire_evolve.
  - apply deliver_evolve.
Qed.

Lemma run_evolve evs w : timers_evolve w (run evs w).
Proof.
  revert w. induction evs as [|ev evs IH]; intros w; simpl; [reflexivity|].
  etransitivity; [apply step_evolve | apply IH].
Qed.



(** * The reminder loop *)


Lemma remind_loop_eq c tid w t :
  lookup_task c tid w = Some t -> t_done t = false ->
  remind_loop c tid w =
    (nud ← gpt "remind" ("I haven't finished: " ++ t_text t);
     send_message c nud (Some (build_keyboard (t_id t)));;
     mret true) w.
Proof.
  unfold lookup_task, remind_loop, gets. unfold mbind at 1. unfold M_bind.
  destruct (users w !! c) as [u|]; [|discriminate].
  destruct (find_task tid (tasks u) 0) as [[i t']|]; [|discriminate].
  cbn. intros [= ->] ->. reflexivity.
Qed.



(** ** A failed nudge *)

(** In v0.3 nothing catches what the text generator or the messenger
    raises inside the loop: the exception ends the loop. *)
Lemma remind_loop_gpt_fails h w tm t :
  timers w !! h = Some tm -> tm_status tm = Sleeping ->
  lookup_task (tm_chat tm) (tm_task tm) w = Some t -> t_done t = false ->
  oracle w (calls w) = Fails ->
  fire h w = set_status h Failed (tick w).
Proof.
  intros Hh Hs Ht Hd Hf. unfold fire.
  rewrite Hh, Hs, (remind_loop_eq _ _ _ _ Ht Hd).
  unfold mbind, M_bind. rewrite (gpt_fails _ _ _ Hf). reflexivity.
Qed.

Lemma remind_loop_send_fails h w tm t r :
  timers w !! h = Some tm -> tm_status tm = Sleeping ->
  lookup_task (tm_chat tm) (tm_task tm) w = Some t -> t_done t = false ->
  oracle w (calls w) = Succeeds r -> oracle w (S (calls w)) = Fails ->
  fire h w =
    set_status h Failed
      (tick (emit (Gpt "remind" ("I haven't finished: " ++ t_text t)) (tick w))).
Proof.
  intros Hh Hs Ht Hd Hr Hf. unfold fire.
  rewrite Hh, Hs, (remind_loop_eq _ _ _ _ Ht Hd).
  unfold mbind, M_bind. rewrite (gpt_ok _ _ _ _ Hr).
  erewrite send_message_fails by (fields; exact Hf). reflexivity.
Qed.

(** C6, at the failing input: the task is open and the first request for
    reminder text fails. The loop of v0.3 ends with the exception; at the
    next intervals nothing is sent, although the generator would answer. *)
Lemma remind_loop_dies_with_failed_nudge :
  lookup_task 7 "0" open_reminder = Some (mkTask "0" "Write report" "top" false)
  /\ timers (run [Fire 0] open_reminder) = [mkTimer 7 "0" Failed]
  /\ run [Fire 0; Fire 0; Fire 0] open_reminder = run [Fire 0] open_reminder
  /\ log (run [Fire 0; Fire 0; Fire 0] open_reminder) = [Arm 7 0 "0"].
Proof. repeat split; reflexivity. Qed.

(** X1. In v0.2 one turn of the reminder loop for an open task goes
    round again whatever the text generator and the messenger do: a
    failed nudge is caught inside the turn. *)
Lemma V2_reminder_loop_survives (tasks : gmap string V2.task) task_id t w :
  tasks !! task_id = Some t -> V2.done t = false ->
  (V2.reminder_loop tasks task_id w).1 = Ok true.
Proof.
  intros Ht Hd. unfold V2.reminder_loop. rewrite Ht, Hd.
  unfold V2.try_except, V2.coach_reply_remind, await, mbind, M_bind, mret, M_ret.
  destruct (oracle w (calls w)); [|reflexivity].
  cbn [fst snd]. fields.
  destruct (oracle w (S (calls w))); reflexivity.
Qed.

(** * A button that names no task *)

(** [get_task] takes [next] of a generator without a default: when no
    task has the id, [StopIteration] is raised, and leaves the handler
    as [RuntimeError] after the callback was answered. Nothing else is
    sent, and the session and the timers are as they were. *)
Lemma unknown_task_raises (w : World) (c : Z) (q tid : string) (u : User) (r : string) :
  users w !! c = Some u ->
  find_task tid (tasks u) 0 = None ->
  oracle w (calls w) = Succeeds r ->
  telegram_webhook (press q c ("stuck:" ++ tid)) w
    = (Raise RuntimeError, emit (AnswerCallback q) (tick w))
  /\ telegram_webhook (press q c ("done:" ++ tid)) w
    = (Raise RuntimeError, emit (AnswerCallback q) (tick w)).
Proof.
  intros Hu Hf Hr. unfold press. rewrite !telegram_webhook_callback.
  rewrite on_callback_stuck, on_callback_done.
  unfold coroutine, mbind, M_bind.
  rewrite (answer_callback_query_ok _ _ _ Hr).
  rewrite get_task_eq, mark_done_eq. fields. rewrite Hu, Hf. split; reflexivity.
Qed.

(** C7, at the failing input: the session of chat 7 holds the tasks "0"
    and "1"; a Stuck or Done button arrives for the id "zz". *)
Lemma unknown_task_button_crashes :
  find_task "zz" two_tasks 0 = None
  /\ telegram_webhook (press "q" 7 "stuck:zz") active_session
     = (Raise RuntimeError, emit (AnswerCallback "q") (tick active_session))
  /\ telegram_webhook (press "q" 7 "done:zz") active_session
     = (Raise RuntimeError, emit (AnswerCallback "q") (tick active_session)).
Proof.
  split; [reflexivity|].
  exact (unknown_task_raises active_session 7 "q" "zz" (mkUser two_tasks 0 (Some 0)) "go"
           eq_refl eq_refl eq_refl).
Qed.

(** * What the webhook answers *)







Lemma total_bind {A B} P (Q : A -> World -> Prop) (R : B -> World -> Prop)
    (m : M A) (k : A -> M B) :
  total P Q m -> (forall a, total (Q a) R (k a)) -> total P R (m ≫= k).
Proof.
  intros Hm Hk w HP. destruct (Hm w HP) as (a & w' & E & HQ).
  destruct (Hk a w' HQ) as (b & w'' & E' & HR).
  exists b, w''. unfold mbind, M_bind. rewrite E. auto.
Qed.

Lemma total_ret {A} (P : World -> Prop) (a : A) :
  total P (fun a' w => a' = a /\ P w) (mret a).
Proof. intros w HP. exists a, w. auto. Qed.

Lemma total_post {A} P (Q Q' : A -> World -> Prop) (m : M A) :
  total P Q m -> (forall a w, Q a w -> Q' a w) -> total P Q' m.
Proof.
  intros Hm HQ w HP. destruct (Hm w HP) as (a & w' & E & H). eauto.
Qed.

Lemma await_ready c e : total (ready c) (fun _ => ready c) (await e).
Proof.
  intros w [Ho Hu]. unfold await. pose proof (Ho (calls w)) as Hc.
  destruct (oracle w (calls w)) as [r|] eqn:E; [|done].
  exists r, (emit e (tick w)). split; [reflexivity|]. split; [|exact Hu].
  intros n. apply Ho.
Qed.

Lemma send_message_ready c c' t k :
  total (ready c) (fun _ => ready c) (send_message c' t k).
Proof.
  eapply total_bind; [apply await_ready|]. intros ?.
  eapply total_post; [apply total_ret|]. by intros ? ? [_ H].
Qed.

Lemma gpt_ready c role content :
  total (ready c) (fun _ => ready c) (gpt role content).
Proof.
  eapply total_bind; [apply await_ready|]. intros r.
  eapply total_post; [apply total_ret|]. by intros ? ? [_ H].
Qed.

Lemma arm_ready c tid :
  total (ready c) (fun _ => ready c) (create_task c tid ≫= set_reminder c).
Proof.
  intros w [Ho [u Hu]]. rewrite (arm_eq _ _ _ _ Hu).
  eexists _, _. split; [reflexivity|]. split; [exact Ho|].
  unfold armed. fields. rewrite lookup_insert_eq. eauto.
Qed.

Lemma start_focus_ready c : total (ready c) (fun _ => ready c) (start_focus c).
Proof.
  intros w [Ho [u Hu]]. rewrite (start_focus_eq _ _ _ Hu). cbv zeta.
  set (w1 := with_users _ w).
  assert (H1 : ready c w1).
  { split; [exact Ho|]. unfold w1. fields. rewrite lookup_insert_eq. eauto. }
  clearbody w1.
  destruct (tasks u !! _) as [task|].
  - revert w1 H1.
    eapply total_bind; [apply gpt_ready|]. intros msg.
    eapply total_bind; [apply send_message_ready|]. intros ?.
    apply arm_ready.
  - apply send_message_ready. exact H1.
Qed.

Lemma add_tasks_from_morning_ready c raw :
  total (ready c) (fun _ => ready c) (add_tasks_from_morning c raw).
Proof.
  intros w [Ho [u Hu]]. rewrite (add_tasks_from_morning_eq _ _ _ _ Hu).
  eexists _, _. split; [reflexivity|]. split; [exact Ho|].
  cbv zeta. fields. rewrite lookup_insert_eq. eauto.
Qed.

Lemma setdefault_user_ready c :
  total healthy (fun _ => ready c) (setdefault_user c).
Proof.
  intros w Ho. eexists _, _. split; [reflexivity|]. split; [exact Ho|].
  fields. destruct (users w !! c) as [u|] eqn:Hu;
    [rewrite Hu | rewrite lookup_insert_eq]; eauto.
Qed.

Lemma ack_ready c : total (ready c) (fun r _ => r = ok_true) (mret ok_true).
Proof. eapply total_post; [apply total_ret|]. by intros ? ? [H _]. Qed.

(** A text message is always acknowledged when the collaborators answer. *)
Lemma on_message_total c text :
  total healthy (fun r _ => r = ok_true) (on_message c text).
Proof.
  unfold on_message.
  eapply total_bind; [apply setdefault_user_ready|]. intros ?.
  destruct (String.eqb (PyStr.lower text) "/start").
  { eapply total_bind; [apply send_message_ready|]. intros ?. apply ack_ready. }
  destruct (is_morning_input text).
  - eapply total_bind; [apply add_tasks_from_morning_ready|]. intros ?.
    eapply total_bind; [apply gpt_ready|]. intros ack.
    eapply total_bind; [apply send_message_ready|]. intros ?.
    eapply total_bind; [apply start_focus_ready|]. intros ?. apply ack_ready.
  - eapply total_bind; [apply send_message_ready|]. intros ?. apply ack_ready.
Qed.

(** ** Failed calls *)





















Lemma bind_run {A B} (m : M A) (k : A -> M B) w :
  (m ≫= k) w = match m w with
               | (Ok a, w') => k a w'
               | (Raise e, w') => (Raise e, w')
               end.
Proof. reflexivity. Qed.





(** * Cancelling twice *)

Lemma cancel_timer_not_sleeping h (ts : list Timer) tm :
  ts !! h = Some tm -> tm_status tm <> Sleeping -> cancel_timer h ts = ts.
Proof.
  intros Hh Hs. unfold cancel_timer. rewrite Hh.
  assert (request_cancel tm = tm) as ->
    by (unfold request_cancel; by destruct (tm_status tm)).
  by apply list_insert_id.
Qed.

Lemma cancel_timer_idemp h (ts : list Timer) :
  cancel_timer h (cancel_timer h ts) = cancel_timer h ts.
Proof.
  destruct (ts !! h) as [tm|] eqn:Hh.
  - assert (E : cancel_timer h ts = <[h := request_cancel tm]> ts)
      by (unfold cancel_timer; by rewrite Hh).
    rewrite E. eapply cancel_timer_not_sleeping.
    + apply list_lookup_insert_eq. eapply lookup_lt_Some; eauto.
    + unfold request_cancel. by destruct (tm_status tm) eqn:Es; simpl; rewrite ?Es.
  - assert (E : cancel_timer h ts = ts) by (unfold cancel_timer; by rewrite Hh).
    by rewrite !E.
Qed.

(** C10. [cancel] on a handle that is cancelled already, or whose loop
    has returned or failed, changes no timer and raises nothing, and so
    do the two callers of it, [mark_done] and [add_tasks_from_morning];
    cancelling twice leaves the timers as cancelling once does. *)
Theorem cancel_is_idempotent (w : World) (c : Z) (h : handle) :
  (cancel c h w).1 = Ok tt
  /\ users (cancel c h w).2 = users w
  /\ timers (cancel c h (cancel c h w).2).2 = timers (cancel c h w).2
  /\ (forall tm,
        timers w !! h = Some tm -> tm_status tm <> Sleeping ->
        timers (cancel c h w).2 = timers w
        /\ (forall tid u i t,
              users w !! c = Some u -> reminder u = Some h ->
              find_task tid (tasks u) 0 = Some (i, t) ->
              (mark_done c tid w).1 = Ok tt
              /\ timers (mark_done c tid w).2 = timers w)
        /\ (forall raw u,
              users w !! c = Some u -> reminder u = Some h ->
              (add_tasks_from_morning c raw w).1 = Ok tt
              /\ timers (add_tasks_from_morning c raw w).2 = timers w)).
Proof.
  split; [reflexivity|]. split; [reflexivity|].
  split; [unfold cancel, modify; fields; apply cancel_timer_idemp|].
  intros tm Hh Hs.
  assert (Hc : cancel_timer h (timers w) = timers w)
    by (eapply cancel_timer_not_sleeping; eauto).
  split; [unfold cancel, modify; fields; exact Hc|]. split.
  - intros tid u i t Hu Hr Hf. rewrite mark_done_eq, Hu, Hf.
    split; [reflexivity|]. cbn [snd]. unfold marked_done. rewrite Hr.
    destruct (is_cancelled h w); [reflexivity|].
    unfold cancel_stored. fields. exact Hc.
  - intros raw u Hu Hr. rewrite (add_tasks_from_morning_eq _ _ _ _ Hu), Hr.
    split; [reflexivity|]. cbv zeta. unfold cancel_stored. fields. exact Hc.
Qed.

Lemma cancel_is_idempotent_witness :
  timers finished_reminder !! 0 = Some (mkTimer 7 "0" Finished)
  /\ (mark_done 7 "0" finished_reminder).1 = Ok tt
  /\ timers (mark_done 7 "0" finished_reminder).2 = [mkTimer 7 "0" Finished].
Proof.
  split; [reflexivity|].
  destruct (cancel_is_idempotent finished_reminder 7 0) as (_ & _ & _ & H).
  destruct (H (mkTimer 7 "0" Finished) eq_refl ltac:(discriminate)) as (_ & Hm & _).
  exact (Hm "0" (mkUser two_tasks 0 (Some 0)) 0 (mkTask "0" "Write report" "top" false)
           eq_refl eq_refl eq_refl).
Defined.

(** * One reminder per session *)

(** ** Counting arms and cancels *)

Lemma arms_app c l1 l2 : arms c (l1 ++ l2) = arms c l1 + arms c l2.
Proof. unfold arms. by rewrite List.filter_app, length_app. Qed.

Lemma cancels_app c l1 l2 : cancels c (l1 ++ l2) = cancels c l1 + cancels c l2.
Proof. unfold cancels. by rewrite List.filter_app, length_app. Qed.

Lemma arms_silent c es :
  Forall (fun e => timer_effect e = false) es -> arms c es = 0.
Proof.
  induction 1 as [|e es He _ IH]; [reflexivity|].
  unfold arms in *. simpl. destruct e; try discriminate; exact IH.
Qed.

Lemma cancels_silent c es :
  Forall (fun e => timer_effect e = false) es -> cancels c es = 0.
Proof.
  induction 1 as [|e es He _ IH]; [reflexivity|].
  unfold cancels in *. simpl. destruct e; try discriminate; exact IH.
Qed.

Lemma hist_ok_nil c : hist_ok c [].
Proof.
  intros pre suf E. symmetry in E. apply app_eq_nil in E as [-> ->].
  split; [cbn; lia|]. intros h tid rest [=].
Qed.

Lemma hist_ok_snoc c l e :
  hist_ok c l ->
  arms c (l ++ [e]) <= cancels c (l ++ [e]) + 1 ->
  (forall h tid, e = Arm c h tid ->
     forall h' tid', Arm c h' tid' ∈ l -> Cancel c h' ∈ l) ->
  hist_ok c (l ++ [e]).
Proof.
  intros Hl Hcount Harm pre suf E.
  destruct suf as [|e' suf' _] using rev_ind.
  - rewrite app_nil_r in E. subst pre. split; [exact Hcount|]. intros h tid rest [=].
  - rewrite app_assoc in E. apply app_inj_tail in E as [-> ->].
    destruct (Hl pre suf' eq_refl) as [Hc Ha]. split; [exact Hc|].
    intros h tid rest Es. destruct suf' as [|x suf'].
    + simpl in Es. injection Es as -> _.
      rewrite app_nil_r in Harm. exact (Harm h tid eq_refl).
    + simpl in Es. injection Es as -> _. by eapply Ha.
Qed.

(** ** The invariant *)

#[global] Instance silent_preorder : PreOrder silent.
Proof.
  split.
  - intros w. split; [done|]. split; [done|]. split; [done|].
    exists []. by rewrite app_nil_r.
  - intros w1 w2 w3 (Ht1 & Hs1 & Hu1 & es1 & El1 & Hes1) (Ht2 & Hs2 & Hu2 & es2 & El2 & Hes2).
    split; [congruence|]. split; [intros c; by rewrite Hs2|]. split; [by auto|].
    exists (es1 ++ es2)%list. split; [by rewrite El2, El1, app_assoc|].
    by apply Forall_app.
Qed.

Lemma holds_le c w : holds c w <= 1.
Proof.
  unfold holds. destruct (stored c w); [|lia].
  destruct (timers w !! _) as [tm|]; [|lia]. destruct (uncancelled _); lia.
Qed.

Lemma holds_ext c w w' :
  timers w' = timers w -> stored c w' = stored c w -> holds c w' = holds c w.
Proof. intros Ht Hs. unfold holds. by rewrite Ht, Hs. Qed.

Lemma hist_ok_count c l : hist_ok c l -> arms c l <= cancels c l + 1.
Proof. intros H. apply (H l []). by rewrite app_nil_r. Qed.

Lemma hist_ok_silent c l es :
  hist_ok c l -> Forall (fun e => timer_effect e = false) es -> hist_ok c (l ++ es).
Proof.
  intros Hl. induction es as [|e es IH] using rev_ind; intros Hes.
  - by rewrite app_nil_r.
  - apply Forall_app in Hes as [Hes He]. rewrite app_assoc.
    apply hist_ok_snoc; [by apply IH | |].
    + rewrite <- app_assoc, arms_app, cancels_app.
      rewrite (arms_silent c (es ++ [e])), (cancels_silent c (es ++ [e]))
        by (by apply Forall_app).
      pose proof (hist_ok_count _ _ Hl). lia.
    + intros h tid ->. apply Forall_inv in He. discriminate.
Qed.

Lemma elem_of_silent (e : effect) l es :
  timer_effect e = true -> Forall (fun e => timer_effect e = false) es ->
  e ∈ (l ++ es)%list -> e ∈ l.
Proof.
  intros He Hes Hin. apply elem_of_app in Hin as [Hin|Hin]; [done|].
  rewrite Forall_forall in Hes. apply Hes in Hin. congruence.
Qed.

Lemma silent_Inv w w' : silent w w' -> Inv w -> Inv w'.
Proof.
  intros (Ht & Hs & _ & es & El & Hes) [Hc Ho Hsl Ha Hh]. split.
  - intros c. rewrite El, arms_app, cancels_app, (arms_silent c es Hes),
      (cancels_silent c es Hes), (holds_ext c w w' Ht (Hs c)).
    specialize (Hc c). lia.
  - intros c h. rewrite Hs, Ht. apply Ho.
  - intros h tm. rewrite Ht, Hs. apply Hsl.
  - intros c h tid Hin. rewrite El in Hin.
    apply elem_of_silent in Hin; [|done|done].
    rewrite El, Hs, (holds_ext c w w' Ht (Hs c)).
    destruct (Ha c h tid Hin) as [H|H]; [left; apply elem_of_app; by left | by right].
  - intros c. rewrite El. by apply hist_ok_silent.
Qed.

Lemma silent_Quiet c w w' : silent w w' -> Quiet c w -> Quiet c w'.
Proof.
  intros Hsil [Hi Hc Hs Ha]. pose proof (silent_Inv _ _ Hsil Hi) as Hi'.
  destruct Hsil as (Ht & Hst & _ & es & El & Hes). split; [exact Hi'| | |].
  - rewrite El, arms_app, cancels_app, (arms_silent c es Hes), (cancels_silent c es Hes). lia.
  - intros h tm. rewrite Ht. apply Hs.
  - intros h tid Hin. rewrite El in Hin |- *.
    apply elem_of_silent in Hin; [|done|done].
    apply elem_of_app. left. by eapply Ha.
Qed.

Lemma Inv_init env : Inv (init env).
Proof.
  split.
  - intros c. cbn. lia.
  - intros c h. unfold stored. cbn. by rewrite lookup_empty.
  - intros h tm. cbn. by rewrite lookup_nil.
  - intros c h tid Hin. cbn in Hin. by apply elem_of_nil in Hin.
  - intros c. apply hist_ok_nil.
Qed.

(** No handle is held back: the handler may arm. *)
Lemma Inv_Quiet c w : Inv w -> holds c w = 0 -> Quiet c w.
Proof.
  intros Hi H0. pose proof Hi as [Hc Ho Hsl Ha Hh]. split; [exact Hi| | |].
  - specialize (Hc c). lia.
  - intros h tm Hh' Hchat Hs. pose proof (Hsl h tm Hh' Hs) as Hst.
    rewrite Hchat in Hst. unfold holds in H0. rewrite Hst in H0. cbv beta iota in H0.
    rewrite Hh', Hs in H0. discriminate.
  - intros h tid Hin. destruct (Ha c h tid Hin) as [H|[_ H]]; [exact H | lia].
Qed.

(** A timer changes its status, without waking up and without passing
    between cancelled and not. *)
Lemma status_Inv w w' h tm st :
  Inv w -> timers w !! h = Some tm ->
  timers w' = <[h := mkTimer (tm_chat tm) (tm_task tm) st]> (timers w) ->
  uncancelled st = uncancelled (tm_status tm) ->
  (st = Sleeping -> tm_status tm = Sleeping) ->
  (forall c, stored c w' = stored c w) -> log w' = log w ->
  Inv w'.
Proof.
  intros [Hc Ho Hsl Ha Hh] Hh0 Ht Hu Hs Hst Hl.
  assert (Hlt : h < length (timers w)) by (eapply lookup_lt_Some; eauto).
  assert (Hhold : forall c, holds c w' = holds c w).
  { intros c. unfold holds. rewrite Hst. destruct (stored c w) as [h'|]; [|done].
    rewrite Ht.
    destruct (decide (h = h')) as [<-|Hne].
    - rewrite list_lookup_insert_eq by done. rewrite Hh0. cbn. by rewrite Hu.
    - by rewrite list_lookup_insert_ne. }
  split.
  - intros c. rewrite Hl, Hhold. apply Hc.
  - intros c h'. rewrite Hst, Ht. intros Hs'. destruct (Ho c h' Hs') as (tm' & Htm' & Hc').
    destruct (decide (h = h')) as [<-|Hne].
    + rewrite list_lookup_insert_eq by done. eexists. split; [done|]. cbn. congruence.
    + rewrite list_lookup_insert_ne by done. eauto.
  - intros h' tm'. rewrite Ht, Hst. destruct (decide (h = h')) as [<-|Hne].
    + rewrite list_lookup_insert_eq by done. intros [= <-]. cbn. intros Es.
      apply (Hsl h tm Hh0). auto.
    + rewrite list_lookup_insert_ne by done. apply Hsl.
  - intros c h' tid. rewrite Hl, Hst, Hhold. apply Ha.
  - intros c. rewrite Hl. apply Hh.
Qed.

Lemma request_cancel_chat tm : tm_chat (request_cancel tm) = tm_chat tm.
Proof. unfold request_cancel. by destruct (tm_status tm). Qed.

Lemma request_cancel_awake tm : tm_status (request_cancel tm) <> Sleeping.
Proof. unfold request_cancel. by destruct (tm_status tm) eqn:E; cbn; rewrite ?E. Qed.

Lemma request_cancel_uncancelled tm :
  uncancelled (tm_status (request_cancel tm)) = true ->
  uncancelled (tm_status tm) = true.
Proof. unfold request_cancel. by destruct (tm_status tm) eqn:E; cbn; rewrite ?E. Qed.

Lemma cancel_timer_ne h h' (ts : list Timer) :
  h <> h' -> cancel_timer h ts !! h' = ts !! h'.
Proof.
  intros Hne. unfold cancel_timer. destruct (ts !! h); [|done].
  by rewrite list_lookup_insert_ne.
Qed.

Lemma cancel_timer_eq h (ts : list Timer) tm :
  ts !! h = Some tm -> cancel_timer h ts !! h = Some (request_cancel tm).
Proof.
  intros Hh. unfold cancel_timer. rewrite Hh.
  apply list_lookup_insert_eq. eapply lookup_lt_Some; eauto.
Qed.

Lemma cancel_timer_sleeping h h' (ts : list Timer) tm :
  cancel_timer h ts !! h' = Some tm -> tm_status tm = Sleeping ->
  h <> h' /\ ts !! h' = Some tm.
Proof.
  intros Hl Hs. destruct (decide (h = h')) as [<-|Hne].
  - destruct (ts !! h) as [tm0|] eqn:Hh.
    + rewrite (cancel_timer_eq _ _ _ Hh) in Hl. injection Hl as <-.
      by apply request_cancel_awake in Hs.
    + unfold cancel_timer in Hl. rewrite Hh in Hl. congruence.
  - split; [done|]. by rewrite cancel_timer_ne in Hl.
Qed.

Lemma elem_of_snoc_ne (e e' : effect) l : e ∈ (l ++ [e'])%list -> e <> e' -> e ∈ l.
Proof.
  intros Hin Hne. apply elem_of_app in Hin as [Hin|Hin]; [done|].
  apply list_elem_of_singleton in Hin. congruence.
Qed.

Lemma arms_snoc c l e :
  arms c (l ++ [e]) = arms c l + (if is_arm c e then 1 else 0).
Proof. rewrite arms_app. unfold arms at 2. cbn. by destruct (is_arm c e). Qed.

Lemma cancels_snoc c l e :
  cancels c (l ++ [e]) = cancels c l + (if is_cancel c e then 1 else 0).
Proof. rewrite cancels_app. unfold cancels at 2. cbn. by destruct (is_cancel c e). Qed.

(** The stored handle of chat [c] is cancelled. *)
Lemma cancel_Quiet w w' c h :
  Inv w -> stored c w = Some h ->
  timers w' = cancel_timer h (timers w) ->
  (forall c', stored c' w' = stored c' w) ->
  log w' = (log w ++ [Cancel c h])%list ->
  Quiet c w'.
Proof.
  intros [Hc Ho Hsl Ha Hh] Hst Ht Hsame Hl.
  destruct (Ho c h Hst) as (tm & Hh0 & Hchat).
  assert (Harms : forall c', arms c' (log w') = arms c' (log w)).
  { intros c'. rewrite Hl, arms_snoc. cbn. lia. }
  assert (Hcan : cancels c (log w') = cancels c (log w) + 1).
  { rewrite Hl, cancels_snoc. cbn. by rewrite bool_decide_true. }
  assert (Hcan' : forall c', c' <> c -> cancels c' (log w') = cancels c' (log w)).
  { intros c' Hne. rewrite Hl, cancels_snoc. cbn.
    rewrite bool_decide_false by congruence. lia. }
  assert (Hhold : forall c', c' <> c -> holds c' w' = holds c' w).
  { intros c' Hne. unfold holds. rewrite Hsame.
    destruct (stored c' w) as [h'|] eqn:Hs'; [|done].
    destruct (Ho c' h' Hs') as (tm' & Hh' & Hc').
    rewrite Ht, cancel_timer_ne; [done|]. intros <-. congruence. }
  assert (Hsleep : forall h' tm', timers w' !! h' = Some tm' -> tm_status tm' = Sleeping ->
                     h <> h' /\ timers w !! h' = Some tm').
  { intros h' tm'. rewrite Ht. apply cancel_timer_sleeping. }
  assert (Hi' : Inv w').
  { split.
    - intros c'. rewrite Harms. destruct (decide (c' = c)) as [->|Hne].
      + rewrite Hcan. pose proof (Hc c). pose proof (holds_le c w). lia.
      + rewrite Hcan', Hhold by done. apply Hc.
    - intros c' h'. rewrite Hsame, Ht. intros Hs'.
      destruct (Ho c' h' Hs') as (tm' & Hh' & Hc').
      destruct (decide (h = h')) as [<-|Hne].
      + rewrite (cancel_timer_eq _ _ _ Hh'). eexists. split; [done|].
        by rewrite request_cancel_chat.
      + rewrite cancel_timer_ne by done. eauto.
    - intros h' tm' Hh' Hs'. destruct (Hsleep h' tm' Hh' Hs') as [_ Hold].
      rewrite Hsame. by apply Hsl.
    - intros c' h' tid Hin. rewrite Hl in Hin.
      apply elem_of_snoc_ne in Hin; [|discriminate].
      rewrite Hl, Hsame. destruct (Ha c' h' tid Hin) as [H|[Hs' H1]].
      + left. apply elem_of_app. by left.
      + destruct (decide (c' = c)) as [->|Hne].
        * left. assert (h' = h) as -> by congruence.
          apply elem_of_app. right. by apply list_elem_of_singleton.
        * right. by rewrite Hhold.
    - intros c'. rewrite Hl. apply hist_ok_snoc; [apply Hh | | discriminate].
      rewrite <- Hl, Harms. destruct (decide (c' = c)) as [->|Hne].
      + rewrite Hcan. pose proof (Hc c). pose proof (holds_le c w). lia.
      + rewrite Hcan' by done. pose proof (Hc c'). pose proof (holds_le c' w). lia. }
  split; [exact Hi'| | |].
  - rewrite Harms, Hcan. pose proof (Hc c). pose proof (holds_le c w). lia.
  - intros h' tm' Hh' Hc' Hs'. destruct (Hsleep h' tm' Hh' Hs') as [Hne Hold].
    pose proof (Hsl h' tm' Hold Hs') as Hst'. rewrite Hc' in Hst'. congruence.
  - intros h' tid Hin. rewrite Hl in Hin. apply elem_of_snoc_ne in Hin; [|discriminate].
    rewrite Hl. apply elem_of_app.
    destruct (Ha c h' tid Hin) as [H|[Hs' _]]; [by left|].
    right. assert (h' = h) as -> by congruence. by apply list_elem_of_singleton.
Qed.

(** A new timer is armed for chat [c] and its handle stored. *)
Lemma arm_Inv w w' c tid :
  Quiet c w ->
  stored c w' = Some (length (timers w)) ->
  (forall c', c' <> c -> stored c' w' = stored c' w) ->
  timers w' = (timers w ++ [mkTimer c tid Sleeping])%list ->
  log w' = (log w ++ [Arm c (length (timers w)) tid])%list ->
  Inv w'.
Proof.
  intros [[Hc Ho Hsl Ha Hh] Hqc Hqs Hqa] Hst Hsame Ht Hl.
  assert (Hnew : timers w' !! length (timers w) = Some (mkTimer c tid Sleeping)).
  { rewrite Ht. by apply list_lookup_middle. }
  assert (Hold : forall h tm, timers w !! h = Some tm -> timers w' !! h = Some tm).
  { intros h tm Hh'. rewrite Ht. apply lookup_app_l_Some. exact Hh'. }
  assert (Harms : arms c (log w') = arms c (log w) + 1).
  { rewrite Hl, arms_snoc. cbn. by rewrite bool_decide_true. }
  assert (Harms' : forall c', c' <> c -> arms c' (log w') = arms c' (log w)).
  { intros c' Hne. rewrite Hl, arms_snoc. cbn.
    rewrite bool_decide_false by congruence. lia. }
  assert (Hcan : forall c', cancels c' (log w') = cancels c' (log w)).
  { intros c'. rewrite Hl, cancels_snoc. cbn. lia. }
  assert (Hhc : holds c w' = 1).
  { unfold holds. by rewrite Hst, Hnew. }
  assert (Hhold : forall c', c' <> c -> holds c' w' = holds c' w).
  { intros c' Hne. unfold holds. rewrite Hsame by done.
    destruct (stored c' w) as [h'|] eqn:Hs'; [|done].
    destruct (Ho c' h' Hs') as (tm' & Hh' & Hc'). by rewrite (Hold _ _ Hh'), Hh'. }
  split.
  - intros c'. rewrite Hcan. destruct (decide (c' = c)) as [->|Hne].
    + rewrite Harms, Hhc. lia.
    + rewrite Harms', Hhold by done. apply Hc.
  - intros c' h. destruct (decide (c' = c)) as [->|Hne].
    + rewrite Hst. intros [= <-]. eauto.
    + rewrite Hsame by done. intros Hs'. destruct (Ho c' h Hs') as (tm & Hh' & Hc'). eauto.
  - intros h tm Hh' Hs'. rewrite Ht in Hh'.
    apply lookup_app_Some in Hh' as [Hh'|[Hge Hh']].
    + destruct (decide (tm_chat tm = c)) as [Hchat|Hne].
      * by destruct (Hqs h tm Hh' Hchat).
      * rewrite Hsame by done. by apply Hsl.
    + apply list_lookup_singleton_Some in Hh' as [Hi <-]. cbn.
      rewrite Hst. f_equal. lia.
  - intros c' h tid' Hin. rewrite Hl in Hin |- *.
    apply elem_of_app in Hin as [Hin|Hin].
    + destruct (decide (c' = c)) as [->|Hne].
      * left. apply elem_of_app. left. by eapply Hqa.
      * destruct (Ha c' h tid' Hin) as [H|[Hs' H1]].
        -- left. apply elem_of_app. by left.
        -- right. by rewrite Hsame, Hhold.
    + apply list_elem_of_singleton in Hin. injection Hin as -> -> ->. right. done.
  - intros c'. rewrite Hl. apply hist_ok_snoc; [apply Hh | |].
    + rewrite <- Hl, Hcan. destruct (decide (c' = c)) as [->|Hne].
      * rewrite Harms. lia.
      * rewrite Harms' by done. pose proof (Hc c'). pose proof (holds_le c' w). lia.
    + intros h tid' [= -> <- <-]. apply Hqa.
Qed.

(** ** The steps that are silent *)

Lemma silent_log w w' e :
  timers w' = timers w -> users w' = users w -> timer_effect e = false ->
  log w' = (log w ++ [e])%list -> silent w w'.
Proof.
  intros Ht Hu He Hl. split; [exact Ht|]. split; [intros c; unfold stored; by rewrite Hu|].
  split; [intros c; by rewrite Hu|]. exists [e]. split; [exact Hl|]. by constructor.
Qed.

Lemma silent_users w w' :
  timers w' = timers w -> log w' = log w ->
  (forall c, stored c w' = stored c w) ->
  (forall c, is_Some (users w !! c) -> is_Some (users w' !! c)) ->
  silent w w'.
Proof.
  intros Ht Hl Hs Hu. split; [exact Ht|]. split; [exact Hs|]. split; [exact Hu|].
  exists []. by rewrite app_nil_r.
Qed.

(** A session is rewritten, its reminder kept. *)
Lemma silent_insert w w' c u u' :
  timers w' = timers w -> log w' = log w ->
  users w !! c = Some u -> users w' = <[c := u']> (users w) ->
  reminder u' = reminder u -> silent w w'.
Proof.
  intros Ht Hl Hu Hus Hr. apply silent_users; [done | done | |].
  - intros c'. unfold stored. rewrite Hus. destruct (decide (c = c')) as [<-|Hne].
    + by rewrite lookup_insert_eq, Hu.
    + by rewrite lookup_insert_ne.
  - intros c'. rewrite Hus. destruct (decide (c = c')) as [<-|Hne].
    + rewrite lookup_insert_eq. eauto.
    + by rewrite lookup_insert_ne.
Qed.

Create HintDb silent_db.

Lemma await_silent e : timer_effect e = false -> always silent (await e).
Proof.
  intros He w. unfold await. destruct (oracle w (calls w)); cbn [snd].
  - by apply silent_log with (e := e).
  - by apply silent_users.
Qed.

Lemma send_message_silent c t k : always silent (send_message c t k).
Proof. unfold send_message. always_auto silent_db. by apply await_silent. Qed.

Lemma gpt_silent role content : always silent (gpt role content).
Proof. unfold gpt. always_auto silent_db. by apply await_silent. Qed.

Lemma answer_callback_query_silent q : always silent (answer_callback_query q).
Proof. unfold answer_callback_query. always_auto silent_db. by apply await_silent. Qed.

Lemma get_task_silent c tid : always silent (get_task c tid).
Proof. intros w. rewrite get_task_eq. destruct (users w !! c) as [u|]; [|reflexivity].
  destruct (find_task tid (tasks u) 0); reflexivity. Qed.

Lemma next_task_silent c : always silent (next_task c).
Proof.
  intros w. unfold next_task. destruct (users w !! c) as [u|] eqn:Hu; [|reflexivity].
  cbn [snd]. by eapply silent_insert with (c := c) (u := u).
Qed.

Lemma setdefault_user_silent c : always silent (setdefault_user c).
Proof.
  intros w. unfold setdefault_user, modify. cbn [snd].
  apply silent_users; [done | done | |].
  - intros c'. unfold stored. fields. destruct (users w !! c) as [u|] eqn:Hu; [done|].
    destruct (decide (c = c')) as [<-|Hne].
    + by rewrite lookup_insert_eq, Hu.
    + by rewrite lookup_insert_ne.
  - intros c'. fields. destruct (users w !! c) as [u|] eqn:Hu; [done|].
    destruct (decide (c = c')) as [<-|Hne].
    + rewrite lookup_insert_eq. eauto.
    + by rewrite lookup_insert_ne.
Qed.

#[global] Hint Resolve send_message_silent gpt_silent answer_callback_query_silent
  get_task_silent next_task_silent setdefault_user_silent : silent_db.

Lemma remind_loop_silent c tid : always silent (remind_loop c tid).
Proof. unfold remind_loop. always_auto silent_db. Qed.

(** ** Handlers keep the invariant *)

Lemma keeps_bind {A B} P Q R (m : M A) (k : A -> M B) :
  keeps P m Q -> (forall a, keeps Q (k a) R) -> keeps P (m ≫= k) R.
Proof.
  intros Hm Hk w HP. unfold mbind, M_bind. specialize (Hm w HP).
  destruct (m w) as [[a|e] w']; [by apply Hk | exact Hm].
Qed.

Lemma keeps_ret {A} (P : World -> Prop) (a : A) : keeps P (mret a) P.
Proof. intros w HP. exact HP. Qed.

Lemma keeps_raise {A} e Q : keeps Inv (@raise A e) Q.
Proof. intros w HP. exact HP. Qed.

Lemma keeps_coroutine {A} P Q (m : M A) : keeps P m Q -> keeps P (coroutine m) Q.
Proof.
  intros H w HP. unfold coroutine. specialize (H w HP).
  destruct (m w) as [[a|[]] w']; exact H.
Qed.

Lemma keeps_silent_Inv {A} (m : M A) : always silent m -> keeps Inv m Inv.
Proof.
  intros Hm w Hi. specialize (Hm w).
  destruct (m w) as [[a|e] w']; eapply silent_Inv; eauto.
Qed.

Lemma keeps_silent_Quiet {A} c (m : M A) : always silent m -> keeps (Quiet c) m (Quiet c).
Proof.
  intros Hm w Hq. specialize (Hm w).
  destruct (m w) as [[a|e] w']; cbn [snd] in Hm.
  - by eapply silent_Quiet.
  - eapply silent_Inv; [exact Hm | apply Hq].
Qed.

Lemma keeps_silent_QuietU {A} c (m : M A) : always silent m -> keeps (QuietU c) m (QuietU c).
Proof.
  intros Hm w [Hq Hu]. specialize (Hm w).
  destruct (m w) as [[a|e] w']; cbn [snd] in Hm.
  - split; [by eapply silent_Quiet|]. destruct Hm as (_ & _ & Hus & _). by apply Hus.
  - eapply silent_Inv; [exact Hm | apply Hq].
Qed.

Lemma stored_insert c c' u (w w' : World) :
  users w' = <[c := u]> (users w) ->
  stored c' w' = if decide (c = c') then reminder u else stored c' w.
Proof.
  intros E. unfold stored. rewrite E. destruct (decide (c = c')) as [<-|Hne].
  - by rewrite lookup_insert_eq.
  - by rewrite lookup_insert_ne.
Qed.

Lemma mark_done_keeps c tid : keeps Inv (mark_done c tid) (Quiet c).
Proof.
  intros w Hi. rewrite mark_done_eq.
  destruct (users w !! c) as [u|] eqn:Hu; [|exact Hi].
  destruct (find_task tid (tasks u) 0) as [[i t]|]; [|exact Hi].
  unfold marked_done.
  set (w1 := with_users _ w).
  assert (Hs1 : silent w w1).
  { eapply silent_insert with (c := c) (u := u); [done | done | exact Hu | reflexivity | done]. }
  pose proof (silent_Inv _ _ Hs1 Hi) as Hi1.
  assert (Hst1 : stored c w1 = reminder u).
  { destruct Hs1 as (_ & Hst & _). rewrite Hst. unfold stored. by rewrite Hu. }
  destruct (reminder u) as [rem|] eqn:Hr.
  - destruct (is_cancelled rem w) eqn:Hcan.
    + apply Inv_Quiet; [exact Hi1|]. unfold holds. rewrite Hst1.
      unfold is_cancelled in Hcan. change (timers w1) with (timers w).
      destruct (timers w !! rem) as [tm|]; [|done].
      by destruct (tm_status tm).
    + eapply cancel_Quiet with (w := w1) (h := rem); [exact Hi1 | exact Hst1 | | |]; reflexivity.
  - apply Inv_Quiet; [exact Hi1|]. unfold holds. by rewrite Hst1.
Qed.

Lemma add_tasks_from_morning_no_session c raw w :
  users w !! c = None -> add_tasks_from_morning c raw w = (Raise KeyError, w).
Proof.
  intros Hu. unfold add_tasks_from_morning, user_of, gets, raise, mbind, M_bind.
  by rewrite Hu.
Qed.

Lemma add_tasks_from_morning_keeps c raw :
  keeps Inv (add_tasks_from_morning c raw) (QuietU c).
Proof.
  intros w Hi. destruct (users w !! c) as [u|] eqn:Hu.
  2: { by rewrite add_tasks_from_morning_no_session. }
  rewrite (add_tasks_from_morning_eq _ _ _ _ Hu). cbv zeta.
  match goal with |- QuietU c ?W => set (w' := W) end.
  assert (Hst : forall c', stored c' w' = stored c' w).
  { intros c'. rewrite (stored_insert c c' (mkUser (queue (uuids w) (lines_of raw)) 0 (reminder u)) w w')
      by reflexivity.
    destruct (decide (c = c')) as [<-|Hne]; [|done]. unfold stored. by rewrite Hu. }
  split; [|unfold w'; fields; rewrite lookup_insert_eq; eauto].
  destruct (reminder u) as [rem|] eqn:Hr.
  - eapply cancel_Quiet with (w := w) (h := rem); [exact Hi | | | exact Hst |].
    + unfold stored. by rewrite Hu.
    + reflexivity.
    + reflexivity.
  - assert (Hs : silent w w').
    { apply silent_users; [reflexivity | reflexivity | exact Hst |].
      intros c'. unfold w'. fields. destruct (decide (c = c')) as [<-|Hne].
      - rewrite lookup_insert_eq. eauto.
      - by rewrite lookup_insert_ne. }
    apply Inv_Quiet; [by eapply silent_Inv|].
    unfold holds. rewrite Hst. unfold stored. by rewrite Hu, Hr.
Qed.

Lemma arm_keeps c tid :
  keeps (QuietU c) (create_task c tid ≫= set_reminder c) Inv.
Proof.
  intros w [Hq [u Hu]]. rewrite (arm_eq _ _ _ _ Hu).
  eapply arm_Inv with (w := w) (c := c) (tid := tid); [exact Hq | | | |].
  - unfold stored, armed. fields. by rewrite lookup_insert_eq.
  - intros c' Hne. unfold stored, armed. fields. by rewrite lookup_insert_ne.
  - reflexivity.
  - reflexivity.
Qed.

Lemma QuietU_Inv c w : QuietU c w -> Inv w.
Proof. intros [[Hi _ _ _] _]. exact Hi. Qed.

Lemma keeps_post {A} P (Q Q' : World -> Prop) (m : M A) :
  keeps P m Q -> (forall w, Q w -> Q' w) -> keeps P m Q'.
Proof.
  intros Hm HQ w HP. specialize (Hm w HP). destruct (m w) as [[a|e] w']; auto.
Qed.

Lemma start_focus_keeps c : keeps (Quiet c) (start_focus c) Inv.
Proof.
  intros w Hq. destruct (users w !! c) as [u|] eqn:Hu.
  - rewrite (start_focus_eq _ _ _ Hu). cbv zeta.
    set (w1 := with_users _ w).
    assert (Hs1 : silent w w1).
    { eapply silent_insert with (c := c) (u := u); [done | done | exact Hu | reflexivity | done]. }
    assert (Hq1 : QuietU c w1).
    { split; [by eapply silent_Quiet|]. unfold w1. fields. rewrite lookup_insert_eq. eauto. }
    clearbody w1. revert w1 Hq1 Hs1. intros w1 Hq1 _.
    destruct (tasks u !! _) as [task|].
    + revert w1 Hq1.
      eapply keeps_bind; [apply keeps_silent_QuietU, gpt_silent|]. intros msg.
      eapply keeps_bind; [apply keeps_silent_QuietU, send_message_silent|]. intros ?.
      apply arm_keeps.
    + pose proof (keeps_silent_QuietU c _ (send_message_silent c
                    "🥳 Day’s list complete! Great work." None) w1 Hq1) as H.
      destruct (send_message _ _ _ w1) as [[a|e] w']; [by eapply QuietU_Inv | exact H].
  - unfold start_focus. unfold mbind at 1. unfold M_bind, next_task. rewrite Hu.
    pose proof (keeps_silent_Quiet c _ (send_message_silent c
                  "🥳 Day’s list complete! Great work." None) w Hq) as H.
    destruct (send_message _ _ _ w) as [[a|e] w']; [apply H | exact H].
Qed.

Lemma on_callback_keeps cq : keeps Inv (on_callback cq) Inv.
Proof.
  unfold on_callback.
  destruct (PyStr.split_once ":" (default "" (cq_data cq))) as [[action tid]|];
    [|apply keeps_raise].
  eapply keeps_bind; [apply keeps_silent_Inv, answer_callback_query_silent|]. intros ?.
  eapply keeps_bind; [|intros ?; apply keeps_ret].
  destruct (String.eqb action "done").
  - eapply keeps_bind; [apply mark_done_keeps|]. intros ?.
    eapply keeps_bind; [apply keeps_silent_Quiet, send_message_silent|]. intros ?.
    apply start_focus_keeps.
  - destruct (String.eqb action "stuck"); [|apply keeps_ret].
    apply keeps_silent_Inv. always_auto silent_db.
Qed.

Lemma on_message_keeps c text : keeps Inv (on_message c text) Inv.
Proof.
  unfold on_message.
  eapply keeps_bind; [apply keeps_silent_Inv, setdefault_user_silent|]. intros ?.
  destruct (String.eqb (PyStr.lower text) "/start").
  { apply keeps_silent_Inv. always_auto silent_db. }
  destruct (is_morning_input text).
  - eapply keeps_bind; [apply add_tasks_from_morning_keeps|]. intros ?.
    eapply keeps_bind; [apply keeps_silent_QuietU, gpt_silent|]. intros ack.
    eapply keeps_bind; [apply keeps_silent_QuietU, send_message_silent|]. intros ?.
    eapply keeps_bind; [|intros ?; apply keeps_ret].
    intros w [Hq _]. by apply start_focus_keeps.
  - apply keeps_silent_Inv. always_auto silent_db.
Qed.

Lemma telegram_webhook_keeps req : keeps Inv (telegram_webhook req) Inv.
Proof.
  unfold telegram_webhook. apply keeps_coroutine.
  eapply keeps_bind with (Q := Inv).
  { destruct req; [apply keeps_raise | apply keeps_ret]. }
  intros update. destruct (callback_query update) as [cq|]; [apply on_callback_keeps|].
  destruct (message update) as [m|]; [|apply keeps_ret].
  destruct (msg_text m) as [text|]; [|apply keeps_ret].
  destruct (PyStr.nonempty text); [apply on_message_keeps | apply keeps_ret].
Qed.

Lemma fire_Inv h w : Inv w -> Inv (fire h w).
Proof.
  intros Hi. unfold fire. destruct (timers w !! h) as [tm|] eqn:Hh; [|exact Hi].
  destruct (tm_status tm) eqn:Hs; try exact Hi.
  pose proof (remind_loop_silent (tm_chat tm) (tm_task tm) w) as Hsil.
  destruct (remind_loop (tm_chat tm) (tm_task tm) w) as [[b|e] w']; cbn [snd] in Hsil.
  - pose proof (silent_Inv _ _ Hsil Hi) as Hi'. destruct b; [exact Hi'|].
    destruct Hsil as (Ht & _).
    eapply status_Inv with (w := w') (h := h) (tm := tm) (st := Finished);
      [exact Hi' | by rewrite Ht | | by rewrite Hs | discriminate | done | done].
    unfold set_status. fields. by rewrite Ht, Hh.
  - pose proof (silent_Inv _ _ Hsil Hi) as Hi'. destruct Hsil as (Ht & _).
    eapply status_Inv with (w := w') (h := h) (tm := tm) (st := Failed);
      [exact Hi' | by rewrite Ht | | by rewrite Hs | discriminate | done | done].
    unfold set_status. fields. by rewrite Ht, Hh.
Qed.

Lemma deliver_Inv h w : Inv w -> Inv (deliver h w).
Proof.
  intros Hi. unfold deliver. destruct (timers w !! h) as [tm|] eqn:Hh; [|exact Hi].
  destruct (tm_status tm) eqn:Hs; try exact Hi.
  eapply status_Inv with (w := w) (h := h) (tm := tm) (st := Cancelled);
    [exact Hi | exact Hh | | by rewrite Hs | discriminate | done | done].
  unfold set_status. fields. by rewrite Hh.
Qed.

Lemma step_Inv ev w : Inv w -> Inv (step ev w).
Proof.
  intros Hi. destruct ev as [req|h|h]; cbn [step].
  - pose proof (telegram_webhook_keeps req w Hi) as H.
    by destruct (telegram_webhook req w) as [[a|e] w'].
  - by apply fire_Inv.
  - by apply deliver_Inv.
Qed.

Lemma run_Inv evs w : Inv w -> Inv (run evs w).
Proof.
  revert w. induction evs as [|ev evs IH]; intros w Hi; [exact Hi|].
  apply IH, step_Inv, Hi.
Qed.

(** At most one element of a list has a property that fixes its place. *)
Lemma filter_one {A} (P : A -> bool) (l : list A) (k : nat) :
  (forall i x, l !! i = Some x -> P x = true -> i = k) ->
  length (List.filter P l) <= 1.
Proof.
  revert k. induction l as [|x l IH]; intros k Hk; cbn; [lia|].
  destruct (P x) eqn:Hx.
  - assert (E : List.filter P l = []).
    { destruct (List.filter P l) as [|y ys] eqn:Ef; [done|].
      assert (Hy : In y (List.filter P l)) by (rewrite Ef; by left).
      apply filter_In in Hy as [Hy HPy].
      apply list_elem_of_In, list_elem_of_lookup in Hy as [j Hj].
      pose proof (Hk 0 x eq_refl Hx). pose proof (Hk (S j) y Hj HPy). lia. }
    rewrite E. cbn. lia.
  - apply (IH (pred k)). intros i y Hi Hy. specialize (Hk (S i) y Hi Hy). lia.
Qed.

Lemma Inv_outstanding c w : Inv w -> outstanding c w <= 1.
Proof.
  intros [_ _ Hsl _ _]. unfold outstanding.
  destruct (stored c w) as [h|] eqn:Hst.
  - apply filter_one with (k := h). intros i tm Hi HP.
    apply andb_true_iff in HP as [Hc Hs]. apply bool_decide_eq_true in Hc.
    assert (Hsl' : tm_status tm = Sleeping) by (by destruct (tm_status tm)).
    pose proof (Hsl i tm Hi Hsl') as H. rewrite Hc in H. congruence.
  - apply filter_one with (k := 0). intros i tm Hi HP.
    apply andb_true_iff in HP as [Hc Hs]. apply bool_decide_eq_true in Hc.
    assert (Hsl' : tm_status tm = Sleeping) by (by destruct (tm_status tm)).
    pose proof (Hsl i tm Hi Hsl') as H. rewrite Hc in H. congruence.
Qed.

(** X19. Handlers running one at a time, each to its end before the
    next event: whatever the requests, firings and deliveries of
    cancellation, from the start of the process on, and whatever the
    collaborators answer, a session has at most one reminder timer that
    can fire; after every effect of the run the arms counted for the
    session exceed its cancels by at most one; and when a timer is armed
    for the session every timer armed for it before has been
    cancelled. *)
Theorem one_reminder_per_session (env : nat -> outcome) (evs : list event) (c : Z) :
  let w := run evs (init env) in
  outstanding c w <= 1
  /\ (forall pre suf, log w = (pre ++ suf)%list -> arms c pre <= cancels c pre + 1)
  /\ (forall pre h tid suf, log w = (pre ++ Arm c h tid :: suf)%list ->
        forall h' tid', Arm c h' tid' ∈ pre -> Cancel c h' ∈ pre).
Proof.
  intros w. assert (Hi : Inv w) by apply run_Inv, Inv_init.
  split; [by apply Inv_outstanding|]. pose proof (inv_hist w Hi c) as Hh. split.
  - intros pre suf E. by apply (Hh pre suf).
  - intros pre h tid suf E. by eapply (Hh pre (Arm c h tid :: suf)).
Qed.

Example busy_day_timers :
  let w := run busy_day (init all_fine) in
  arms 7 (log w) = 3 /\ cancels 7 (log w) = 2 /\ outstanding 7 w = 1
  /\ timers w = [mkTimer 7 "0" Cancelled; mkTimer 7 "1" CancelRequested;
                 mkTimer 7 "2" Sleeping].
Proof. vm_compute. repeat split; reflexivity. Qed.

(** The loop of v0.2 at the failing input of v0.3: the task is open and
    no collaborator call succeeds; the loop goes round again. *)
Lemma V2_reminder_loop_survives_witness :
  ({[ "t" := V2.mkTask 7 "Write report" false ]} : gmap string V2.task) !! "t"
    = Some (V2.mkTask 7 "Write report" false)
  /\ (V2.reminder_loop {[ "t" := V2.mkTask 7 "Write report" false ]} "t"
        (init all_fail)).1 = Ok true.
Proof.
  split; [reflexivity|].
  exact (V2_reminder_loop_survives {[ "t" := V2.mkTask 7 "Write report" false ]} "t"
           (V2.mkTask 7 "Write report" false) (init all_fail) eq_refl eq_refl).
Defined.

(** * More of the program *)

(** ** Timers and handles over a whole run *)

(** X2. Over any sequence of events a timer is never removed, never
    changes its chat or task, and its status only moves forward: what is
    cancelled, returned or failed stays so, and a timer asked to cancel
    can only become cancelled. A handle therefore always denotes the
    timer it was given for. *)
Theorem timer_only_moves_forward (evs : list event) (w : World) (h : handle) (tm : Timer) :
  timers w !! h = Some tm ->
  exists tm',
    timers (run evs w) !! h = Some tm'
    /\ tm_chat tm' = tm_chat tm /\ tm_task tm' = tm_task tm
    /\ (tm_status tm' = tm_status tm
        \/ tm_status tm = Sleeping
        \/ (tm_status tm = CancelRequested /\ tm_status tm' = Cancelled)).
Proof.
  intros Hh. destruct (run_evolve evs w h tm Hh) as (tm' & Hh' & Hc & Ht & Hs).
  exists tm'. split; [exact Hh'|]. split; [exact Hc|]. split; [exact Ht|].
  destruct Hs as [E|[E|E]]; auto.
Qed.

Lemma timer_only_moves_forward_witness :
  timers (run busy_day (init all_fine)) !! 0 = Some (mkTimer 7 "0" Cancelled)
  /\ exists tm',
       timers (run [Webhook (press "q" 7 "done:1"); Fire 0; Deliver 0]
                 (run busy_day (init all_fine))) !! 0 = Some tm'
       /\ tm_status tm' = Cancelled.
Proof.
  assert (H0 : timers (run busy_day (init all_fine)) !! 0 = Some (mkTimer 7 "0" Cancelled))
    by (vm_compute; reflexivity).
  split; [exact H0|].
  destruct (timer_only_moves_forward
              [Webhook (press "q" 7 "done:1"); Fire 0; Deliver 0]
              (run busy_day (init all_fine)) 0 (mkTimer 7 "0" Cancelled) H0)
    as (tm' & Hh & _ & _ & Hs).
  exists tm'. split; [exact Hh|].
  destruct Hs as [E|[E|[E _]]]; [exact E | discriminate E | discriminate E].
Defined.

(** X3. Handlers running one at a time, in every world the process
    can reach the handle a session stores is a timer that exists and
    was armed for that very chat, and a timer that can still fire is the
    one its chat stores. *)
Theorem stored_reminder_is_own_timer (env : nat -> outcome) (evs : list event) :
  let w := run evs (init env) in
  (forall c u h, users w !! c = Some u -> reminder u = Some h ->
     exists tm, timers w !! h = Some tm /\ tm_chat tm = c)
  /\ (forall h tm, timers w !! h = Some tm -> tm_status tm = Sleeping ->
        exists u, users w !! tm_chat tm = Some u /\ reminder u = Some h).
Proof.
  intros w. assert (Hi : Inv w) by apply run_Inv, Inv_init. split.
  - intros c u h Hu Hr. apply (inv_owner w Hi c h). unfold stored. by rewrite Hu.
  - intros h tm Hh Hs. pose proof (inv_sleep w Hi h tm Hh Hs) as Hst.
    unfold stored in Hst. destruct (users w !! tm_chat tm) as [u|]; [eauto | discriminate].
Qed.

Lemma stored_reminder_is_own_timer_witness :
  users (run busy_day (init all_fine)) !! 7%Z
    = Some (mkUser [mkTask "2" "Write report" "top" false;
                    mkTask "3" "Call Bob" "mid" false] 0 (Some 2))
  /\ exists tm, timers (run busy_day (init all_fine)) !! 2 = Some tm /\ tm_chat tm = 7%Z.
Proof.
  assert (Hu : users (run busy_day (init all_fine)) !! 7%Z
                = Some (mkUser [mkTask "2" "Write report" "top" false;
                                mkTask "3" "Call Bob" "mid" false] 0 (Some 2)))
    by (vm_compute; reflexivity).
  split; [exact Hu|].
  exact (proj1 (stored_reminder_is_own_timer all_fine busy_day) 7%Z _ 2 Hu eq_refl).
Defined.

(** ** Messages and buttons that schedule nothing *)

Lemma get_task_quiet c tid : always quiet_turn (get_task c tid).
Proof.
  intros w. rewrite get_task_eq. destruct (users w !! c) as [u|]; [|reflexivity].
  destruct (find_task tid (tasks u) 0); reflexivity.
Qed.

#[global] Hint Resolve get_task_quiet : quiet_db.

Lemma stuck_quiet q c tid :
  always quiet_turn (telegram_webhook (press q c ("stuck:" ++ tid))).
Proof.
  unfold press. rewrite telegram_webhook_callback, on_callback_stuck.
  unfold answer_callback_query, gpt, send_message. always_auto quiet_db.
Qed.

Lemma stuck_silent q c tid :
  always silent (telegram_webhook (press q c ("stuck:" ++ tid))).
Proof.
  unfold press. rewrite telegram_webhook_callback, on_callback_stuck.
  always_auto silent_db.
Qed.

(** X4. A Stuck press never touches the queue, the pointer or any timer,
    whether its task exists or not and whatever the collaborators do: no
    reminder is cancelled and none is armed. When the task exists and
    the collaborators answer, the callback is answered, a tip is asked
    for the task's text and sent with two buttons: Done, whose payload
    is done: and the task's id, and Stuck, whose payload is stuck: and
    the task's id. *)
Theorem stuck_changes_nothing (w : World) (q : string) (c : Z) (tid : string) :
  let r := telegram_webhook (press q c ("stuck:" ++ tid)) w in
  users r.2 = users w /\ timers r.2 = timers w /\ uuids r.2 = uuids w
  /\ (exists es, log r.2 = (log w ++ es)%list
                 /\ Forall (fun e => timer_effect e = false) es)
  /\ (forall u i t,
        users w !! c = Some u -> find_task tid (tasks u) 0 = Some (i, t) ->
        (forall n, n < 3 -> oracle w (calls w + n) <> Fails) ->
        r.1 = Ok ok_true
        /\ log r.2 =
           (log w ++ [AnswerCallback q;
                      Gpt "stuck" ("I'm stuck on: " ++ t_text t);
                      SendMessage c (PyStr.strip (reply (oracle w (calls w + 1))))
                        (Some [mkButton "✅ Done" ("done:" ++ t_id t);
                               mkButton "🆘 Stuck" ("stuck:" ++ t_id t)])])%list).
Proof.
  intros r. destruct (stuck_quiet q c tid w) as (Ht & Hu & Hn & _).
  destruct (stuck_silent q c tid w) as (_ & _ & _ & Hl).
  split; [exact Hu|]. split; [exact Ht|]. split; [exact Hn|]. split; [exact Hl|].
  intros u i t Hus Hf Ho.
  assert (Hok : forall k n, n < 3 -> k = calls w + n ->
                  oracle w k = Succeeds (reply (oracle w k))).
  { intros k n Hlt ->. specialize (Ho n Hlt). by destruct (oracle w (calls w + n)). }
  unfold r, press. rewrite telegram_webhook_callback, on_callback_stuck.
  unfold coroutine, mbind, M_bind.
  rewrite (answer_callback_query_ok q w _ (Hok (calls w) 0 ltac:(lia) ltac:(lia))).
  rewrite get_task_eq. fields. rewrite Hus, Hf. cbn [snd].
  erewrite gpt_ok by (fields; apply (Hok _ 1); lia).
  erewrite send_message_ok by (fields; apply (Hok _ 2); lia).
  cbn [mret M_ret fst snd]. split; [reflexivity|]. fields.
  replace (S (calls w)) with (calls w + 1) by lia.
  rewrite <- !app_assoc. reflexivity.
Qed.

Lemma stuck_changes_nothing_witness :
  users active_session !! 7%Z = Some (mkUser two_tasks 0 (Some 0))
  /\ (telegram_webhook (press "q" 7 "stuck:1") active_session).1 = Ok ok_true
  /\ timers (telegram_webhook (press "q" 7 "stuck:1") active_session).2
     = [mkTimer 7 "0" Sleeping]
  /\ log (telegram_webhook (press "q" 7 "stuck:1") active_session).2
     = [Arm 7 0 "0"; AnswerCallback "q"; Gpt "stuck" "I'm stuck on: Call Bob";
        SendMessage 7 "go" (Some [mkButton "✅ Done" "done:1";
                                  mkButton "🆘 Stuck" "stuck:1"])].
Proof.
  split; [reflexivity|].
  destruct (stuck_changes_nothing active_session "q" 7 "1") as (_ & Ht & _ & _ & H).
  destruct (H (mkUser two_tasks 0 (Some 0)) 1 (mkTask "1" "Call Bob" "mid" false)
              eq_refl eq_refl (all_fine_answers active_session 3 eq_refl)) as [Hr Hl].
  split; [exact Hr|]. split; [exact Ht|]. exact Hl.
Defined.

(** X5. A text that is not taken for a goal list (no line feed once
    stripped) schedules nothing, whatever it says: no task is made, no
    timer is touched and the sessions that exist stay as they are. The
    chat has a session afterwards, empty if it is new, even when the
    reply cannot be sent. The one reply is the welcome for /start (in any
    letter case, with blanks around it) and the hint otherwise. *)
Theorem plain_message_only_answers (w : World) (c : Z) (text : string) :
  PyStr.nonempty text = true ->
  is_morning_input (PyStr.strip text) = false ->
  let r := telegram_webhook (text_message c text) w in
  let msg :=
    if String.eqb (PyStr.lower (PyStr.strip text)) "/start"
    then "👋 Welcome! I’ll ping you at 7 AM each morning to plan your day."
    else "I didn't catch that. Wait for the morning prompt or press buttons 😉" in
  timers r.2 = timers w /\ uuids r.2 = uuids w
  /\ users r.2 = match users w !! c with
                 | Some _ => users w
                 | None => <[c := mkUser [] 0 None]> (users w)
                 end
  /\ match oracle w (calls w) with
     | Succeeds _ => r.1 = Ok ok_true /\ log r.2 = (log w ++ [SendMessage c msg None])%list
     | Fails => r.1 = Raise CollaboratorError /\ log r.2 = log w
     end.
Proof.
  intros Hne Hm r msg.
  set (w0 := with_users (fun us => match us !! c with
                                   | Some _ => us
                                   | None => <[c := mkUser [] 0 None]> us
                                   end) w).
  assert (E : r = coroutine (send_message c msg None;; mret ok_true) w0).
  { unfold r, telegram_webhook, text_message, parse_update.
    unfold coroutine. unfold mbind at 1. unfold M_bind.
    cbn [mret M_ret callback_query message msg_text msg_chat].
    rewrite Hne. unfold on_message. unfold mbind at 1. unfold M_bind, setdefault_user, modify.
    rewrite Hm. unfold msg.
    by destruct (String.eqb (PyStr.lower (PyStr.strip text)) "/start"). }
  rewrite E. clear E. unfold coroutine, mbind, M_bind.
  destruct (oracle w (calls w)) as [rep|] eqn:Ho.
  - erewrite send_message_ok by (unfold w0; fields; exact Ho).
    cbn [mret M_ret fst snd]. unfold w0. fields.
    repeat split; reflexivity.
  - erewrite send_message_fails by (unfold w0; fields; exact Ho).
    cbn [fst snd]. unfold w0. fields.
    repeat split; reflexivity.
Qed.

Lemma plain_message_only_answers_witness :
  let r := telegram_webhook (text_message 7 "  /START ") active_session in
  r.1 = Ok ok_true /\ users r.2 = users active_session
  /\ timers r.2 = timers active_session.
Proof.
  destruct (plain_message_only_answers active_session 7 "  /START " eq_refl eq_refl)
    as (Ht & _ & Hu & Hl).
  cbv zeta. split; [exact (proj1 Hl)|]. split; [exact Hu | exact Ht].
Defined.

(** ** The lines of a goal list *)

Lemma strip_cons c s :
  PyStr.strip (String c s) =
  if PyStr.isspace c then PyStr.strip s else PyStr.rstrip (String c s).
Proof. unfold PyStr.strip. cbn [PyStr.lstrip]. by destruct (PyStr.isspace c). Qed.

Lemma nonblank_of_list l :
  has_nonspace l = true -> nonblank (string_of_list_ascii l) = true.
Proof.
  unfold nonblank. induction l as [|c l IH]; [discriminate|].
  cbn [has_nonspace existsb string_of_list_ascii]. rewrite strip_cons.
  destruct (PyStr.isspace c) eqn:Hc; cbn [negb orb].
  - exact IH.
  - intros _. cbn [PyStr.rstrip]. by rewrite Hc.
Qed.

Lemma has_nonspace_rev l : has_nonspace (rev l) = has_nonspace l.
Proof.
  unfold has_nonspace. induction l as [|c l IH]; [done|].
  cbn [rev existsb]. rewrite existsb_app, IH. cbn. rewrite orb_false_r. apply orb_comm.
Qed.

Lemma last_char_cons c s :
  last_char (String c s) = match s with EmptyString => Some c | _ => last_char s end.
Proof.
  cbn [last_char]. destruct s as [|c' s']; [reflexivity|].
  cbn [last_char]. by destruct (last_char s').
Qed.

(** A text that ends on something other than white space has a line
    with something on it. *)
Lemma splitlines_from_nonblank n : forall s cur,
  String.length s <= n -> not_space (last_char s) = true ->
  1 <= length (List.filter nonblank (PyStr.splitlines_from cur s)).
Proof.
  induction n as [|n IH]; intros s cur Hn Hl.
  { destruct s; [discriminate Hl | cbn in Hn; lia]. }
  destruct s as [|c s']; [discriminate Hl|]. cbn in Hn.
  rewrite last_char_cons in Hl. cbn [PyStr.splitlines_from].
  destruct (PyStr.is_linebreak c) eqn:Hc.
  - apply linebreak_isspace in Hc.
    destruct s' as [|c' s'']; [cbn in Hl; by rewrite Hc in Hl|].
    assert (Hrest : 1 <= length (List.filter nonblank
              (if Ascii.eqb c PyStr.CR && Ascii.eqb c' PyStr.LF
               then PyStr.splitlines_from [] s''
               else PyStr.splitlines_from [] (String c' s'')))).
    { destruct (Ascii.eqb c PyStr.CR && Ascii.eqb c' PyStr.LF) eqn:Hcr.
      - apply andb_true_iff in Hcr as [_ Hlf]. apply Ascii.eqb_eq in Hlf. subst c'.
        rewrite last_char_cons in Hl.
        destruct s'' as [|c2 s3]; [discriminate Hl|].
        apply IH; [cbn in *; lia | exact Hl].
      - apply IH; [cbn in *; lia | exact Hl]. }
    cbn [List.filter]. destruct (nonblank _); cbn [length]; lia.
  - destruct s' as [|c' s''].
    + cbn [PyStr.splitlines_from List.filter].
      rewrite nonblank_of_list; [cbn; lia|].
      rewrite has_nonspace_rev. cbn [has_nonspace existsb]. cbn in Hl. by rewrite Hl.
    + apply IH; [cbn in *; lia | exact Hl].
Qed.

(** A line under way with something on it, a line feed ahead, and text
    after it that ends on something: two lines at least. *)
Lemma splitlines_from_two n : forall s cur,
  String.length s <= n -> has_nonspace cur = true ->
  PyStr.contains PyStr.LF s = true -> not_space (last_char s) = true ->
  2 <= length (List.filter nonblank (PyStr.splitlines_from cur s)).
Proof.
  induction n as [|n IH]; intros s cur Hn Hcur Hlf Hl.
  { destruct s; [discriminate Hl | cbn in Hn; lia]. }
  destruct s as [|c s']; [discriminate Hl|]. cbn in Hn.
  rewrite last_char_cons in Hl. cbn [PyStr.splitlines_from].
  destruct (PyStr.is_linebreak c) eqn:Hc.
  - apply linebreak_isspace in Hc.
    destruct s' as [|c' s'']; [cbn in Hl; by rewrite Hc in Hl|].
    assert (Hrest : 1 <= length (List.filter nonblank
              (if Ascii.eqb c PyStr.CR && Ascii.eqb c' PyStr.LF
               then PyStr.splitlines_from [] s''
               else PyStr.splitlines_from [] (String c' s'')))).
    { destruct (Ascii.eqb c PyStr.CR && Ascii.eqb c' PyStr.LF) eqn:Hcr.
      - apply andb_true_iff in Hcr as [_ Hlf']. apply Ascii.eqb_eq in Hlf'. subst c'.
        rewrite last_char_cons in Hl.
        destruct s'' as [|c2 s3]; [discriminate Hl|].
        apply (splitlines_from_nonblank (String.length (String c2 s3))); [lia | exact Hl].
      - apply (splitlines_from_nonblank (String.length (String c' s''))); [lia | exact Hl]. }
    cbn [List.filter].
    rewrite nonblank_of_list by (by rewrite has_nonspace_rev).
    cbn [length]. lia.
  - assert (Hne : Ascii.eqb PyStr.LF c = false).
    { apply Ascii.eqb_neq. intros <-. by vm_compute in Hc. }
    cbn [PyStr.contains] in Hlf. rewrite Hne in Hlf. cbn [orb] in Hlf.
    destruct s' as [|c' s'']; [discriminate Hlf|].
    apply IH; [cbn in *; lia | | exact Hlf | exact Hl].
    cbn [has_nonspace existsb]. fold (has_nonspace cur). rewrite Hcur. apply orb_true_r.
Qed.

Lemma goal_list_lines t :
  is_morning_input (PyStr.strip t) = true -> 2 <= length (lines_of (PyStr.strip t)).
Proof.
  intros Hm.
  assert (Hn : PyStr.nonempty (PyStr.strip t) = true).
  { destruct (PyStr.strip t); [discriminate Hm | reflexivity]. }
  apply strip_trimmed in Hn. unfold trimmed in Hn.
  apply andb_true_iff in Hn as [Hf Hl].
  unfold lines_of. rewrite length_map. fold nonblank.
  change (fun l => PyStr.nonempty (PyStr.strip l)) with nonblank.
  destruct (PyStr.strip t) as [|c s]; [discriminate Hf|].
  cbn in Hf. apply negb_true_iff in Hf.
  unfold PyStr.splitlines. cbn [PyStr.splitlines_from].
  destruct (PyStr.is_linebreak c) eqn:Hc.
  { apply linebreak_isspace in Hc. congruence. }
  assert (Hne : Ascii.eqb PyStr.LF c = false).
  { apply Ascii.eqb_neq. intros <-. by vm_compute in Hc. }
  unfold is_morning_input in Hm. cbn [PyStr.contains] in Hm.
  rewrite Hne in Hm. cbn [orb] in Hm.
  rewrite last_char_cons in Hl. destruct s as [|c' s']; [discriminate Hm|].
  apply (splitlines_from_two (String.length (String c' s'))); [lia | | exact Hm | exact Hl].
  cbn [has_nonspace existsb]. by rewrite Hf.
Qed.

(** ** A submission without a line *)

Lemma blank_has_no_nonspace l :
  nonblank (string_of_list_ascii l) = false -> has_nonspace l = false.
Proof.
  intros H. destruct (has_nonspace l) eqn:E; [|reflexivity].
  by rewrite (nonblank_of_list l E) in H.
Qed.

(** A text none of whose lines has something on it is white space
    throughout. *)
Lemma no_line_all_space n : forall s cur,
  String.length s <= n ->
  List.filter nonblank (PyStr.splitlines_from cur s) = [] ->
  has_nonspace cur = false /\ all_chars PyStr.isspace s = true.
Proof.
  induction n as [|n IH]; intros s cur Hn Hf.
  - destruct s; [|cbn in Hn; lia]. cbn [PyStr.splitlines_from] in Hf.
    split; [|reflexivity]. destruct cur as [|a cur]; [reflexivity|].
    cbn [List.filter] in Hf.
    destruct (nonblank (string_of_list_ascii (rev (a :: cur)))) eqn:E; [discriminate|].
    rewrite <- has_nonspace_rev. by apply blank_has_no_nonspace.
  - destruct s as [|c s'].
    { apply (IH EmptyString cur); [cbn; lia | exact Hf]. }
    cbn in Hn. cbn [PyStr.splitlines_from] in Hf. cbn [all_chars].
    destruct (PyStr.is_linebreak c) eqn:Hc.
    + cbn [List.filter] in Hf.
      destruct (nonblank (string_of_list_ascii (rev cur))) eqn:E; [discriminate|].
      apply blank_has_no_nonspace in E. rewrite has_nonspace_rev in E.
      split; [exact E|]. rewrite (linebreak_isspace c Hc). cbn [andb].
      destruct s' as [|c' s'']; [reflexivity|].
      destruct (Ascii.eqb c PyStr.CR && Ascii.eqb c' PyStr.LF) eqn:Hcr.
      * apply andb_true_iff in Hcr as [_ Hlf]. apply Ascii.eqb_eq in Hlf. subst c'.
        cbn [all_chars]. apply (IH s'' []) in Hf; [|cbn in Hn; lia].
        by rewrite (proj2 Hf).
      * apply (IH (String c' s'') []) in Hf; [|cbn in *; lia]. exact (proj2 Hf).
    + apply (IH s' (c :: cur)) in Hf; [|lia]. destruct Hf as [Hcur Hs'].
      cbn [has_nonspace existsb] in Hcur. apply orb_false_iff in Hcur as [Hc' Hcur].
      apply negb_false_iff in Hc'. split; [exact Hcur|]. by rewrite Hc', Hs'.
Qed.

Lemma lstrip_all_space s : all_chars PyStr.isspace s = true -> PyStr.lstrip s = EmptyString.
Proof.
  induction s as [|c s IH]; [reflexivity|]. cbn [all_chars PyStr.lstrip].
  intros H. apply andb_true_iff in H as [Hc Hs]. rewrite Hc. by apply IH.
Qed.

Lemma no_line_strips_to_nothing text :
  lines_of text = [] -> PyStr.strip text = EmptyString.
Proof.
  unfold lines_of. intros H. apply map_eq_nil in H.
  change (fun l => PyStr.nonempty (PyStr.strip l)) with nonblank in H.
  destruct (no_line_all_space (String.length text) text [] ltac:(lia) H) as [_ Hs].
  unfold PyStr.strip. by rewrite (lstrip_all_space _ Hs).
Qed.

(** C8, as stated, fails in what is reported. Chat 7 is at work on two
    tasks and sends three blanks, a text without a line: queue, pointer
    and timer stay as they are, as the claim says, but the reply is the
    general hint, which says nothing of scheduling; and an empty text
    gets no reply at all. *)
Lemma blank_submission_gets_the_hint :
  lines_of "   " = [] /\ lines_of EmptyString = []
  /\ (telegram_webhook (text_message 7 "   ") active_session).1 = Ok ok_true
  /\ users (telegram_webhook (text_message 7 "   ") active_session).2
     = users active_session
  /\ timers (telegram_webhook (text_message 7 "   ") active_session).2
     = timers active_session
  /\ log (telegram_webhook (text_message 7 "   ") active_session).2
     = [Arm 7 0 "0";
        SendMessage 7
          "I didn't catch that. Wait for the morning prompt or press buttons 😉" None]
  /\ String.index 0 "nothing to schedule"
       "I didn't catch that. Wait for the morning prompt or press buttons 😉" = None
  /\ telegram_webhook (text_message 7 EmptyString) active_session
     = (Ok ok_true, active_session).
Proof. repeat split; reflexivity. Qed.

(** C8, amended. A submission whose text yields no line (an empty or
    all-blank text) never reaches the queue builder: the webhook strips
    it to nothing and takes it for no goal list. No timer and no id is
    touched and the sessions that exist stay as they are: tasks, pointer
    and stored reminder of the chat are unchanged (a chat without a
    session gets an empty one, unless the text is empty). What is
    reported is not that nothing was scheduled: an all-blank text gets
    the general hint, an empty text gets no reply. *)
Theorem blank_submission_changes_nothing (w : World) (c : Z) (text : string) :
  lines_of text = [] ->
  let r := telegram_webhook (text_message c text) w in
  lines_of (PyStr.strip text) = []
  /\ is_morning_input (PyStr.strip text) = false
  /\ timers r.2 = timers w /\ uuids r.2 = uuids w
  /\ (forall c', is_Some (users w !! c') -> users r.2 !! c' = users w !! c')
  /\ (forall c', c' <> c -> users r.2 !! c' = users w !! c')
  /\ (users w !! c = None ->
      users r.2 !! c = if PyStr.nonempty text then Some (mkUser [] 0 None) else None)
  /\ (if PyStr.nonempty text
      then match oracle w (calls w) with
           | Succeeds _ =>
               r.1 = Ok ok_true
               /\ log r.2 =
                  (log w ++
                   [SendMessage c
                      "I didn't catch that. Wait for the morning prompt or press buttons 😉"
                      None])%list
           | Fails => r.1 = Raise CollaboratorError /\ log r.2 = log w
           end
      else r = (Ok ok_true, w)).
Proof.
  intros Hl r. pose proof (no_line_strips_to_nothing text Hl) as Hs.
  rewrite Hs. split; [reflexivity|]. split; [reflexivity|].
  destruct (PyStr.nonempty text) eqn:Hne.
  2: { assert (E : r = (Ok ok_true, w)).
       { unfold r, telegram_webhook, text_message, parse_update, coroutine.
         unfold mbind, M_bind. cbn [mret M_ret callback_query message msg_text msg_chat].
         by rewrite Hne. }
       rewrite E. cbn [fst snd]. repeat split; auto. }
  set (w0 := with_users (fun us => match us !! c with
                                   | Some _ => us
                                   | None => <[c := mkUser [] 0 None]> us
                                   end) w).
  assert (E : r = coroutine
                    (send_message c
                       "I didn't catch that. Wait for the morning prompt or press buttons 😉"
                       None;; mret ok_true) w0).
  { unfold r, telegram_webhook, text_message, parse_update.
    unfold coroutine. unfold mbind at 1. unfold M_bind.
    cbn [mret M_ret callback_query message msg_text msg_chat].
    rewrite Hne, Hs. reflexivity. }
  assert (Hu0 : forall c', is_Some (users w !! c') -> users w0 !! c' = users w !! c').
  { intros c' [u' Hu']. unfold w0. fields. destruct (users w !! c) eqn:Hc; [done|].
    rewrite lookup_insert_ne; [done|]. intros <-. congruence. }
  assert (Hu1 : forall c', c' <> c -> users w0 !! c' = users w !! c').
  { intros c' Hc'. unfold w0. fields. destruct (users w !! c) eqn:Hc; [done|].
    by rewrite lookup_insert_ne. }
  assert (Hu2 : users w !! c = None -> users w0 !! c = Some (mkUser [] 0 None)).
  { intros Hc. unfold w0. fields. rewrite Hc. apply lookup_insert_eq. }
  rewrite E. clear E. unfold coroutine, mbind, M_bind.
  destruct (oracle w (calls w)) as [rep|] eqn:Ho.
  - erewrite send_message_ok by (unfold w0; fields; exact Ho).
    cbn [mret M_ret fst snd]. fields. repeat split; auto.
  - erewrite send_message_fails by (unfold w0; fields; exact Ho).
    cbn [fst snd]. fields. repeat split; auto.
Qed.

Lemma blank_submission_changes_nothing_witness :
  lines_of "   " = []
  /\ users (telegram_webhook (text_message 7 "   ") active_session).2 !! 7%Z
     = Some (mkUser two_tasks 0 (Some 0))
  /\ timers (telegram_webhook (text_message 7 "   ") active_session).2
     = [mkTimer 7 "0" Sleeping].
Proof.
  split; [reflexivity|].
  destruct (blank_submission_changes_nothing active_session 7 "   " eq_refl)
    as (_ & _ & Ht & _ & Hu & _).
  split; [|exact Ht]. rewrite (Hu 7%Z); [reflexivity|]. by eexists.
Defined.

(** ** What stays of a queue while a task is put in focus *)

#[global] Instance queue_kept_preorder : PreOrder queue_kept.
Proof.
  split.
  - intros w c u H. exists u. auto.
  - intros w1 w2 w3 H12 H23 c u H.
    destruct (H12 c u H) as (u2 & H2 & Ht2 & Hp2).
    destruct (H23 c u2 H2) as (u3 & H3 & Ht3 & Hp3).
    exists u3. split; [exact H3|]. split; [congruence | lia].
Qed.

Lemma queue_kept_same_users w w' : users w' = users w -> queue_kept w w'.
Proof. intros E c u H. exists u. rewrite E. auto. Qed.

Lemma queue_kept_insert w w' c u u' :
  users w !! c = Some u -> users w' = <[c := u']> (users w) ->
  tasks u' = tasks u -> pointer u <= pointer u' ->
  queue_kept w w'.
Proof.
  intros Hu E Ht Hp c0 u0 H0. rewrite E.
  destruct (decide (c = c0)) as [->|Hne].
  - exists u'. rewrite lookup_insert_eq. split; [done|]. split; congruence.
  - exists u0. rewrite lookup_insert_ne by done. auto.
Qed.

Lemma await_queue_kept e : always queue_kept (await e).
Proof.
  intros w. unfold await. destruct (oracle w (calls w)); apply queue_kept_same_users; reflexivity.
Qed.

Lemma next_task_queue_kept c : always queue_kept (next_task c).
Proof.
  intros w. unfold next_task. destruct (users w !! c) as [u|] eqn:Hu; simpl.
  - eapply queue_kept_insert; [exact Hu | reflexivity | reflexivity |].
    simpl. apply advance_ge.
  - reflexivity.
Qed.

Lemma set_reminder_queue_kept c h : always queue_kept (set_reminder c h).
Proof.
  intros w. unfold set_reminder, user_of, gets, modify, raise, mbind, M_bind, mret, M_ret.
  destruct (users w !! c) as [u|] eqn:Hu; simpl.
  - eapply queue_kept_insert; [exact Hu | reflexivity | reflexivity | simpl; lia].
  - reflexivity.
Qed.

Lemma create_task_queue_kept c tid : always queue_kept (create_task c tid).
Proof. intros w. apply queue_kept_same_users. reflexivity. Qed.

Lemma cancel_queue_kept c h : always queue_kept (cancel c h).
Proof. intros w. apply queue_kept_same_users. reflexivity. Qed.

Create HintDb queue_db.
#[global] Hint Resolve await_queue_kept next_task_queue_kept set_reminder_queue_kept
  create_task_queue_kept cancel_queue_kept : queue_db.

Lemma start_focus_queue_kept c : always queue_kept (start_focus c).
Proof. unfold start_focus, send_message, gpt. always_auto queue_db. Qed.

#[global] Hint Resolve start_focus_queue_kept : queue_db.

Lemma coroutine_world {A} (m : M A) w : (coroutine m w).2 = (m w).2.
Proof. unfold coroutine. by destruct (m w) as [[a|[]] w']. Qed.

Lemma lower_keeps_line_feed t :
  PyStr.contains PyStr.LF t = true -> PyStr.contains PyStr.LF (PyStr.lower t) = true.
Proof.
  induction t as [|c t IH]; [done|]. cbn [PyStr.contains PyStr.lower].
  intros H. apply orb_true_iff in H as [H|H].
  - apply Ascii.eqb_eq in H. subst c. reflexivity.
  - rewrite (IH H). apply orb_true_r.
Qed.

Lemma goal_list_is_no_command t :
  is_morning_input t = true -> String.eqb (PyStr.lower t) "/start" = false.
Proof.
  intros H. apply lower_keeps_line_feed in H.
  destruct (String.eqb (PyStr.lower t) "/start") eqn:E; [|reflexivity].
  apply String.eqb_eq in E. rewrite E in H. discriminate H.
Qed.

(** X6. A text the webhook takes for a goal list (a line feed is left
    once it is stripped) has at least two lines with something on them.
    So whatever the session was before and whatever the collaborators
    do afterwards, the chat is left with a queue of these lines in their
    order: one top task first, a mid task second, none of them done. *)
Theorem goal_list_has_top_and_mid (w : World) (c : Z) (text : string) :
  is_morning_input (PyStr.strip text) = true ->
  let w' := (telegram_webhook (text_message c text) w).2 in
  let lines := lines_of (PyStr.strip text) in
  2 <= length lines
  /\ exists u top mid rest,
       users w' !! c = Some u
       /\ tasks u = queue (uuids w) lines
       /\ tasks u = top :: mid :: rest
       /\ t_prio top = "top" /\ t_prio mid = "mid"
       /\ Forall (fun t => t_prio t <> "top") rest
       /\ map t_text (tasks u) = lines
       /\ Forall (fun t => t_done t = false) (tasks u).
Proof.
  intros Hm w' lines.
  pose proof (goal_list_lines text Hm) as Hlen. fold lines in Hlen.
  split; [exact Hlen|].
  assert (Hne : PyStr.nonempty text = true).
  { destruct text; [discriminate Hm | reflexivity]. }
  set (w0 := with_users (fun us => match us !! c with
                                   | Some _ => us
                                   | None => <[c := mkUser [] 0 None]> us
                                   end) w).
  assert (H0 : exists u0, users w0 !! c = Some u0).
  { unfold w0. fields. destruct (users w !! c) as [u0|] eqn:Hu.
    - exists u0. exact Hu.
    - exists (mkUser [] 0 None). apply lookup_insert_eq. }
  destruct H0 as (u0 & Hu0).
  set (rest := (ack ← gpt "ack" "I've planned my goals for today";
                send_message c ack None;; start_focus c;; mret ok_true) : M response).
  assert (Hrest : always queue_kept rest).
  { unfold rest, send_message, gpt. always_auto queue_db. }
  assert (E : w' = (rest (add_tasks_from_morning c (PyStr.strip text) w0).2).2).
  { unfold w', telegram_webhook, text_message, parse_update.
    rewrite coroutine_world. unfold mbind at 1. unfold M_bind.
    cbn [mret M_ret callback_query message msg_text msg_chat].
    rewrite Hne. unfold on_message. unfold mbind at 1. unfold M_bind, setdefault_user, modify.
    rewrite (goal_list_is_no_command _ Hm), Hm. fold w0.
    unfold mbind at 1. unfold M_bind.
    rewrite (add_tasks_from_morning_eq c _ w0 u0 Hu0). reflexivity. }
  rewrite (add_tasks_from_morning_eq c _ w0 u0 Hu0) in E. cbn [snd] in E.
  match type of E with _ = (rest ?x).2 => set (w1 := x) in E end.
  assert (H1 : users w1 !! c = Some (mkUser (queue (uuids w) lines) 0 (reminder u0))).
  { unfold w1. cbn [users]. apply lookup_insert_eq. }
  destruct (Hrest w1 c _ H1) as (u & Hu & Ht & _). rewrite <- E in Hu.
  cbn [tasks] in Ht.
  destruct lines as [|l1 [|l2 ls]] eqn:El; [cbn in Hlen; lia | cbn in Hlen; lia |].
  exists u. eexists. eexists. eexists.
  split; [exact Hu|]. split; [exact Ht|].
  split; [rewrite Ht; unfold queue; cbn [take drop length fresh_tasks app]; reflexivity|].
  split; [reflexivity|]. split; [reflexivity|].
  split.
  { apply Forall_app. split.
    - destruct ls as [|l3 [|l4 ls']]; cbn [take drop fresh_tasks];
        repeat constructor; discriminate.
    - eapply Forall_impl; [apply fresh_tasks_Forall|].
      intros t [Hp _]. simpl in Hp. rewrite Hp. discriminate. }
  split.
  { rewrite Ht. unfold queue. rewrite !map_app, !fresh_tasks_text.
    change (take 1 (l1 :: l2 :: ls)) with [l1].
    change (drop 1 (l1 :: l2 :: ls)) with (l2 :: ls).
    change (drop 4 (l1 :: l2 :: ls)) with (drop 3 (l2 :: ls)).
    cbn [app]. f_equal. apply take_drop. }
  rewrite Ht. unfold queue. rewrite !Forall_app.
  repeat split; (eapply Forall_impl; [apply fresh_tasks_Forall|]); by intros t [_ Hd].
Qed.

Lemma goal_list_has_top_and_mid_witness :
  exists u, users (telegram_webhook (text_message 7 two_goals) fresh_session).2 !! 7%Z = Some u
            /\ map t_text (tasks u) = ["Write report"; "Call Bob"].
Proof.
  destruct (goal_list_has_top_and_mid fresh_session 7 two_goals eq_refl)
    as (_ & u & top & mid & rest & Hu & _ & _ & _ & _ & _ & Hx & _).
  exists u. split; [exact Hu | exact Hx].
Defined.

(** ** Sessions are changed by their own chat only *)

#[global] Instance others_kept_preorder c : PreOrder (others_kept c).
Proof.
  split.
  - intros w c' _. reflexivity.
  - intros w1 w2 w3 H12 H23 c' Hne. rewrite (H23 c' Hne). apply (H12 c' Hne).
Qed.

Lemma others_kept_same_users c w w' : users w' = users w -> others_kept c w w'.
Proof. intros E c' _. by rewrite E. Qed.

Lemma others_kept_insert c u w w' :
  users w' = <[c := u]> (users w) -> others_kept c w w'.
Proof. intros E c' Hne. rewrite E. by apply lookup_insert_ne. Qed.

Lemma await_others c e : always (others_kept c) (await e).
Proof.
  intros w. unfold await. destruct (oracle w (calls w)); apply others_kept_same_users; reflexivity.
Qed.

Lemma uuid4_others c : always (others_kept c) uuid4.
Proof. intros w. apply others_kept_same_users. reflexivity. Qed.

Lemma cancel_others c c0 h : always (others_kept c) (cancel c0 h).
Proof. intros w. apply others_kept_same_users. reflexivity. Qed.

Lemma create_task_others c c0 tid : always (others_kept c) (create_task c0 tid).
Proof. intros w. apply others_kept_same_users. reflexivity. Qed.

Lemma next_task_others c : always (others_kept c) (next_task c).
Proof.
  intros w. unfold next_task. destruct (users w !! c) as [u|]; simpl.
  - eapply others_kept_insert. reflexivity.
  - reflexivity.
Qed.

Lemma set_reminder_others c h : always (others_kept c) (set_reminder c h).
Proof.
  intros w. unfold set_reminder, user_of, gets, modify, raise, mbind, M_bind, mret, M_ret.
  destruct (users w !! c) as [u|]; simpl.
  - eapply others_kept_insert. reflexivity.
  - reflexivity.
Qed.

Lemma setdefault_user_others c : always (others_kept c) (setdefault_user c).
Proof.
  intros w. unfold setdefault_user, modify. cbn [snd]. fields.
  destruct (users w !! c) as [u|] eqn:Hu.
  - apply others_kept_same_users. fields. by rewrite Hu.
  - eapply others_kept_insert. fields. by rewrite Hu.
Qed.

Lemma update_user_others c (g : User -> User) :
  always (others_kept c)
    (modify (with_users (fun us =>
       match us !! c with Some u => <[c := g u]> us | None => us end))).
Proof.
  intros w. unfold modify. cbn [snd].
  destruct (users w !! c) as [u|] eqn:Hu.
  - eapply others_kept_insert. fields. by rewrite Hu.
  - apply others_kept_same_users. fields. by rewrite Hu.
Qed.

Lemma insert_user_others c u :
  always (others_kept c) (modify (with_users (insert c u))).
Proof. intros w. eapply others_kept_insert. reflexivity. Qed.

Create HintDb others_db.
#[global] Hint Resolve await_others uuid4_others cancel_others create_task_others
  next_task_others set_reminder_others setdefault_user_others insert_user_others
  : others_db.

Lemma append_tasks_others c prio ls : always (others_kept c) (append_tasks c prio ls).
Proof.
  induction ls as [|l ls IH]; simpl; [apply always_ret; typeclasses eauto|].
  unfold new_Task. repeat always_step; eauto with others_db.
  apply (update_user_others c (fun u => mkUser (tasks u ++ [_]) (pointer u) (reminder u))).
Qed.

Lemma mark_done_others c tid : always (others_kept c) (mark_done c tid).
Proof.
  unfold mark_done, get_task, user_of, cancelled.
  repeat always_step; eauto with others_db.
  apply (update_user_others c (fun u => mkUser (<[_ := _]> (tasks u)) (pointer u) (reminder u))).
Qed.

#[global] Hint Resolve append_tasks_others mark_done_others : others_db.

Lemma on_callback_others cq : always (others_kept (cq_from_user cq)) (on_callback cq).
Proof.
  unfold on_callback, get_task, start_focus, user_of,
    send_message, answer_callback_query, gpt.
  always_auto others_db.
Qed.

Lemma on_message_others c text : always (others_kept c) (on_message c text).
Proof.
  unfold on_message, add_tasks_from_morning, start_focus, user_of, send_message, gpt.
  always_auto others_db.
Qed.

Lemma telegram_webhook_others req c :
  chat_of req = Some c -> always (others_kept c) (telegram_webhook req).
Proof.
  intros Hc. unfold telegram_webhook. apply always_coroutine; [typeclasses eauto..|].
  destruct req as [|[[cq|] m]]; [discriminate Hc | |].
  - cbn in Hc. injection Hc as <-. intros w. apply (on_callback_others cq w).
  - destruct m as [[c0 txt]|]; [|discriminate Hc]. cbn in Hc. injection Hc as ->.
    intros w. unfold parse_update, mbind, M_bind, mret, M_ret.
    cbn [callback_query message msg_text msg_chat].
    destruct txt as [text|]; [|reflexivity].
    destruct (PyStr.nonempty text); [|reflexivity].
    apply (on_message_others c (PyStr.strip text) w).
Qed.

Lemma telegram_webhook_nobody req :
  chat_of req = None -> forall w, users (telegram_webhook req w).2 = users w.
Proof.
  intros Hc w. destruct req as [|[[cq|] [m|]]]; try discriminate Hc; reflexivity.
Qed.

Lemma fire_users h w : users (fire h w) = users w.
Proof.
  unfold fire. destruct (timers w !! h) as [tm|]; [|reflexivity].
  destruct (tm_status tm); try reflexivity.
  pose proof (remind_loop_quiet (tm_chat tm) (tm_task tm) w) as (_ & Hu & _).
  destruct (remind_loop (tm_chat tm) (tm_task tm) w) as [[[|]|e] w']; exact Hu.
Qed.

Lemma deliver_users h w : users (deliver h w) = users w.
Proof.
  unfold deliver. destruct (timers w !! h) as [tm|]; [|reflexivity].
  by destruct (tm_status tm).
Qed.

Lemma step_foreign c ev w :
  foreign c ev = true -> users (step ev w) !! c = users w !! c.
Proof.
  destruct ev as [req|h|h]; cbn [foreign step]; intros Hf.
  - apply negb_true_iff, bool_decide_eq_false in Hf.
    destruct (chat_of req) as [c0|] eqn:Hc.
    + apply (telegram_webhook_others req c0 Hc w). congruence.
    + by rewrite (telegram_webhook_nobody req Hc).
  - by rewrite fire_users.
  - by rewrite deliver_users.
Qed.

(** X7. The session of a chat is changed by that chat's own requests
    only: over any run of requests of other chats, reminder firings and
    cancellations, whatever the collaborators do, the chat's queue,
    pointer and stored handle are what they were, and a chat without a
    session gets none. *)
Theorem session_changes_by_own_requests (c : Z) (evs : list event) (w : World) :
  forallb (foreign c) evs = true ->
  users (run evs w) !! c = users w !! c.
Proof.
  revert w. induction evs as [|ev evs IH]; intros w H; [reflexivity|].
  cbn [forallb] in H. apply andb_true_iff in H as [Hev Hevs].
  cbn [run foldl]. fold (run evs (step ev w)).
  rewrite (IH _ Hevs). by apply step_foreign.
Qed.

Lemma session_changes_by_own_requests_witness :
  users (run [Webhook (press "q" 8 "done:2"); Fire 0;
              Webhook (text_message 9 two_goals); Webhook Malformed] two_chats) !! 7%Z
  = Some (mkUser two_tasks 0 (Some 0)).
Proof.
  exact (session_changes_by_own_requests 7
           [Webhook (press "q" 8 "done:2"); Fire 0;
            Webhook (text_message 9 two_goals); Webhook Malformed] two_chats eq_refl).
Defined.

(** * Sessions as the handlers leave them *)

#[global] Instance stays_sound_preorder : PreOrder stays_sound.
Proof. split; unfold stays_sound; [intros w; auto | intros w1 w2 w3; auto]. Qed.

Lemma sound_same w w' : users w' = users w -> stays_sound w w'.
Proof. intros E Hs c u H. rewrite E in H. eauto. Qed.

Lemma sound_insert w w' c u :
  users w' = <[c := u]> (users w) -> sound_user u -> sound w -> sound w'.
Proof.
  intros E Hu Hs c0 u0 H0. rewrite E in H0.
  destruct (decide (c = c0)) as [->|Hne].
  - rewrite lookup_insert_eq in H0. by injection H0 as <-.
  - rewrite lookup_insert_ne in H0 by done. eauto.
Qed.

Lemma sound_user_empty r : sound_user (mkUser [] 0 r).
Proof. split; simpl; [constructor | lia | intros; lia]. Qed.

Lemma sound_user_reminder u r :
  sound_user u -> sound_user (mkUser (tasks u) (pointer u) r).
Proof. intros [H1 H2 H3]. split; assumption. Qed.

Lemma sound_user_advance u :
  sound_user u ->
  sound_user (mkUser (tasks u) (advance (length (tasks u)) (tasks u) (pointer u)) (reminder u)).
Proof.
  intros [H1 H2 H3]. split; cbn [tasks pointer]; [exact H1 | by apply advance_end |].
  intros i t Hi Ht. destruct (decide (i < pointer u)) as [Hlt|Hge].
  - eauto.
  - apply (advance_skipped (length (tasks u)) (tasks u) (pointer u) i t); [|exact Ht].
    split; [lia | exact Hi].
Qed.

Lemma ids_insert_done (ts : list Task) i t :
  ts !! i = Some t -> map t_id (<[i := set_done t]> ts) = map t_id ts.
Proof.
  revert i. induction ts as [|t0 ts IH]; intros [|i] H; try done; simpl in *.
  - by injection H as ->.
  - f_equal. by apply IH.
Qed.

Lemma sound_user_done u i t :
  tasks u !! i = Some t -> sound_user u ->
  sound_user (mkUser (<[i := set_done t]> (tasks u)) (pointer u) (reminder u)).
Proof.
  intros Hi [H1 H2 H3]. split; cbn [tasks pointer].
  - by rewrite ids_insert_done.
  - by rewrite length_insert.
  - intros j t' Hj Ht'. destruct (decide (i = j)) as [->|Hne].
    + rewrite list_lookup_insert_eq in Ht' by (eapply lookup_lt_Some; eauto).
      by injection Ht' as <-.
    + rewrite list_lookup_insert_ne in Ht' by done. eauto.
Qed.

Lemma fresh_tasks_ids n prio ls :
  map t_id (fresh_tasks n prio ls) = map pretty (seq n (length ls)).
Proof. revert n. induction ls as [|l ls IH]; intros n; simpl; [done|]. by rewrite IH. Qed.

Lemma queue_ids n lines : map t_id (queue n lines) = map pretty (seq n (length lines)).
Proof.
  unfold queue. cbv zeta. rewrite !map_app, !fresh_tasks_ids.
  rewrite <- !map_app, <- !seq_app. f_equal. f_equal.
  rewrite !length_take, !length_drop. lia.
Qed.

Lemma queue_ids_differ n lines : NoDup (map t_id (queue n lines)).
Proof.
  rewrite queue_ids. apply (NoDup_fmap_2 pretty), NoDup_seq.
Qed.

Lemma sound_user_queue n lines r : sound_user (mkUser (queue n lines) 0 r).
Proof. split; cbn [tasks pointer]; [apply queue_ids_differ | lia | intros; lia]. Qed.

Lemma await_sound e : always stays_sound (await e).
Proof.
  intros w. unfold await. destruct (oracle w (calls w)); apply sound_same; reflexivity.
Qed.

Lemma create_task_sound c tid : always stays_sound (create_task c tid).
Proof. intros w. apply sound_same. reflexivity. Qed.

Lemma setdefault_user_sound c : always stays_sound (setdefault_user c).
Proof.
  intros w Hs. unfold setdefault_user, modify. cbn [snd].
  destruct (users w !! c) as [u|] eqn:Hu.
  - eapply sound_same; [|exact Hs]. fields. by rewrite Hu.
  - eapply sound_insert; [|apply (sound_user_empty None)|exact Hs]. fields. by rewrite Hu.
Qed.

Lemma next_task_sound c : always stays_sound (next_task c).
Proof.
  intros w Hs. unfold next_task. destruct (users w !! c) as [u|] eqn:Hu; [|exact Hs].
  cbn [snd]. eapply sound_insert; [reflexivity | | exact Hs].
  apply sound_user_advance. eauto.
Qed.

Lemma set_reminder_sound c h : always stays_sound (set_reminder c h).
Proof.
  intros w Hs. unfold set_reminder, user_of, gets, modify, raise, mbind, M_bind, mret, M_ret.
  destruct (users w !! c) as [u|] eqn:Hu; [|exact Hs].
  cbn [snd]. eapply sound_insert; [reflexivity | | exact Hs].
  apply sound_user_reminder. eauto.
Qed.

Lemma marked_done_users c u i t w :
  users (marked_done c u i t w)
  = <[c := mkUser (<[i := set_done t]> (tasks u)) (pointer u) (reminder u)]> (users w).
Proof.
  unfold marked_done, cancel_stored. destruct (reminder u) as [rem|]; [|reflexivity].
  by destruct (is_cancelled rem w).
Qed.

Lemma mark_done_sound c tid : always stays_sound (mark_done c tid).
Proof.
  intros w Hs. rewrite mark_done_eq.
  destruct (users w !! c) as [u|] eqn:Hu; [|exact Hs].
  destruct (find_task tid (tasks u) 0) as [[i t]|] eqn:Hf; [|exact Hs].
  cbn [snd]. eapply sound_insert; [apply marked_done_users | | exact Hs].
  apply find_task_Some in Hf as (_ & Hi & _). rewrite Nat.sub_0_r in Hi.
  apply sound_user_done; eauto.
Qed.

Lemma add_tasks_from_morning_sound c raw : always stays_sound (add_tasks_from_morning c raw).
Proof.
  intros w Hs. destruct (users w !! c) as [u|] eqn:Hu.
  - rewrite (add_tasks_from_morning_eq c raw w u Hu). cbn [snd].
    eapply sound_insert; [reflexivity | apply sound_user_queue | exact Hs].
  - by rewrite (add_tasks_from_morning_no_session c raw w Hu).
Qed.

Create HintDb sound_db.
#[global] Hint Resolve await_sound create_task_sound setdefault_user_sound next_task_sound
  set_reminder_sound mark_done_sound add_tasks_from_morning_sound : sound_db.

Lemma telegram_webhook_sound req : always stays_sound (telegram_webhook req).
Proof.
  unfold telegram_webhook, parse_update, on_callback, on_message, get_task, start_focus,
    user_of, send_message, answer_callback_query, gpt.
  always_auto sound_db.
Qed.

Lemma step_sound ev w : sound w -> sound (step ev w).
Proof.
  destruct ev as [req|h|h]; cbn [step].
  - apply telegram_webhook_sound.
  - apply sound_same, fire_users.
  - apply sound_same, deliver_users.
Qed.

Lemma run_sound evs w : sound w -> sound (run evs w).
Proof.
  revert w. induction evs as [|ev evs IH]; intros w Hs; [exact Hs|].
  apply IH, step_sound, Hs.
Qed.

Lemma init_sound env : sound (init env).
Proof. intros c u H. cbn in H. by rewrite lookup_empty in H. Qed.

Lemma find_task_by_id (ts : list Task) : forall k i t,
  NoDup (map t_id ts) -> ts !! i = Some t -> find_task (t_id t) ts k = Some (k + i, t).
Proof.
  induction ts as [|t0 ts IH]; intros k i t Hn Hi; [done|].
  apply NoDup_cons in Hn as [Hnotin Hn]. cbn [find_task].
  destruct i as [|i]; simpl in Hi.
  - injection Hi as ->. rewrite String.eqb_refl. by rewrite Nat.add_0_r.
  - destruct (String.eqb (t_id t0) (t_id t)) eqn:E.
    + apply String.eqb_eq in E. exfalso. apply Hnotin. rewrite E.
      apply (list_elem_of_fmap_2 t_id). eapply list_elem_of_lookup_2, Hi.
    + rewrite (IH (S k) i t Hn Hi). do 2 f_equal. lia.
Qed.

(** X8. The sessions of every world the program reaches from its start,
    whatever the requests, the firings and the collaborators were: the
    ids of a queue differ pairwise, the pointer is inside the queue or
    at its end, and every task the pointer has passed is done. *)
Theorem reachable_sessions_are_sound (env : nat -> outcome) (evs : list event)
    (c : Z) (u : User) :
  users (run evs (init env)) !! c = Some u ->
  NoDup (map t_id (tasks u))
  /\ pointer u <= length (tasks u)
  /\ (forall i t, i < pointer u -> tasks u !! i = Some t -> t_done t = true).
Proof.
  intros Hu. destruct (run_sound evs _ (init_sound env) c u Hu) as [H1 H2 H3].
  auto.
Qed.

Lemma reachable_sessions_are_sound_witness :
  NoDup (map t_id [mkTask "2" "Write report" "top" false; mkTask "3" "Call Bob" "mid" false]).
Proof.
  refine (proj1 (reachable_sessions_are_sound all_fine busy_day 7
            (mkUser [mkTask "2" "Write report" "top" false;
                     mkTask "3" "Call Bob" "mid" false] 0 (Some 2)) _)).
  vm_compute. reflexivity.
Defined.

(** X9. In every world the program reaches, [next_task] hands out the
    first task of the whole queue that is not done, not only the first
    one from the pointer on; and it hands out none only when every task
    of the queue is done. *)
Theorem next_task_first_open_of_queue (env : nat -> outcome) (evs : list event)
    (c : Z) (u : User) :
  let w := run evs (init env) in
  users w !! c = Some u ->
  match (next_task c w).1 with
  | Ok (Some t) =>
      exists p, tasks u !! p = Some t /\ t_done t = false
                /\ (forall i t', i < p -> tasks u !! i = Some t' -> t_done t' = true)
  | Ok None => Forall (fun t => t_done t = true) (tasks u)
  | Raise _ => False
  end.
Proof.
  intros w Hu. destruct (run_sound evs _ (init_sound env) c u Hu) as [_ H2 H3].
  rewrite (next_task_eq c w u Hu). cbn [fst].
  set (p := advance (length (tasks u)) (tasks u) (pointer u)).
  assert (Hpassed : forall i t', i < p -> tasks u !! i = Some t' -> t_done t' = true).
  { intros i t' Hi Ht'. destruct (decide (i < pointer u)) as [Hlt|Hge]; [eauto|].
    apply (advance_skipped (length (tasks u)) (tasks u) (pointer u) i t'); [|exact Ht'].
    split; [lia | exact Hi]. }
  destruct (tasks u !! p) as [t|] eqn:Hp.
  - exists p. split; [exact Hp|]. split; [|exact Hpassed].
    apply (advance_stops (length (tasks u)) (tasks u) (pointer u)); [lia | exact Hp].
  - apply Forall_lookup. intros i t' Ht'. apply (Hpassed i t'); [|exact Ht'].
    apply lookup_ge_None in Hp. apply lookup_lt_Some in Ht'. lia.
Qed.

Lemma next_task_first_open_of_queue_witness :
  let w := run [Webhook (text_message 7 two_goals); Webhook (press "q" 7 "done:1")]
               (init all_fine) in
  let u := mkUser [mkTask "0" "Write report" "top" false;
                   mkTask "1" "Call Bob" "mid" true] 0 (Some 1) in
  users w !! 7%Z = Some u
  /\ match (next_task 7 w).1 with
     | Ok (Some t) =>
         exists p, tasks u !! p = Some t /\ t_done t = false
                   /\ (forall i t', i < p -> tasks u !! i = Some t' -> t_done t' = true)
     | Ok None => Forall (fun t => t_done t = true) (tasks u)
     | Raise _ => False
     end.
Proof.
  cbv zeta. split; [vm_compute; reflexivity|].
  apply (next_task_first_open_of_queue all_fine
           [Webhook (text_message 7 two_goals); Webhook (press "q" 7 "done:1")] 7).
  vm_compute. reflexivity.
Defined.

(** X10. In every world the program reaches, a Done button names one
    task: when its callback is answered, the press marks the task the
    button was made for and leaves every other task of the queue as it
    was, whether or not the messages after it can be sent. *)
Theorem done_press_marks_named_task (env : nat -> outcome) (evs : list event)
    (q : string) (c : Z) (u : User) (i : nat) (t : Task) :
  let w := run evs (init env) in
  users w !! c = Some u -> tasks u !! i = Some t ->
  oracle w (calls w) <> Fails ->
  exists u',
    users (telegram_webhook (press q c ("done:" ++ t_id t)) w).2 !! c = Some u'
    /\ tasks u' = <[i := set_done t]> (tasks u).
Proof.
  intros w Hu Hi Ho.
  destruct (run_sound evs _ (init_sound env) c u Hu) as [Hn _ _].
  pose proof (find_task_by_id (tasks u) 0 i t Hn Hi) as Hf. rewrite Nat.add_0_l in Hf.
  destruct (oracle w (calls w)) as [r|] eqn:Hr; [clear Ho | by destruct Ho].
  set (rest := ((send_message c "🎉 Task marked done!" None;; start_focus c);;
                mret ok_true) : M response).
  assert (Hrest : always queue_kept rest).
  { unfold rest, send_message. always_auto queue_db. }
  set (w1 := emit (AnswerCallback q) (tick w)).
  assert (E : (telegram_webhook (press q c ("done:" ++ t_id t)) w).2
              = (rest (marked_done c u i t w1)).2).
  { unfold press. rewrite telegram_webhook_callback, on_callback_done, coroutine_world.
    unfold mbind at 1. unfold M_bind.
    rewrite (answer_callback_query_ok q w r Hr). fold w1.
    unfold mbind at 1 2. unfold M_bind.
    rewrite mark_done_eq. unfold w1 at 1 2. fields. rewrite Hu, Hf. reflexivity. }
  rewrite E.
  destruct (Hrest (marked_done c u i t w1) c
              (mkUser (<[i := set_done t]> (tasks u)) (pointer u) (reminder u)))
    as (u' & Hu' & Ht' & _).
  { rewrite marked_done_users. apply lookup_insert_eq. }
  exists u'. split; [exact Hu' | exact Ht'].
Qed.

Lemma done_press_marks_named_task_witness :
  exists u',
    users (telegram_webhook (press "q" 7 "done:1")
             (run [Webhook (text_message 7 two_goals)] (init all_fine))).2 !! 7%Z = Some u'
    /\ tasks u' = [mkTask "0" "Write report" "top" false; mkTask "1" "Call Bob" "mid" true].
Proof.
  refine (done_press_marks_named_task all_fine [Webhook (text_message 7 two_goals)]
            "q" 7 (mkUser two_tasks 0 (Some 0)) 1 (mkTask "1" "Call Bob" "mid" false) _ _ _).
  - vm_compute. reflexivity.
  - reflexivity.
  - vm_compute. discriminate.
Defined.

(** * The task a reminder is about *)

Lemma upholds_bind {A B} P Q R (m : M A) (k : A -> M B) :
  upholds P m Q -> (forall a, upholds Q (k a) R) -> upholds P (m ≫= k) R.
Proof.
  intros Hm Hk w HP. unfold mbind, M_bind. specialize (Hm w HP).
  destruct (m w) as [[a|e] w']; [by apply Hk | exact Hm].
Qed.

Lemma upholds_ret {A} (P : World -> Prop) (a : A) : upholds P (mret a) P.
Proof. intros w HP. exact HP. Qed.

Lemma upholds_raise {A} e Q : upholds Steady (@raise A e) Q.
Proof. intros w HP. exact HP. Qed.

Lemma upholds_coroutine {A} P Q (m : M A) : upholds P m Q -> upholds P (coroutine m) Q.
Proof.
  intros H w HP. unfold coroutine. specialize (H w HP).
  destruct (m w) as [[a|[]] w']; exact H.
Qed.

Lemma in_focus_same w w' :
  timers w' = timers w -> users w' = users w -> in_focus w -> in_focus w'.
Proof. intros Ht Hu H h tm. rewrite Ht, Hu. apply H. Qed.

(** A step of chat [c] after which no timer of [c] can fire: the
    reminders of the other chats are about what they were about. *)
Lemma in_focus_others c w w' :
  (forall h tm, timers w' !! h = Some tm -> tm_status tm = Sleeping ->
                timers w !! h = Some tm) ->
  (forall c', c' <> c -> users w' !! c' = users w !! c') ->
  (forall h tm, timers w' !! h = Some tm -> tm_chat tm = c -> tm_status tm <> Sleeping) ->
  in_focus w -> in_focus w'.
Proof.
  intros Ht Hu Hc H h tm Hh Hs.
  destruct (decide (tm_chat tm = c)) as [E|Hne]; [by destruct (Hc h tm Hh E)|].
  rewrite (Hu _ Hne). apply (H h tm); [by apply Ht | exact Hs].
Qed.

Lemma Calm_Steady c w : Calm c w -> Steady w.
Proof. intros [[Hi _ _ _] Hf]. by split. Qed.

(** Steps that touch no timer and no session. *)
Lemma upholds_quiet_Steady {A} (m : M A) :
  always quiet_turn m -> always silent m -> upholds Steady m Steady.
Proof.
  intros Hq Hs w [Hi Hf]. specialize (Hq w). specialize (Hs w).
  destruct Hq as (Ht & Hu & _).
  assert (Steady (m w).2).
  { split; [by eapply silent_Inv | by eapply in_focus_same]. }
  by destruct (m w) as [[a|e] w'].
Qed.

Lemma upholds_quiet_Calm {A} c (m : M A) :
  always quiet_turn m -> always silent m -> upholds (Calm c) m (Calm c).
Proof.
  intros Hq Hs w [Hi Hf]. specialize (Hq w). specialize (Hs w).
  destruct Hq as (Ht & Hu & _).
  assert (Calm c (m w).2).
  { split; [by eapply silent_Quiet | by eapply in_focus_same]. }
  destruct (m w) as [[a|e] w']; [done | by eapply Calm_Steady].
Qed.

Lemma upholds_quiet_Poised {A} c task (m : M A) :
  always quiet_turn m -> always silent m -> upholds (Poised c task) m (Poised c task).
Proof.
  intros Hq Hs w (Hi & Hf & Hp). specialize (Hq w). specialize (Hs w).
  destruct Hq as (Ht & Hu & _).
  assert (Poised c task (m w).2).
  { split; [by eapply silent_Quiet|]. split; [by eapply in_focus_same|]. by rewrite Hu. }
  destruct (m w) as [[a|e] w']; [done|].
  destruct H as (Hq' & Hf' & _). by eapply Calm_Steady.
Qed.

Lemma send_message_quiet c t k : always quiet_turn (send_message c t k).
Proof. unfold send_message. always_auto quiet_db. Qed.

Lemma gpt_quiet r c : always quiet_turn (gpt r c).
Proof. unfold gpt. always_auto quiet_db. Qed.

Lemma answer_callback_query_quiet q : always quiet_turn (answer_callback_query q).
Proof. unfold answer_callback_query. always_auto quiet_db. Qed.

Lemma setdefault_user_upholds c : upholds Steady (setdefault_user c) Steady.
Proof.
  intros w [Hi Hf]. unfold setdefault_user, modify.
  split; [exact (silent_Inv _ _ (setdefault_user_silent c w) Hi)|].
  intros h tm Hh Hs. fields. destruct (Hf h tm Hh Hs) as (u & t & Hu & Ht).
  exists u, t. split; [|exact Ht].
  destruct (users w !! c) as [u0|] eqn:Hc; [exact Hu|].
  rewrite lookup_insert_ne; [exact Hu|]. intros E. rewrite E in Hc. congruence.
Qed.

Lemma marked_done_timers c u i t w h tm :
  timers (marked_done c u i t w) !! h = Some tm -> tm_status tm = Sleeping ->
  timers w !! h = Some tm.
Proof.
  unfold marked_done, cancel_stored. destruct (reminder u) as [rem|]; [|by fields].
  destruct (is_cancelled rem w); [by fields|]. fields.
  intros Hh Hs. by destruct (cancel_timer_sleeping _ _ _ _ Hh Hs).
Qed.

Lemma mark_done_upholds c tid : upholds Steady (mark_done c tid) (Calm c).
Proof.
  intros w [Hi Hf]. pose proof (mark_done_keeps c tid w Hi) as Hk.
  rewrite mark_done_eq in Hk |- *.
  destruct (users w !! c) as [u|] eqn:Hu; [|by split].
  destruct (find_task tid (tasks u) 0) as [[i t]|]; [|by split].
  split; [exact Hk|].
  apply (in_focus_others c w); [apply marked_done_timers | | apply Hk | exact Hf].
  intros c' Hne. rewrite marked_done_users. by apply lookup_insert_ne.
Qed.

Lemma add_tasks_from_morning_upholds c raw :
  upholds Steady (add_tasks_from_morning c raw) (Calm c).
Proof.
  intros w [Hi Hf]. pose proof (add_tasks_from_morning_keeps c raw w Hi) as Hk.
  destruct (users w !! c) as [u|] eqn:Hu.
  2: { rewrite add_tasks_from_morning_no_session by done. by split. }
  rewrite (add_tasks_from_morning_eq _ _ _ _ Hu) in Hk |- *. cbv zeta in Hk |- *.
  destruct Hk as [Hq _]. split; [exact Hq|].
  apply (in_focus_others c w); [| | apply Hq | exact Hf].
  - fields. unfold cancel_stored. destruct (reminder u) as [rem|]; [|by fields].
    fields. intros h tm Hh Hs. by destruct (cancel_timer_sleeping _ _ _ _ Hh Hs).
  - intros c' Hne. fields. by apply lookup_insert_ne.
Qed.

Lemma arm_upholds c task :
  upholds (Poised c task) (create_task c (t_id task) ≫= set_reminder c) Steady.
Proof.
  intros w (Hq & Hf & u & Hu & Hp & Hd).
  pose proof (arm_keeps c (t_id task) w (conj Hq (ex_intro _ u Hu))) as Hk.
  rewrite (arm_eq _ _ _ _ Hu) in Hk |- *. split; [exact Hk|].
  intros h tm Hh Hs. unfold armed in Hh |- *. fields. cbn [timers] in Hh.
  destruct (decide (h < length (timers w))) as [Hlt|Hge].
  - rewrite lookup_app_l in Hh by exact Hlt.
    assert (Hne : tm_chat tm <> c).
    { intros E. by apply (quiet_sleep c w Hq h tm Hh E). }
    rewrite lookup_insert_ne by done. by apply (Hf h tm).
  - rewrite lookup_app_r in Hh by lia.
    destruct (h - length (timers w)) as [|n]; [|by destruct n].
    injection Hh as <-. cbn [tm_chat tm_task]. rewrite lookup_insert_eq.
    eexists. exists task. split; [reflexivity|]. cbn [tasks pointer]. auto.
Qed.

Lemma start_focus_upholds c : upholds (Calm c) (start_focus c) Steady.
Proof.
  intros w [Hq Hf]. destruct (users w !! c) as [u|] eqn:Hu.
  - rewrite (start_focus_eq _ _ _ Hu). cbv zeta.
    set (p := advance (length (tasks u)) (tasks u) (pointer u)).
    set (w1 := with_users _ w).
    assert (Hs1 : silent w w1).
    { eapply silent_insert with (c := c) (u := u); [done | done | exact Hu | reflexivity | done]. }
    assert (Hq1 : Quiet c w1) by (by eapply silent_Quiet).
    assert (Hf1 : in_focus w1).
    { apply (in_focus_others c w); [by fields | | apply Hq1 | exact Hf].
      intros c' Hne. unfold w1. fields. by apply lookup_insert_ne. }
    assert (Hu1 : users w1 !! c = Some (mkUser (tasks u) p (reminder u))).
    { unfold w1. fields. apply lookup_insert_eq. }
    clearbody w1. clear Hs1.
    destruct (tasks u !! p) as [task|] eqn:Hp.
    + assert (Hpo : Poised c task w1).
      { split; [exact Hq1|]. split; [exact Hf1|]. eexists. split; [exact Hu1|].
        cbn [tasks pointer]. split; [exact Hp|].
        apply (advance_stops (length (tasks u)) (tasks u) (pointer u)); [lia | exact Hp]. }
      revert w1 Hpo Hq1 Hf1 Hu1. intros w1 Hpo _ _ _. revert w1 Hpo.
      eapply upholds_bind; [apply upholds_quiet_Poised; [apply gpt_quiet | apply gpt_silent]|].
      intros msg.
      eapply upholds_bind;
        [apply upholds_quiet_Poised; [apply send_message_quiet | apply send_message_silent]|].
      intros ?. apply arm_upholds.
    + pose proof (upholds_quiet_Calm c _
                    (send_message_quiet c "🥳 Day’s list complete! Great work." None)
                    (send_message_silent c "🥳 Day’s list complete! Great work." None)
                    w1 (conj Hq1 Hf1)) as H.
      destruct (send_message _ _ _ w1) as [[a|e] w']; [by eapply Calm_Steady | exact H].
  - unfold start_focus. unfold mbind at 1. unfold M_bind, next_task. rewrite Hu.
    pose proof (upholds_quiet_Calm c _
                  (send_message_quiet c "🥳 Day’s list complete! Great work." None)
                  (send_message_silent c "🥳 Day’s list complete! Great work." None)
                  w (conj Hq Hf)) as H.
    destruct (send_message _ _ _ w) as [[a|e] w']; [by eapply Calm_Steady | exact H].
Qed.

Lemma on_callback_upholds cq : upholds Steady (on_callback cq) Steady.
Proof.
  unfold on_callback.
  destruct (PyStr.split_once ":" (default "" (cq_data cq))) as [[action tid]|];
    [|apply upholds_raise].
  eapply upholds_bind;
    [apply upholds_quiet_Steady;
       [apply answer_callback_query_quiet | apply answer_callback_query_silent]|].
  intros ?. eapply upholds_bind; [|intros ?; apply upholds_ret].
  destruct (String.eqb action "done").
  - eapply upholds_bind; [apply mark_done_upholds|]. intros ?.
    eapply upholds_bind;
      [apply upholds_quiet_Calm; [apply send_message_quiet | apply send_message_silent]|].
    intros ?. apply start_focus_upholds.
  - destruct (String.eqb action "stuck"); [|apply upholds_ret].
    apply upholds_quiet_Steady.
    + unfold gpt, send_message. always_auto quiet_db.
    + always_auto silent_db.
Qed.

Lemma on_message_upholds c text : upholds Steady (on_message c text) Steady.
Proof.
  unfold on_message.
  eapply upholds_bind; [apply setdefault_user_upholds|]. intros ?.
  destruct (String.eqb (PyStr.lower text) "/start").
  { apply upholds_quiet_Steady; [unfold send_message; always_auto quiet_db
                                | always_auto silent_db]. }
  destruct (is_morning_input text).
  - eapply upholds_bind; [apply add_tasks_from_morning_upholds|]. intros ?.
    eapply upholds_bind; [apply upholds_quiet_Calm; [apply gpt_quiet | apply gpt_silent]|].
    intros ack.
    eapply upholds_bind;
      [apply upholds_quiet_Calm; [apply send_message_quiet | apply send_message_silent]|].
    intros ?. eapply upholds_bind; [apply start_focus_upholds | intros ?; apply upholds_ret].
  - apply upholds_quiet_Steady; [unfold send_message; always_auto quiet_db
                                | always_auto silent_db].
Qed.

Lemma telegram_webhook_upholds req : upholds Steady (telegram_webhook req) Steady.
Proof.
  unfold telegram_webhook. apply upholds_coroutine.
  eapply upholds_bind with (Q := Steady).
  { destruct req; [apply upholds_raise | apply upholds_ret]. }
  intros update. destruct (callback_query update) as [cq|]; [apply on_callback_upholds|].
  destruct (message update) as [m|]; [|apply upholds_ret].
  destruct (msg_text m) as [text|]; [|apply upholds_ret].
  destruct (PyStr.nonempty text); [apply on_message_upholds | apply upholds_ret].
Qed.

Lemma in_focus_set_status h st w :
  st <> Sleeping -> in_focus w -> in_focus (set_status h st w).
Proof.
  intros Hst Hf h' tm Hh Hs. unfold set_status in Hh |- *. fields.
  cbn [timers with_timers] in Hh.
  apply (Hf h' tm); [|exact Hs].
  destruct (timers w !! h) as [tm0|] eqn:Hh0; [|exact Hh].
  destruct (decide (h = h')) as [<-|Hne].
  - rewrite list_lookup_insert_eq in Hh by (eapply lookup_lt_Some; eauto).
    injection Hh as <-. by destruct Hst.
  - by rewrite list_lookup_insert_ne in Hh.
Qed.

Lemma fire_in_focus h w : in_focus w -> in_focus (fire h w).
Proof.
  intros Hf. unfold fire. destruct (timers w !! h) as [tm|]; [|exact Hf].
  destruct (tm_status tm); try exact Hf.
  pose proof (remind_loop_quiet (tm_chat tm) (tm_task tm) w) as (Ht & Hu & _).
  destruct (remind_loop (tm_chat tm) (tm_task tm) w) as [[[|]|e] w']; cbn [snd] in Ht, Hu.
  - by eapply in_focus_same.
  - apply in_focus_set_status; [discriminate | by eapply in_focus_same].
  - apply in_focus_set_status; [discriminate | by eapply in_focus_same].
Qed.

Lemma deliver_in_focus h w : in_focus w -> in_focus (deliver h w).
Proof.
  intros Hf. unfold deliver. destruct (timers w !! h) as [tm|]; [|exact Hf].
  destruct (tm_status tm); try exact Hf.
  by apply in_focus_set_status.
Qed.

Lemma step_Steady ev w : Steady w -> Steady (step ev w).
Proof.
  intros Hs. destruct ev as [req|h|h]; cbn [step].
  - pose proof (telegram_webhook_upholds req w Hs) as H.
    by destruct (telegram_webhook req w) as [[a|e] w'].
  - destruct Hs as [Hi Hf]. split; [by apply fire_Inv | by apply fire_in_focus].
  - destruct Hs as [Hi Hf]. split; [by apply deliver_Inv | by apply deliver_in_focus].
Qed.

Lemma run_Steady evs w : Steady w -> Steady (run evs w).
Proof.
  revert w. induction evs as [|ev evs IH]; intros w Hs; [exact Hs|].
  apply IH, step_Steady, Hs.
Qed.

Lemma init_Steady env : Steady (init env).
Proof. split; [apply Inv_init|]. intros h tm Hh. cbn in Hh. by rewrite lookup_nil in Hh. Qed.

(** X11. Handlers running one at a time, in every world the program
    reaches a reminder that can still fire is the one its chat stores,
    and it is about the task in focus: the task at the chat's pointer,
    which is not done. The loop's lookup by id finds that very task, so
    a firing reminder never returns for a task gone or done: it nudges,
    or a collaborator fails. *)
Theorem reminder_is_about_task_in_focus (env : nat -> outcome) (evs : list event)
    (h : handle) (tm : Timer) :
  let w := run evs (init env) in
  timers w !! h = Some tm -> tm_status tm = Sleeping ->
  exists u t,
    users w !! tm_chat tm = Some u /\ reminder u = Some h
    /\ tasks u !! pointer u = Some t /\ t_done t = false
    /\ lookup_task (tm_chat tm) (tm_task tm) w = Some t
    /\ (remind_loop (tm_chat tm) (tm_task tm) w).1 <> Ok false.
Proof.
  intros w Hh Hs.
  destruct (run_Steady evs _ (init_Steady env)) as [Hi Hf]. fold w in Hi, Hf.
  destruct (Hf h tm Hh Hs) as (u & t & Hu & Hp & Hid & Hd).
  exists u, t. split; [exact Hu|].
  split.
  { pose proof (inv_sleep w Hi h tm Hh Hs) as Hst. unfold stored in Hst.
    by rewrite Hu in Hst. }
  split; [exact Hp|]. split; [exact Hd|].
  assert (Hl : lookup_task (tm_chat tm) (tm_task tm) w = Some t).
  { destruct (run_sound evs _ (init_sound env) _ u Hu) as [Hn _ _].
    unfold lookup_task. rewrite Hu, <- Hid.
    by rewrite (find_task_by_id (tasks u) 0 (pointer u) t Hn Hp). }
  split; [exact Hl|].
  rewrite (remind_loop_eq _ _ _ _ Hl Hd). unfold mbind, M_bind.
  destruct (gpt _ _ w) as [[nud|e] w1]; [|discriminate].
  destruct (send_message _ _ _ w1) as [[?|e] w2]; discriminate.
Qed.

Lemma reminder_is_about_task_in_focus_witness :
  exists u t,
    users (run [Webhook (text_message 7 two_goals)] (init all_fine)) !! 7%Z = Some u
    /\ reminder u = Some 0
    /\ tasks u !! pointer u = Some t /\ t_done t = false
    /\ lookup_task 7 "0" (run [Webhook (text_message 7 two_goals)] (init all_fine)) = Some t
    /\ (remind_loop 7 "0" (run [Webhook (text_message 7 two_goals)] (init all_fine))).1
       <> Ok false.
Proof.
  refine (reminder_is_about_task_in_focus all_fine [Webhook (text_message 7 two_goals)]
            0 (mkTimer 7 "0" Sleeping) _ _).
  - vm_compute. reflexivity.
  - reflexivity.
Defined.

(** * Whose timers a request touches *)

Section Moves.
Context (R : World -> World -> Prop) `{!PreOrder R}.

Lemma moves_bind {A B} P Q S (m : M A) (k : A -> M B) :
  moves R P m Q -> (forall a, moves R Q (k a) S) -> moves R P (m ≫= k) S.
Proof.
  intros Hm Hk w HP. unfold mbind, M_bind. destruct (Hm w HP) as [Hr Hq].
  destruct (m w) as [[a|e] w']; cbn [fst snd] in *.
  - destruct (Hk a w' Hq) as [Hr' Hs]. split; [by etransitivity | exact Hs].
  - by split.
Qed.

Lemma moves_always {A} P (m : M A) : always R m -> moves R P m anywhere.
Proof. intros Hm w _. split; [apply Hm|]. by destruct (m w).1. Qed.

Lemma moves_keeps {A} P Q (m : M A) : always R m -> keeps P m Q -> moves R P m Q.
Proof.
  intros Hm Hk w HP. split; [apply Hm|]. specialize (Hk w HP).
  by destruct (m w) as [[a|e] w'].
Qed.

End Moves.

#[global] Instance foreign_timers_kept_preorder c : PreOrder (foreign_timers_kept c).
Proof.
  split.
  - intros w h tm H _. exact H.
  - intros w1 w2 w3 H12 H23 h tm H Hne. apply H23; [|exact Hne]. by apply H12.
Qed.

Lemma foreign_timers_same c w w' : timers w' = timers w -> foreign_timers_kept c w w'.
Proof. intros E h tm H _. by rewrite E. Qed.

Lemma await_foreign c e : always (foreign_timers_kept c) (await e).
Proof.
  intros w. unfold await. destruct (oracle w (calls w)); apply foreign_timers_same; reflexivity.
Qed.

Lemma next_task_foreign c c0 : always (foreign_timers_kept c) (next_task c0).
Proof.
  intros w. unfold next_task. destruct (users w !! c0); apply foreign_timers_same; reflexivity.
Qed.

Lemma with_users_foreign c f : always (foreign_timers_kept c) (modify (with_users f)).
Proof. intros w. apply foreign_timers_same. reflexivity. Qed.

Lemma create_task_foreign c c0 tid : always (foreign_timers_kept c) (create_task c0 tid).
Proof.
  intros w h tm H _. cbn. apply lookup_app_l_Some. exact H.
Qed.

Create HintDb foreign_db.
#[global] Hint Resolve await_foreign next_task_foreign with_users_foreign
  create_task_foreign : foreign_db.

Lemma start_focus_foreign c c0 : always (foreign_timers_kept c) (start_focus c0).
Proof.
  unfold start_focus, set_reminder, user_of, send_message, gpt. always_auto foreign_db.
Qed.

Lemma send_message_foreign c c0 t k : always (foreign_timers_kept c) (send_message c0 t k).
Proof. unfold send_message. always_auto foreign_db. Qed.

Lemma gpt_foreign c r t : always (foreign_timers_kept c) (gpt r t).
Proof. unfold gpt. always_auto foreign_db. Qed.

Lemma answer_callback_query_foreign c q :
  always (foreign_timers_kept c) (answer_callback_query q).
Proof. unfold answer_callback_query. always_auto foreign_db. Qed.

Lemma setdefault_user_foreign c c0 : always (foreign_timers_kept c) (setdefault_user c0).
Proof. apply with_users_foreign. Qed.

(** The timer a chat stores is its own, so cancelling it leaves the
    timers of the others alone. *)
Lemma cancel_stored_foreign c rem w w1 :
  Inv w -> stored c w = rem -> timers w1 = timers w ->
  foreign_timers_kept c w (cancel_stored c rem w1).
Proof.
  intros Hi Hst Ht h tm Hh Hne. unfold cancel_stored.
  destruct rem as [r|]; [|by rewrite Ht]. fields. rewrite Ht.
  destruct (inv_owner w Hi c r Hst) as (tm0 & H0 & Hc).
  rewrite cancel_timer_ne; [exact Hh|]. intros ->. congruence.
Qed.

Lemma mark_done_foreign c tid w :
  Inv w -> foreign_timers_kept c w (mark_done c tid w).2.
Proof.
  intros Hi. rewrite mark_done_eq.
  destruct (users w !! c) as [u|] eqn:Hu; [|reflexivity].
  destruct (find_task tid (tasks u) 0) as [[i t]|]; [|reflexivity].
  cbn [snd]. unfold marked_done.
  destruct (reminder u) as [rem|] eqn:Hr; [|by apply foreign_timers_same].
  destruct (is_cancelled rem w); [by apply foreign_timers_same|].
  apply cancel_stored_foreign; [exact Hi | | reflexivity].
  unfold stored. by rewrite Hu.
Qed.

Lemma add_tasks_from_morning_foreign c raw w :
  Inv w -> foreign_timers_kept c w (add_tasks_from_morning c raw w).2.
Proof.
  intros Hi. destruct (users w !! c) as [u|] eqn:Hu.
  2: { by rewrite add_tasks_from_morning_no_session. }
  rewrite (add_tasks_from_morning_eq _ _ _ _ Hu). cbv zeta. cbn [snd].
  intros h tm Hh Hne. fields.
  apply (cancel_stored_foreign c (reminder u) w w Hi); [|reflexivity|exact Hh|exact Hne].
  unfold stored. by rewrite Hu.
Qed.

Lemma mark_done_moves c tid :
  moves (foreign_timers_kept c) Inv (mark_done c tid) anywhere.
Proof.
  intros w Hi. split; [by apply mark_done_foreign|]. by destruct (mark_done c tid w).1.
Qed.

Lemma add_tasks_from_morning_moves c raw :
  moves (foreign_timers_kept c) Inv (add_tasks_from_morning c raw) anywhere.
Proof.
  intros w Hi. split; [by apply add_tasks_from_morning_foreign|].
  by destruct (add_tasks_from_morning c raw w).1.
Qed.

Lemma on_callback_moves cq :
  moves (foreign_timers_kept (cq_from_user cq)) Inv (on_callback cq) anywhere.
Proof.
  unfold on_callback.
  destruct (PyStr.split_once ":" (default "" (cq_data cq))) as [[action tid]|];
    [|apply moves_always; [typeclasses eauto.. | apply always_raise; typeclasses eauto]].
  eapply moves_bind; [typeclasses eauto.. | |].
  { apply moves_keeps; [apply answer_callback_query_foreign
                       | apply keeps_silent_Inv, answer_callback_query_silent]. }
  intros ?. eapply moves_bind with (Q := anywhere); [typeclasses eauto.. | |].
  2: { intros ?. apply moves_always; [typeclasses eauto.. | apply always_ret; typeclasses eauto]. }
  destruct (String.eqb action "done").
  - eapply moves_bind; [typeclasses eauto.. | apply mark_done_moves |]. intros ?.
    apply moves_always; [typeclasses eauto..|].
    apply always_bind; [typeclasses eauto.. | apply send_message_foreign |].
    intros ?. apply start_focus_foreign.
  - apply moves_always; [typeclasses eauto..|].
    unfold get_task, user_of, gpt, send_message. always_auto foreign_db.
Qed.

Lemma on_message_moves c text :
  moves (foreign_timers_kept c) Inv (on_message c text) anywhere.
Proof.
  unfold on_message.
  eapply moves_bind; [typeclasses eauto.. | |].
  { apply moves_keeps; [apply setdefault_user_foreign
                       | apply keeps_silent_Inv, setdefault_user_silent]. }
  intros ?.
  destruct (String.eqb (PyStr.lower text) "/start").
  { apply moves_always; [typeclasses eauto..|]. unfold send_message. always_auto foreign_db. }
  destruct (is_morning_input text).
  - eapply moves_bind; [typeclasses eauto.. | apply add_tasks_from_morning_moves |]. intros ?.
    apply moves_always; [typeclasses eauto..|].
    apply always_bind; [typeclasses eauto.. | apply gpt_foreign |]. intros ack.
    apply always_bind; [typeclasses eauto.. | apply send_message_foreign |]. intros ?.
    apply always_bind; [typeclasses eauto.. | apply start_focus_foreign |]. intros ?.
    apply always_ret; typeclasses eauto.
  - apply moves_always; [typeclasses eauto..|]. unfold send_message. always_auto foreign_db.
Qed.

Lemma telegram_webhook_foreign req c w :
  Inv w -> chat_of req = Some c -> foreign_timers_kept c w (telegram_webhook req w).2.
Proof.
  intros Hi Hc. unfold telegram_webhook. rewrite coroutine_world.
  destruct req as [|[[cq|] m]]; [discriminate Hc | |].
  - cbn in Hc. injection Hc as <-. apply (on_callback_moves cq w Hi).
  - destruct m as [[c0 txt]|]; [|discriminate Hc]. cbn in Hc. injection Hc as ->.
    unfold parse_update, mbind, M_bind, mret, M_ret.
    cbn [callback_query message msg_text msg_chat].
    destruct txt as [text|]; [|reflexivity].
    destruct (PyStr.nonempty text); [|reflexivity].
    apply (on_message_moves c (PyStr.strip text) w Hi).
Qed.

(** X13. In every world the program reaches, a request of one chat
    leaves the other chats alone: their sessions are what they were,
    and so is every reminder timer that belongs to them, whatever the
    request does to the chat's own reminder and whatever the
    collaborators do. *)
Theorem request_leaves_other_chats_alone (env : nat -> outcome) (evs : list event)
    (req : Request) (c : Z) :
  let w := run evs (init env) in
  let w' := (telegram_webhook req w).2 in
  chat_of req = Some c ->
  (forall c', c' <> c -> users w' !! c' = users w !! c')
  /\ (forall h tm, timers w !! h = Some tm -> tm_chat tm <> c -> timers w' !! h = Some tm).
Proof.
  intros w w' Hc. split.
  - apply (telegram_webhook_others req c Hc w).
  - apply telegram_webhook_foreign; [|exact Hc]. apply run_Inv, Inv_init.
Qed.

Lemma request_leaves_other_chats_alone_witness :
  timers (telegram_webhook (press "q" 8 "done:2")
            (run [Webhook (text_message 7 two_goals); Webhook (text_message 8 two_goals)]
                 (init all_fine))).2 !! 0
  = Some (mkTimer 7 "0" Sleeping).
Proof.
  refine (proj2 (request_leaves_other_chats_alone all_fine
                   [Webhook (text_message 7 two_goals); Webhook (text_message 8 two_goals)]
                   (press "q" 8 "done:2") 8 eq_refl) 0 (mkTimer 7 "0" Sleeping) _ _).
  - vm_compute. reflexivity.
  - discriminate.
Defined.

(** * The webhook of v0.2 *)

Lemma sustains_bind {A B} P Q R (m : V2Hook.SM A) (k : A -> V2Hook.SM B) :
  sustains P m Q -> (forall a, sustains (Q a) (k a) R) -> sustains P (m ≫= k) R.
Proof.
  intros Hm Hk s HP. unfold mbind, V2Hook.SM_bind. specialize (Hm s HP).
  destruct (m s) as [[a|e] s']; [by apply Hk | exact Hm].
Qed.

Lemma sustains_ret {A} (P : V2Hook.State -> Prop) (a : A) :
  sustains P (mret a) (fun _ => P).
Proof. intros s HP. exact HP. Qed.

(** A state that differs in the world only, where no id was taken back. *)
Lemma Tidy_world s s' :
  V2Hook.tasks s' = V2Hook.tasks s ->
  V2Hook.active_reminders s' = V2Hook.active_reminders s ->
  V2Hook.loops s' = V2Hook.loops s ->
  uuids (V2Hook.world s) <= uuids (V2Hook.world s') ->
  Tidy s -> Tidy s'.
Proof.
  intros Et Ea El Hu [H1 H2 H3 H4]. split; rewrite ?Et, ?Ea, ?El; try assumption.
  intros tid Hin. destruct (H2 tid Hin) as (n & Hn & E). exists n. split; [lia | exact E].
Qed.

Lemma always_try_except {A} R `{!PreOrder R} (m : M A) (handler : exn -> M A) :
  always R m -> (forall e, always R (handler e)) -> always R (V2.try_except m handler).
Proof.
  intros Hm Hh w. unfold V2.try_except. specialize (Hm w).
  destruct (m w) as [[a|e] w']; cbn [snd] in *; [exact Hm|].
  etransitivity; [exact Hm | apply Hh].
Qed.

Lemma V2_reminder_loop_quiet ts tid : always quiet_turn (V2.reminder_loop ts tid).
Proof.
  unfold V2.reminder_loop. destruct (ts !! tid) as [t|]; [|apply always_ret; typeclasses eauto].
  destruct (V2.done t); [apply always_ret; typeclasses eauto|].
  apply always_bind; [typeclasses eauto.. | | intros ?; apply always_ret; typeclasses eauto].
  apply always_try_except; [typeclasses eauto | | intros ?; apply always_ret; typeclasses eauto].
  unfold V2.coach_reply_remind. always_auto quiet_db.
Qed.

Lemma coach_reply_quiet reason text : always quiet_turn (V2Hook.coach_reply reason text).
Proof.
  unfold V2Hook.coach_reply. destruct (V2Hook.user_msg reason text).
  - always_auto quiet_db.
  - apply always_raise; typeclasses eauto.
Qed.

(** A computation on the world that takes no id keeps what [P] says of
    the tasks, the reminders and the loops. *)
Lemma lift_quiet_Tidy {A} (m : M A) s :
  always quiet_turn m -> Tidy s -> Tidy (V2Hook.lift m s).2.
Proof.
  intros Hq. destruct (Hq (V2Hook.world s)) as (_ & _ & Hu & _).
  apply Tidy_world; try reflexivity. cbn. lia.
Qed.

Lemma sustains_lift_Tidy {A} (m : M A) :
  always quiet_turn m -> sustains Tidy (V2Hook.lift m) (fun _ => Tidy).
Proof.
  intros Hq s Hs. pose proof (lift_quiet_Tidy m s Hq Hs) as H.
  unfold V2Hook.lift in *. cbn [snd] in H. by destruct (m (V2Hook.world s)) as [[a|e] w'].
Qed.

Lemma sustains_lift_Pending {A} tid (m : M A) :
  always quiet_turn m -> sustains (Pending tid) (V2Hook.lift m) (fun _ => Pending tid).
Proof.
  intros Hq s (Hs & Ht & Ha). pose proof (lift_quiet_Tidy m s Hq Hs) as H.
  unfold V2Hook.lift in *. cbn [snd] in H.
  destruct (m (V2Hook.world s)) as [[a|e] w']; [|exact H]. by split.
Qed.

Lemma first_open_Some c ts : forall k i tid t,
  V2Hook.first_open c ts k = Some (i, (tid, t)) ->
  k <= i /\ ts !! (i - k) = Some (tid, t) /\ V2.chat_id t = c /\ V2.done t = false
  /\ forall j tid' t', j < i - k -> ts !! j = Some (tid', t') ->
       V2.chat_id t' = c -> V2.done t' = true.
Proof.
  induction ts as [|[tid0 t0] ts IH]; intros k i tid t; cbn [V2Hook.first_open]; [done|].
  destruct (bool_decide (V2.chat_id t0 = c) && negb (V2.done t0)) eqn:E.
  - intros [= <- <- <-]. apply andb_true_iff in E as [Hc Hd].
    apply bool_decide_eq_true in Hc. apply negb_true_iff in Hd.
    rewrite Nat.sub_diag. repeat split; try done. intros j ? ? Hj. lia.
  - intros H. apply IH in H as (Hk & Hl & Hc & Hd & Hbefore).
    split; [lia|]. replace (i - k) with (S (i - S k)) by lia.
    split; [exact Hl|]. split; [exact Hc|]. split; [exact Hd|].
    intros [|j] tid' t' Hj Hl' Hc'; cbn in Hl'.
    + injection Hl' as <- <-. apply andb_false_iff in E as [E|E].
      * apply bool_decide_eq_false in E. done.
      * by apply negb_false_iff in E.
    + apply (Hbefore j tid' t'); [lia | exact Hl' | exact Hc'].
Qed.

Lemma cancel_loop_lookup h ls h' tid st :
  ls !! h' = Some (tid, st) -> exists st', V2Hook.cancel_loop h ls !! h' = Some (tid, st').
Proof.
  intros Hl. unfold V2Hook.cancel_loop.
  destruct (ls !! h) as [[tid0 st0]|] eqn:Hh; [|eauto].
  destruct st0; eauto.
  destruct (decide (h = h')) as [<-|Hne].
  - rewrite list_lookup_insert_eq by (eapply lookup_lt_Some; eauto).
    assert (tid0 = tid) as -> by congruence. eauto.
  - rewrite list_lookup_insert_ne by done. eauto.
Qed.

Lemma cancel_loop_sleeping h ls h' tid :
  V2Hook.cancel_loop h ls !! h' = Some (tid, Sleeping) ->
  h' <> h /\ ls !! h' = Some (tid, Sleeping).
Proof.
  unfold V2Hook.cancel_loop. intros Hl.
  destruct (decide (h' = h)) as [->|Hne].
  - exfalso. destruct (ls !! h) as [[tid0 st0]|] eqn:Hh; [|congruence].
    destruct st0; try congruence.
    rewrite list_lookup_insert_eq in Hl by (eapply lookup_lt_Some; eauto). congruence.
  - split; [exact Hne|]. destruct (ls !! h) as [[tid0 st0]|] eqn:Hh; [|exact Hl].
    destruct st0; try exact Hl. by rewrite list_lookup_insert_ne in Hl.
Qed.

Lemma keys_insert_same {V} (ts : list (string * V)) i tid v v' :
  ts !! i = Some (tid, v) -> (<[i := (tid, v')]> ts).*1 = ts.*1.
Proof.
  intros Hi. rewrite list_fmap_insert. cbn [fst].
  apply list_insert_id. by rewrite list_lookup_fmap, Hi.
Qed.

Lemma elem_of_insert_other {V} (ts : list (string * V)) i tid v v' tid' t' :
  ts !! i = Some (tid, v) -> tid' <> tid -> (tid', t') ∈ ts ->
  (tid', t') ∈ <[i := (tid, v')]> ts.
Proof.
  intros Hi Hne Hin. apply list_elem_of_lookup in Hin as [j Hj].
  apply list_elem_of_lookup. exists j. rewrite list_lookup_insert_ne; [exact Hj|].
  intros <-. congruence.
Qed.

(** The state after the task at place [i] is closed and its reminder
    popped and cancelled. *)
Lemma closing_Tidy s i tid t :
  V2Hook.tasks s !! i = Some (tid, t) -> Tidy s ->
  Tidy (V2Hook.pop_reminder tid
          (V2Hook.with_tasks (fun ts => <[i := (tid, V2Hook.close t)]> ts) s)).
Proof.
  intros Hi [H1 H2 H3 H4]. unfold V2Hook.pop_reminder. cbn [V2Hook.active_reminders V2Hook.with_tasks].
  destruct (V2Hook.active_reminders s !! tid) as [h|] eqn:Ha.
  - split; cbn [V2Hook.tasks V2Hook.active_reminders V2Hook.loops V2Hook.world V2Hook.with_tasks].
    + by rewrite (keys_insert_same _ _ _ _ _ Hi).
    + rewrite (keys_insert_same _ _ _ _ _ Hi). exact H2.
    + intros tid' h' Hl. destruct (decide (tid' = tid)) as [->|Hne].
      { by rewrite lookup_delete_eq in Hl. }
      rewrite lookup_delete_ne in Hl by done.
      destruct (H3 tid' h' Hl) as ((st & Hst) & t' & Hin & Hd). split.
      * by eapply cancel_loop_lookup.
      * exists t'. split; [|exact Hd]. by eapply elem_of_insert_other.
    + intros h' tid' Hl. apply cancel_loop_sleeping in Hl as [Hne Hl].
      pose proof (H4 h' tid' Hl) as Hreg.
      rewrite lookup_delete_ne; [exact Hreg|]. intros <-. congruence.
  - split; cbn [V2Hook.tasks V2Hook.active_reminders V2Hook.loops V2Hook.world V2Hook.with_tasks].
    + by rewrite (keys_insert_same _ _ _ _ _ Hi).
    + rewrite (keys_insert_same _ _ _ _ _ Hi). exact H2.
    + intros tid' h' Hl. destruct (H3 tid' h' Hl) as (Hst & t' & Hin & Hd).
      split; [exact Hst|]. exists t'. split; [|exact Hd].
      eapply elem_of_insert_other; [exact Hi | | exact Hin]. intros ->. congruence.
    + exact H4.
Qed.

Lemma on_done_sustains c : sustains Tidy (V2Hook.on_done c) (fun _ => Tidy).
Proof.
  intros s Hs. unfold V2Hook.on_done. unfold mbind at 1. unfold V2Hook.SM_bind, V2Hook.get.
  destruct (V2Hook.first_open c (V2Hook.tasks s) 0) as [[i [tid t]]|] eqn:Hf.
  - apply first_open_Some in Hf as (_ & Hi & _). rewrite Nat.sub_0_r in Hi.
    unfold mbind, V2Hook.SM_bind, V2Hook.mutate.
    apply (sustains_lift_Tidy _ (send_message_quiet c _ None)).
    by apply closing_Tidy.
  - by apply (sustains_lift_Tidy _ (send_message_quiet c _ None)).
Qed.

Lemma on_stuck_sustains c : sustains Tidy (V2Hook.on_stuck c) (fun _ => Tidy).
Proof.
  intros s Hs. unfold V2Hook.on_stuck. unfold mbind at 1. unfold V2Hook.SM_bind, V2Hook.get.
  destruct (V2Hook.first_open c (V2Hook.tasks s) 0) as [[i [tid t]]|] eqn:Hf.
  - revert s Hs Hf. intros s Hs _. revert s Hs.
    eapply sustains_bind; [apply sustains_lift_Tidy, coach_reply_quiet|].
    intros tip. apply sustains_lift_Tidy, send_message_quiet.
  - by apply (sustains_lift_Tidy _ (send_message_quiet c _ None)).
Qed.

Lemma dict_set_fresh {V} (k : string) (v : V) d :
  k ∉ d.*1 -> V2Hook.dict_set k v d = (d ++ [(k, v)])%list.
Proof.
  induction d as [|[k' v'] d IH]; intros Hk; [reflexivity|].
  cbn [V2Hook.dict_set]. cbn in Hk. apply not_elem_of_cons in Hk as [Hne Hk].
  destruct (String.eqb k' k) eqn:E.
  - apply String.eqb_eq in E. congruence.
  - cbn. by rewrite IH.
Qed.

Lemma uuid4_sustains : sustains Tidy (V2Hook.lift uuid4) Unused.
Proof.
  intros s Hs. cbn.
  assert (Ht : Tidy (V2Hook.lift uuid4 s).2).
  { revert Hs. apply Tidy_world; try reflexivity. cbn. lia. }
  split; [exact Ht|]. split.
  - intros Hin. destruct (tidy_fresh s Hs _ Hin) as (n & Hn & E).
    apply pretty_nat_inj in E. lia.
  - exists (uuids (V2Hook.world s)). split; [cbn; lia | reflexivity].
Qed.

Lemma store_task_sustains tid t :
  V2.done t = false ->
  sustains (Unused tid) (V2Hook.mutate (V2Hook.with_tasks (V2Hook.dict_set tid t)))
    (fun _ => Pending tid).
Proof.
  intros Hd s ([H1 H2 H3 H4] & Hk & n & Hn & En).
  unfold V2Hook.mutate, V2Hook.with_tasks. cbv beta iota.
  rewrite (dict_set_fresh _ _ _ Hk).
  assert (Hnone : V2Hook.active_reminders s !! tid = None).
  { destruct (V2Hook.active_reminders s !! tid) as [h|] eqn:Ha; [|done].
    destruct (H3 tid h Ha) as (_ & t' & Hin & _). exfalso. apply Hk.
    apply (list_elem_of_fmap_2 fst) in Hin. exact Hin. }
  split; [|split; [|exact Hnone]].
  - split; cbn [V2Hook.tasks V2Hook.active_reminders V2Hook.loops V2Hook.world V2Hook.with_tasks].
    + rewrite fmap_app. cbn. apply NoDup_app. split; [exact H1|].
      split; [|apply NoDup_singleton].
      intros x Hx Hx'. apply list_elem_of_singleton in Hx'. by subst.
    + intros tid' Hin. rewrite fmap_app in Hin. cbn in Hin.
      apply elem_of_app in Hin as [Hin|Hin]; [by apply H2|].
      apply list_elem_of_singleton in Hin. subst tid'. eauto.
    + intros tid' h Ha. destruct (H3 tid' h Ha) as (Hst & t' & Hin & Hd').
      split; [exact Hst|]. exists t'. split; [|exact Hd']. apply elem_of_app. by left.
    + exact H4.
  - exists t. split; [|exact Hd]. cbn. apply elem_of_app. right. by apply list_elem_of_singleton.
Qed.

Lemma register_sustains tid :
  sustains (Pending tid)
    (V2Hook.create_task tid ≫= fun h =>
     V2Hook.mutate (fun s => V2Hook.mkState (V2Hook.tasks s)
                               (<[tid := h]> (V2Hook.active_reminders s))
                               (V2Hook.loops s) (V2Hook.world s)))
    (fun _ => Tidy).
Proof.
  intros s ([H1 H2 H3 H4] & (t & Hin & Hd) & Hnone). cbn.
  split; cbn [V2Hook.tasks V2Hook.active_reminders V2Hook.loops V2Hook.world].
  - exact H1.
  - exact H2.
  - intros tid' h Ha. destruct (decide (tid' = tid)) as [->|Hne].
    + rewrite lookup_insert_eq in Ha. injection Ha as <-. split; [|eauto].
      exists Sleeping. rewrite lookup_app_r by lia. by rewrite Nat.sub_diag.
    + rewrite lookup_insert_ne in Ha by done.
      destruct (H3 tid' h Ha) as ((st & Hst) & Htask). split; [|exact Htask].
      exists st. by apply lookup_app_l_Some.
  - intros h tid' Hl. destruct (decide (h < length (V2Hook.loops s))) as [Hlt|Hge].
    + rewrite lookup_app_l in Hl by exact Hlt. pose proof (H4 h tid' Hl) as Ha.
      rewrite lookup_insert_ne; [exact Ha|]. intros <-. congruence.
    + rewrite lookup_app_r in Hl by lia.
      destruct (h - length (V2Hook.loops s)) as [|k] eqn:E; [|by destruct k].
      injection Hl as <-. assert (h = length (V2Hook.loops s)) as -> by lia.
      apply lookup_insert_eq.
Qed.

Lemma on_new_task_sustains c text : sustains Tidy (V2Hook.on_new_task c text) (fun _ => Tidy).
Proof.
  unfold V2Hook.on_new_task.
  eapply sustains_bind; [apply uuid4_sustains|]. intros tid.
  eapply sustains_bind; [by apply store_task_sustains|]. intros ?.
  eapply sustains_bind; [apply sustains_lift_Pending, coach_reply_quiet|]. intros ack.
  eapply sustains_bind; [apply sustains_lift_Pending, send_message_quiet|]. intros ?.
  apply register_sustains.
Qed.

Lemma on_text_sustains c text : sustains Tidy (V2Hook.on_text c text) (fun _ => Tidy).
Proof.
  unfold V2Hook.on_text.
  destruct (String.eqb (PyStr.lower text) "/start").
  { eapply sustains_bind; [apply sustains_lift_Tidy, send_message_quiet|].
    intros ?. apply sustains_ret. }
  destruct (existsb _ _).
  { eapply sustains_bind; [apply on_done_sustains | intros ?; apply sustains_ret]. }
  destruct (String.eqb (PyStr.lower text) "stuck").
  { eapply sustains_bind; [apply on_stuck_sustains | intros ?; apply sustains_ret]. }
  eapply sustains_bind; [apply on_new_task_sustains | intros ?; apply sustains_ret].
Qed.

Lemma telegram_webhook_sustains req :
  sustains Tidy (V2Hook.telegram_webhook req) (fun _ => Tidy).
Proof.
  unfold V2Hook.telegram_webhook.
  eapply sustains_bind with (Q := fun _ => Tidy).
  { intros s Hs. destruct req; cbn; by destruct s. }
  intros upd. destruct (message upd) as [m|]; [|apply sustains_ret].
  destruct (msg_text m) as [text|]; [|apply sustains_ret].
  destruct (PyStr.nonempty text); [apply on_text_sustains | apply sustains_ret].
Qed.

Lemma set_status_Tidy h st s :
  st <> Sleeping -> Tidy s -> Tidy (V2Hook.set_status h st s).
Proof.
  intros Hst [H1 H2 H3 H4].
  split; cbn [V2Hook.set_status V2Hook.tasks V2Hook.active_reminders V2Hook.loops V2Hook.world];
    try assumption.
  - intros tid h' Ha. destruct (H3 tid h' Ha) as ((st' & Hl) & Htask). split; [|exact Htask].
    destruct (V2Hook.loops s !! h) as [[tid0 st0]|] eqn:Hh; [|eauto].
    destruct (decide (h = h')) as [<-|Hne].
    + rewrite list_lookup_insert_eq by (eapply lookup_lt_Some; eauto).
      assert (tid0 = tid) as -> by congruence. eauto.
    + rewrite list_lookup_insert_ne by done. eauto.
  - intros h' tid Hl. apply H4.
    destruct (V2Hook.loops s !! h) as [[tid0 st0]|] eqn:Hh; [|exact Hl].
    destruct (decide (h = h')) as [<-|Hne].
    + rewrite list_lookup_insert_eq in Hl by (eapply lookup_lt_Some; eauto). congruence.
    + by rewrite list_lookup_insert_ne in Hl.
Qed.

Lemma V2_fire_Tidy h s : Tidy s -> Tidy (V2Hook.fire h s).
Proof.
  intros Hs. unfold V2Hook.fire.
  destruct (V2Hook.loops s !! h) as [[tid st]|]; [|exact Hs].
  destruct st; try exact Hs.
  pose proof (lift_quiet_Tidy _ s (V2_reminder_loop_quiet (V2Hook.tasks_map s) tid) Hs) as H.
  destruct (V2Hook.lift _ s) as [[[|]|e] s']; cbn [snd] in H.
  - exact H.
  - by apply set_status_Tidy.
  - by apply set_status_Tidy.
Qed.

Lemma V2_deliver_Tidy h s : Tidy s -> Tidy (V2Hook.deliver h s).
Proof.
  intros Hs. unfold V2Hook.deliver.
  destruct (V2Hook.loops s !! h) as [[tid st]|]; [|exact Hs].
  destruct st; try exact Hs. by apply set_status_Tidy.
Qed.

Lemma V2_step_Tidy ev s : Tidy s -> Tidy (V2Hook.step ev s).
Proof.
  intros Hs. destruct ev as [req|h|h]; cbn [V2Hook.step].
  - pose proof (telegram_webhook_sustains req s Hs) as H.
    by destruct (V2Hook.telegram_webhook req s) as [[a|e] s'].
  - by apply V2_fire_Tidy.
  - by apply V2_deliver_Tidy.
Qed.

Lemma V2_run_Tidy evs s : Tidy s -> Tidy (V2Hook.run evs s).
Proof.
  revert s. induction evs as [|ev evs IH]; intros s Hs; [exact Hs|].
  apply IH, V2_step_Tidy, Hs.
Qed.

Lemma V2_init_Tidy env : Tidy (V2Hook.init env).
Proof.
  split; cbn.
  - constructor.
  - intros tid Hin. by apply elem_of_nil in Hin.
  - intros tid h Hl. by rewrite lookup_empty in Hl.
  - intros h tid Hl. by rewrite lookup_nil in Hl.
Qed.

Lemma reminder_loop_goes_round (ts : gmap string V2.task) tid t w :
  ts !! tid = Some t -> V2.done t = false ->
  (V2.reminder_loop ts tid w).1 = Ok true.
Proof.
  intros Ht Hd. unfold V2.reminder_loop. rewrite Ht, Hd.
  unfold V2.try_except, mbind, M_bind.
  destruct (V2.coach_reply_remind (V2.text t) w) as [[msg|e] w1]; [|reflexivity].
  by destruct (await _ w1) as [[?|?] w2].
Qed.

(** X14. In every state v0.2 reaches, a reminder loop that can fire is
    the one registered in [active_reminders] for its task, the only one
    of that task, and the task is stored and not done: a closed task is
    never nudged. When the loop fires it goes round again, whatever the
    collaborators do. *)
Theorem V2_live_loop_has_open_task (env : nat -> outcome) (evs : list event)
    (h : nat) (tid : string) :
  let s := V2Hook.run evs (V2Hook.init env) in
  V2Hook.loops s !! h = Some (tid, Sleeping) ->
  V2Hook.active_reminders s !! tid = Some h
  /\ (forall h', V2Hook.loops s !! h' = Some (tid, Sleeping) -> h' = h)
  /\ (exists t, V2Hook.tasks_map s !! tid = Some t /\ V2.done t = false)
  /\ V2Hook.loops (V2Hook.fire h s) !! h = Some (tid, Sleeping).
Proof.
  intros s Hl. pose proof (V2_run_Tidy evs _ (V2_init_Tidy env)) as Hs. fold s in Hs.
  pose proof (tidy_sleeping s Hs h tid Hl) as Ha.
  destruct (tidy_registered s Hs tid h Ha) as (_ & t & Hin & Hd).
  assert (Ht : V2Hook.tasks_map s !! tid = Some t).
  { apply elem_of_list_to_map_1; [apply Hs | exact Hin]. }
  split; [exact Ha|]. split.
  { intros h' Hl'. pose proof (tidy_sleeping s Hs h' tid Hl'). congruence. }
  split; [eauto|].
  unfold V2Hook.fire. rewrite Hl.
  pose proof (reminder_loop_goes_round _ tid t (V2Hook.world s) Ht Hd) as Hr.
  unfold V2Hook.lift. rewrite Hr. exact Hl.
Qed.

Lemma V2_live_loop_has_open_task_witness :
  let s := V2Hook.run [Webhook (text_message 7 "Write report")] (V2Hook.init all_fine) in
  V2Hook.active_reminders s !! "0" = Some 0
  /\ V2Hook.loops (V2Hook.fire 0 s) !! 0 = Some ("0", Sleeping).
Proof.
  destruct (V2_live_loop_has_open_task all_fine [Webhook (text_message 7 "Write report")]
              0 "0") as (Ha & _ & _ & Hf).
  - vm_compute. reflexivity.
  - cbv zeta. split; [exact Ha | exact Hf].
Defined.






(** * Working a queue off *)

Lemma worked_ids k ts : map t_id (worked k ts) = map t_id ts.
Proof.
  unfold worked. rewrite map_app, map_map. cbn [set_done t_id].
  rewrite <- map_app. by rewrite take_drop.
Qed.

Lemma worked_length k ts : length (worked k ts) = length ts.
Proof. unfold worked. rewrite length_app, length_map, <- length_app. by rewrite take_drop. Qed.

Lemma worked_lookup_open k ts i :
  k <= i -> worked k ts !! i = ts !! i.
Proof.
  intros Hk. unfold worked. destruct (decide (k <= length ts)) as [Hle|Hgt].
  - rewrite lookup_app_r by (rewrite length_map, length_take; lia).
    rewrite length_map, length_take, lookup_drop. f_equal. lia.
  - rewrite drop_ge by lia. rewrite app_nil_r.
    rewrite (lookup_ge_None_2 ts) by lia.
    apply lookup_ge_None_2. rewrite length_map, length_take. lia.
Qed.

Lemma worked_lookup_done k ts i t :
  i < k -> worked k ts !! i = Some t -> t_done t = true.
Proof.
  intros Hi Hl. unfold worked in Hl.
  destruct (decide (i < length (take k ts))) as [Hlt|Hge].
  - rewrite lookup_app_l in Hl by (by rewrite length_map).
    rewrite list_lookup_fmap in Hl. destruct (take k ts !! i); [|done].
    by injection Hl as <-.
  - rewrite length_take in Hge.
    apply lookup_lt_Some in Hl. rewrite length_app, length_map, length_take, length_drop in Hl.
    lia.
Qed.

Lemma worked_S k ts t :
  ts !! k = Some t -> <[k := set_done t]> (worked k ts) = worked (S k) ts.
Proof.
  intros Hk. pose proof (lookup_lt_Some _ _ _ Hk) as Hlt. unfold worked.
  rewrite insert_app_r_alt by (rewrite length_map, length_take; lia).
  rewrite length_map, length_take. replace (k - k `min` length ts) with 0 by lia.
  rewrite (drop_S _ _ _ Hk). cbn [insert list_insert].
  rewrite (take_S_r _ _ _ Hk), map_app. cbn [map]. by rewrite <- app_assoc.
Qed.

Lemma advance_worked k ts p :
  Forall (fun t => t_done t = false) ts -> p <= k -> k <= length ts ->
  advance (length (worked k ts)) (worked k ts) p = k.
Proof.
  intros Hopen Hp Hk.
  set (p' := advance (length (worked k ts)) (worked k ts) p).
  pose proof (advance_ge (length (worked k ts)) (worked k ts) p) as Hge.
  assert (Hend : p' <= length (worked k ts)).
  { apply advance_end. rewrite worked_length. lia. }
  rewrite worked_length in Hend. fold p' in Hge.
  destruct (decide (p' < k)) as [Hlt|Hnlt].
  - exfalso. destruct (lookup_lt_is_Some_2 (worked k ts) p') as [t Ht].
    { rewrite worked_length. lia. }
    pose proof (worked_lookup_done _ _ _ _ Hlt Ht) as Hd.
    assert (t_done t = false); [|congruence].
    apply (advance_stops (length (worked k ts)) (worked k ts) p); [lia | exact Ht].
  - destruct (decide (p' = k)) as [E|Hne]; [exact E|]. exfalso.
    destruct (lookup_lt_is_Some_2 ts k) as [t Ht]; [lia|].
    assert (Hdone : t_done t = true).
    { apply (advance_skipped (length (worked k ts)) (worked k ts) p k t).
      - fold p'. lia.
      - by rewrite worked_lookup_open. }
    rewrite Forall_lookup in Hopen. specialize (Hopen k t Ht). cbn in Hopen. congruence.
Qed.

Lemma progress_app c l l' : progress c (l ++ l') = (progress c l ++ progress c l')%list.
Proof. apply flat_map_app. Qed.

Lemma report_other c c' t kb :
  String.eqb t complete_text = false -> report c (SendMessage c' t kb) = [].
Proof.
  intros H. unfold report. destruct kb; [reflexivity|]. by rewrite H, andb_false_r.
Qed.

Section Working.
Context (c : Z) (ts : list Task).

Lemma await_working e k p L :
  total (Working c ts k p L) (fun _ => Working c ts k p (L ++ report c e)) (await e).
Proof.
  intros w (Ho & Hl & Hu). unfold await. pose proof (Ho (calls w)) as Hc.
  destruct (oracle w (calls w)) as [r|] eqn:E; [|done].
  exists r, (emit e (tick w)). split; [reflexivity|].
  split; [exact Ho|]. split; [|exact Hu].
  fields. rewrite progress_app, Hl. cbn. by rewrite app_nil_r.
Qed.

Lemma send_message_working c' t kb k p L :
  report c (SendMessage c' t kb) = [] ->
  total (Working c ts k p L) (fun _ => Working c ts k p L) (send_message c' t kb).
Proof.
  intros Hr. eapply total_bind; [apply await_working|]. intros ?.
  eapply total_post; [apply total_ret|]. intros ? ? [_ H].
  by rewrite Hr, app_nil_r in H.
Qed.

Lemma answer_callback_query_working q k p L :
  total (Working c ts k p L) (fun _ => Working c ts k p L) (answer_callback_query q).
Proof.
  eapply total_bind; [apply await_working|]. intros ?.
  eapply total_post; [apply total_ret|]. intros ? ? [_ H].
  by rewrite app_nil_r in H.
Qed.

Lemma gpt_coach_working content k p L :
  total (Working c ts k p L) (fun _ => Working c ts k p (L ++ [content]))
    (gpt "coach" content).
Proof.
  eapply total_bind; [apply await_working|]. intros r.
  eapply total_post; [apply total_ret|]. by intros ? ? [_ H].
Qed.

Lemma arm_working tid k p L :
  total (Working c ts k p L) (fun _ => Working c ts k p L)
    (create_task c tid ≫= set_reminder c).
Proof.
  intros w (Ho & Hl & u & Hu & Ht & Hp). rewrite (arm_eq _ _ _ _ Hu).
  eexists _, _. split; [reflexivity|]. split; [exact Ho|]. split.
  - unfold armed. fields. rewrite progress_app, Hl. cbn. by rewrite app_nil_r.
  - unfold armed. fields. rewrite lookup_insert_eq. eauto.
Qed.

Lemma marked_done_log u i t w :
  oracle (marked_done c u i t w) = oracle w
  /\ progress c (log (marked_done c u i t w)) = progress c (log w).
Proof.
  unfold marked_done, cancel_stored. destruct (reminder u) as [rem|]; [|by fields].
  destruct (is_cancelled rem w); [by fields|]. fields. split; [reflexivity|].
  rewrite progress_app. cbn. by rewrite app_nil_r.
Qed.

Lemma mark_done_working t k p L :
  NoDup (map t_id ts) -> ts !! k = Some t ->
  total (Working c ts k p L) (fun _ => Working c ts (S k) p L) (mark_done c (t_id t)).
Proof.
  intros Hn Hk w (Ho & Hl & u & Hu & Ht & Hp). rewrite mark_done_eq, Hu.
  assert (Hf : find_task (t_id t) (tasks u) 0 = Some (k, t)).
  { apply (find_task_by_id (tasks u) 0 k t).
    - by rewrite Ht, worked_ids.
    - by rewrite Ht, worked_lookup_open. }
  rewrite Hf. eexists _, _. split; [reflexivity|].
  destruct (marked_done_log u k t w) as [Eo El].
  split; [intros n; rewrite Eo; apply Ho|]. split; [by rewrite El|].
  eexists. split; [rewrite marked_done_users; apply lookup_insert_eq|].
  cbn [tasks pointer]. split; [|exact Hp]. rewrite Ht. by apply worked_S.
Qed.

Lemma next_task_working k p L :
  Forall (fun t => t_done t = false) ts -> p <= k -> k <= length ts ->
  total (Working c ts k p L) (fun r w => r = ts !! k /\ Working c ts k k L w)
    (next_task c).
Proof.
  intros Hopen Hp Hk w (Ho & Hl & u & Hu & Ht & Hpu).
  rewrite (next_task_eq _ _ _ Hu). eexists _, _. split; [reflexivity|].
  rewrite Ht, Hpu, (advance_worked k ts p Hopen Hp Hk).
  split; [by apply worked_lookup_open|].
  split; [exact Ho|]. split; [exact Hl|].
  eexists. split; [fields; apply lookup_insert_eq|]. by cbn.
Qed.

(** One press of Done for the task at place [k], the first that is not
    done: the task is closed, the pointer moves to place [k + 1], and
    the coach is asked about the task there, or the list is complete. *)
Lemma done_press_working q t k p L :
  NoDup (map t_id ts) -> Forall (fun t => t_done t = false) ts ->
  ts !! k = Some t -> p <= k ->
  total (Working c ts k p L)
    (fun _ => Working c ts (S k) (S k)
                (L ++ match ts !! S k with
                      | Some t' => [focus_prompt t']
                      | None => [complete_text]
                      end))
    (telegram_webhook (press q c ("done:" ++ t_id t))).
Proof.
  intros Hn Hopen Hk Hp. pose proof (lookup_lt_Some _ _ _ Hk) as Hlt.
  unfold press. rewrite telegram_webhook_callback, on_callback_done.
  intros w Hw.
  assert (H : exists a w', (answer_callback_query q;;
                 (mark_done c (t_id t);;
                  send_message c "🎉 Task marked done!" None;;
                  start_focus c);;
                 mret ok_true) w = (Ok a, w')
              /\ Working c ts (S k) (S k)
                   (L ++ match ts !! S k with
                         | Some t' => [focus_prompt t']
                         | None => [complete_text]
                         end) w').
  { revert w Hw.
    eapply total_bind; [apply answer_callback_query_working|]. intros ?.
    eapply total_bind with
      (Q := fun _ => Working c ts (S k) (S k)
                       (L ++ match ts !! S k with
                             | Some t' => [focus_prompt t']
                             | None => [complete_text]
                             end)).
    2: { intros ?. eapply total_post; [apply total_ret|]. by intros ? ? [_ H]. }
    eapply total_bind; [by apply mark_done_working|]. intros ?.
    eapply total_bind; [by apply send_message_working, report_other|]. intros ?.
    unfold start_focus.
    eapply total_bind; [apply next_task_working; [exact Hopen | lia | lia]|].
    intros r w [-> Hw]. revert w Hw.
    destruct (ts !! S k) as [t'|].
    - eapply total_bind; [apply gpt_coach_working|]. intros msg.
      eapply total_bind; [by apply send_message_working|]. intros ?.
      apply arm_working.
    - eapply total_bind; [apply await_working|]. intros ?.
      eapply total_post; [apply total_ret|]. intros ? ? [_ H].
      cbn in H. by rewrite bool_decide_eq_true_2 in H. }
  destruct H as (a & w' & E & HW). exists a, w'. split; [|exact HW].
  unfold coroutine. by rewrite E.
Qed.
End Working.

Lemma worked_all k ts : length ts <= k -> worked k ts = map set_done ts.
Proof.
  intros Hk. unfold worked. rewrite take_ge, drop_ge by lia. apply app_nil_r.
Qed.

Lemma done_presses_working c q ts :
  NoDup (map t_id ts) -> Forall (fun t => t_done t = false) ts ->
  forall rest k p L w,
    drop k ts = rest -> p <= k -> Working c ts k p L w ->
    exists p',
      Working c ts (length ts) p'
        (L ++ map focus_prompt (drop (S k) ts)
           ++ match rest with [] => [] | _ => [complete_text] end)
        (run (map (done_press q c) rest) w)
      /\ (rest = [] -> p' = p) /\ (rest <> [] -> p' = length ts).
Proof.
  intros Hn Hopen. induction rest as [|t rest IH]; intros k p L w Hd Hp Hw.
  - assert (Hk : length ts <= k).
    { apply (f_equal length) in Hd. rewrite length_drop in Hd. cbn in Hd. lia. }
    exists p. split; [|done]. cbn [map run foldl].
    rewrite drop_ge by lia. cbn [map app]. rewrite app_nil_r.
    destruct Hw as (Ho & Hl & u & Hu & Ht & Hpu).
    split; [exact Ho|]. split; [exact Hl|]. exists u. split; [exact Hu|].
    split; [|exact Hpu]. rewrite Ht. by rewrite !worked_all by lia.
  - assert (Hk : ts !! k = Some t).
    { pose proof (lookup_drop ts k 0) as H. rewrite Hd, Nat.add_0_r in H. by symmetry. }
    assert (Hd' : drop (S k) ts = rest).
    { rewrite (drop_S _ _ _ Hk) in Hd. by injection Hd. }
    destruct (done_press_working c ts q t k p L Hn Hopen Hk Hp w Hw) as (a & w1 & E & Hw1).
    cbn [map run foldl]. fold (run (map (done_press q c) rest) (step (done_press q c t) w)).
    unfold done_press at 2. cbn [step]. rewrite E. cbn [snd].
    destruct (IH (S k) (S k) _ w1 Hd' ltac:(lia) Hw1) as (p' & Hw' & Hnil & Hcons).
    exists (length ts). split; [|split; [done | reflexivity]].
    assert (Ep : p' = length ts).
    { destruct rest as [|t' rest']; [|by apply Hcons].
      rewrite (Hnil eq_refl). apply (f_equal length) in Hd'. rewrite length_drop in Hd'.
      cbn in Hd'. pose proof (lookup_lt_Some _ _ _ Hk). lia. }
    rewrite Ep in Hw'. clear Hnil Hcons.
    replace (L ++ map focus_prompt (drop (S k) ts) ++ [complete_text])%list
      with ((L ++ match ts !! S k with
                  | Some t' => [focus_prompt t']
                  | None => [complete_text]
                  end)
            ++ map focus_prompt (drop (S (S k)) ts)
            ++ match rest with [] => [] | _ => [complete_text] end)%list; [exact Hw'|].
    rewrite <- app_assoc. f_equal.
    destruct (ts !! S k) as [t'|] eqn:Hk'.
    + rewrite (drop_S _ _ _ Hk') in Hd' |- *. subst rest. reflexivity.
    + apply lookup_ge_None in Hk'. rewrite !drop_ge by lia.
      rewrite drop_ge in Hd' by lia. subst rest. reflexivity.
Qed.

Lemma run_app evs evs' w : run (evs ++ evs') w = run evs' (run evs w).
Proof. apply foldl_app. Qed.

(** X17. Handlers running one at a time, from any world the program
    reaches in which the collaborators answer and a chat has a queue
    with nothing done yet: pressing Done on the tasks in the order of
    the queue closes them one after the other. Each press puts the next task in focus, so the coach is asked
    about the tasks in queue order, and the last press is answered with
    the completion message. At the end every task is done, the pointer
    is past the queue and no reminder of the chat can fire. *)
Theorem done_presses_walk_the_queue (env : nat -> outcome) (evs : list event)
    (c : Z) (q : string) (u : User) :
  let w := run evs (init env) in
  let w' := run (map (done_press q c) (tasks u)) w in
  healthy w -> users w !! c = Some u ->
  Forall (fun t => t_done t = false) (tasks u) -> tasks u <> [] ->
  (exists u', users w' !! c = Some u'
              /\ tasks u' = map set_done (tasks u)
              /\ pointer u' = length (tasks u))
  /\ progress c (log w')
     = (progress c (log w) ++ map focus_prompt (drop 1 (tasks u)) ++ [complete_text])%list
  /\ (forall h tm, timers w' !! h = Some tm -> tm_chat tm = c -> tm_status tm <> Sleeping).
Proof.
  intros w w' Ho Hu Hopen Hne.
  destruct (run_sound evs _ (init_sound env) c u Hu) as [Hn Hin Hpassed].
  assert (Hp : pointer u = 0).
  { destruct (pointer u) as [|p] eqn:Ep; [reflexivity|]. exfalso.
    destruct (lookup_lt_is_Some_2 (tasks u) 0) as [t Ht]; [lia|].
    pose proof (Hpassed 0 t ltac:(lia) Ht) as Hd.
    rewrite Forall_lookup in Hopen. specialize (Hopen 0 t Ht). cbn in Hopen. congruence. }
  assert (Hw : Working c (tasks u) 0 0 (progress c (log w)) w).
  { split; [exact Ho|]. split; [reflexivity|]. exists u. split; [exact Hu|].
    split; [|exact Hp]. unfold worked. by rewrite take_0, drop_0. }
  destruct (done_presses_working c q (tasks u) Hn Hopen (tasks u) 0 0 _ w
              (drop_0 _) ltac:(lia) Hw) as (p' & Hw' & _ & Hcons).
  fold w' in Hw'. rewrite (Hcons Hne) in Hw'. clear Hcons.
  assert (Em : match tasks u with [] => [] | _ => [complete_text] end = [complete_text]).
  { by destruct (tasks u). }
  rewrite Em in Hw'. clear Em.
  destruct Hw' as (_ & Hl & u' & Hu' & Ht' & Hp').
  rewrite worked_all in Ht' by lia.
  split; [eauto|]. split; [exact Hl|].
  intros h tm Hh Hc Hs.
  destruct (run_Steady (evs ++ map (done_press q c) (tasks u)) _ (init_Steady env))
    as [_ Hf].
  rewrite run_app in Hf. fold w in Hf. fold w' in Hf.
  destruct (Hf h tm Hh Hs) as (u2 & t & Hu2 & Hpt & _).
  rewrite Hc, Hu' in Hu2. injection Hu2 as <-.
  apply lookup_lt_Some in Hpt. rewrite Ht', length_map, Hp' in Hpt. lia.
Qed.

Lemma done_presses_walk_the_queue_witness :
  let w := run [Webhook (text_message 7 two_goals)] (init all_fine) in
  let w' := run [Webhook (press "q" 7 "done:0"); Webhook (press "q" 7 "done:1")] w in
  progress 7 (log w')
  = ["Start focusing on: Write report"; "Start focusing on: Call Bob"; complete_text].
Proof.
  destruct (done_presses_walk_the_queue all_fine [Webhook (text_message 7 two_goals)]
              7 "q" (mkUser two_tasks 0 (Some 0))) as (_ & Hl & _).
  - intros n. vm_compute. discriminate.
  - vm_compute. reflexivity.
  - repeat constructor.
  - discriminate.
  - cbv zeta. exact Hl.
Defined.

(** * A button pressed in a chat without a session *)

(** X18. A Done or Stuck button pressed in a chat that has no session
    (the store is in memory only, so every chat after a restart): the
    callback is answered, then [users[chat_id]] raises [KeyError], which
    leaves the handler. Nothing is sent to the chat, and no session, no
    timer and no id changes; the same press fails the same way again. *)
Theorem button_without_session_raises (w : World) (c : Z) (q tid : string) (r : string) :
  users w !! c = None ->
  oracle w (calls w) = Succeeds r ->
  let w' := emit (AnswerCallback q) (tick w) in
  telegram_webhook (press q c ("done:" ++ tid)) w = (Raise KeyError, w')
  /\ telegram_webhook (press q c ("stuck:" ++ tid)) w = (Raise KeyError, w')
  /\ users w' = users w /\ timers w' = timers w /\ uuids w' = uuids w
  /\ users w' !! c = None.
Proof.
  intros Hu Hr w'. unfold press. rewrite !telegram_webhook_callback.
  rewrite on_callback_stuck, on_callback_done.
  unfold coroutine, mbind, M_bind.
  rewrite (answer_callback_query_ok _ _ _ Hr).
  rewrite get_task_eq, mark_done_eq. fold w'.
  assert (Hu' : users w' !! c = None) by exact Hu.
  rewrite Hu'. repeat split; reflexivity || exact Hu.
Qed.

Lemma button_without_session_raises_witness :
  telegram_webhook (press "q" 7 "done:0") (init all_fine)
  = (Raise KeyError, emit (AnswerCallback "q") (tick (init all_fine))).
Proof.
  exact (proj1 (button_without_session_raises (init all_fine) 7 "q" "0" "go"
                  eq_refl eq_refl)).
Defined.

(** * Coroutines that overlap *)

Lemma finish_then {A B} (x : Overlap.Res A) (f : A -> Overlap.Co B) :
  Overlap.finish (Overlap.then_ x f) =
  match Overlap.finish x with
  | (Ok a, w) => Overlap.finish (f a w)
  | (Raise e, w) => (Raise e, w)
  end.
Proof. induction x as [[a|e] w|w k IH]; cbn; [reflexivity..|apply IH]. Qed.


Lemma serial_bind {A B} (c : Overlap.Co A) (m : M A)
    (kc : A -> Overlap.Co B) (km : A -> M B) :
  serial_of c m -> (forall a, serial_of (kc a) (km a)) ->
  serial_of (c ≫= kc) (m ≫= km).
Proof.
  intros Hc Hk w. unfold mbind at 1, Overlap.Co_bind.
  rewrite finish_then, Hc, bind_run.
  destruct (m w) as [[a|e] w']; [apply Hk | reflexivity].
Qed.

Lemma serial_now {A} (m : M A) : serial_of (Overlap.now m) m.
Proof. intros w. unfold Overlap.now. cbn. by destruct (m w). Qed.

Lemma serial_ret {A} (a : A) : serial_of (mret a) (mret a).
Proof. intros w. reflexivity. Qed.

Lemma serial_await e : serial_of (Overlap.await e) (await e).
Proof. intros w. unfold Overlap.await. cbn [Overlap.finish]. apply serial_now. Qed.


Lemma serial_send_message c t k :
  serial_of (Overlap.send_message c t k) (send_message c t k).
Proof. apply serial_bind; [apply serial_await | intros ?; apply serial_ret]. Qed.








(** C1. The code does not keep it when two handlers of a session
    overlap. Chat 7 works on the first of two tasks, its reminder 0
    asleep, and presses Done twice; the second handler starts while the
    first waits. Both mark the task and find timer 0 cancelled or cancel
    it; both then move on to the second task, and each arms a reminder
    for it and stores the handle, the second over the first. Two timers
    of the chat can fire, the one stored and one that nothing refers to;
    three were armed and one cancelled, and timer 1 was not cancelled
    when timer 2 was armed. *)
Theorem double_tap_leaves_two_timers :
  let l := Overlap.run double_tap (Overlap.start active_session) in
  Overlap.jobs l = [Overlap.Over (Ok ok_true); Overlap.Over (Ok ok_true)]
  /\ users (Overlap.world l) !! 7%Z
     = Some (mkUser [mkTask "0" "Write report" "top" true;
                     mkTask "1" "Call Bob" "mid" false] 1 (Some 2))
  /\ timers (Overlap.world l)
     = [mkTimer 7 "0" Cancelled; mkTimer 7 "1" Sleeping; mkTimer 7 "1" Sleeping]
  /\ outstanding 7 (Overlap.world l) = 2
  /\ arms 7 (log (Overlap.world l)) = 3
  /\ cancels 7 (log (Overlap.world l)) = 1
  /\ log (Overlap.world l)
     = [Arm 7 0 "0";
        AnswerCallback "a"; Cancel 7 0; AnswerCallback "b";
        SendMessage 7 "🎉 Task marked done!" None;
        SendMessage 7 "🎉 Task marked done!" None;
        Gpt "coach" "Start focusing on: Call Bob";
        Gpt "coach" "Start focusing on: Call Bob";
        SendMessage 7 "go"
          (Some [mkButton "✅ Done" "done:1"; mkButton "🆘 Stuck" "stuck:1"]);
        Arm 7 1 "1";
        SendMessage 7 "go"
          (Some [mkButton "✅ Done" "done:1"; mkButton "🆘 Stuck" "stuck:1"]);
        Arm 7 2 "1"].
Proof. vm_compute. repeat split; reflexivity. Qed.

(** ** The morning prompt *)

Lemma prompt_keys_eq used keys w :
  Overlap.prompt_keys used keys w =
  if bool_decide (size (users w) = used) then
    match keys with
    | [] => Overlap.Ended (Ok tt) w
    | c :: rest =>
        Overlap.then_ (Overlap.send_message c morning_text None w)
          (fun _ => Overlap.prompt_keys used rest)
    end
  else Overlap.Ended (Raise RuntimeError) w.
Proof.
  destruct keys as [|c rest]; cbn [Overlap.prompt_keys];
    unfold mbind at 1, Overlap.Co_bind; cbn [Overlap.now gets Overlap.then_ fst snd];
    destruct (bool_decide (size (users w) = used)); reflexivity.
Qed.

Lemma prompts_elem c keys :
  SendMessage c morning_text None ∈ prompts keys <-> c ∈ keys.
Proof.
  unfold prompts. rewrite list_elem_of_fmap. split.
  - intros (c' & E & H). by injection E as ->.
  - intros H. by exists c.
Qed.

(** X12. With no other coroutine running during the round, the morning
    job sends the prompt to the chats with a session, in the order of
    the dict, one call each, and touches no session, no timer and no
    id. The first send that fails ends the round with its exception:
    the chats before it have their prompt, once, and the failing chat
    and all chats after it get none. A round in which every send is
    answered prompts every chat with a session, and no other. *)
Theorem morning_prompt_stops_at_first_failure (keys : list Z) (w : World) (n : nat) :
  keys_of keys w ->
  n <= length keys ->
  (forall i, i < n -> oracle w (calls w + i) <> Fails) ->
  (n < length keys -> oracle w (calls w + n) = Fails) ->
  let r := Overlap.finish (Overlap.morning_prompt keys w) in
  users r.2 = users w /\ timers r.2 = timers w /\ uuids r.2 = uuids w
  /\ log r.2 = (log w ++ prompts (take n keys))%list
  /\ calls r.2 = calls w + (if decide (n = length keys) then n else S n)
  /\ r.1 = (if decide (n = length keys) then Ok tt else Raise CollaboratorError)
  /\ NoDup (prompts (take n keys))
  /\ (forall c, SendMessage c morning_text None ∈ prompts (take n keys) ->
        is_Some (users w !! c))
  /\ (n = length keys ->
      forall c, is_Some (users w !! c) ->
        SendMessage c morning_text None ∈ prompts (take n keys)).
Proof.
  intros [Hnd Hkeys] Hn Hok Hfail r.
  assert (Hrun : forall keys w n,
            n <= length keys ->
            (forall i, i < n -> oracle w (calls w + i) <> Fails) ->
            (n < length keys -> oracle w (calls w + n) = Fails) ->
            let r := Overlap.finish (Overlap.prompt_keys (size (users w)) keys w) in
            users r.2 = users w /\ timers r.2 = timers w /\ uuids r.2 = uuids w
            /\ log r.2 = (log w ++ prompts (take n keys))%list
            /\ calls r.2 = calls w + (if decide (n = length keys) then n else S n)
            /\ r.1 = (if decide (n = length keys) then Ok tt
                      else Raise CollaboratorError)).
  { clear. intros keys. induction keys as [|c cs IH]; intros w n Hn Hok Hfail; cbv zeta;
      rewrite prompt_keys_eq, bool_decide_eq_true_2 by reflexivity.
    - cbn in Hn. assert (n = 0) as -> by lia. cbn.
      rewrite app_nil_r, Nat.add_0_r. repeat split; reflexivity.
    - rewrite finish_then, serial_send_message. destruct n as [|n].
      + rewrite send_message_fails
          by (rewrite <- (Nat.add_0_r (calls w)); apply Hfail; cbn; lia).
        cbn [fst snd take prompts map length]. fields. rewrite app_nil_r.
        destruct (decide (0 = S (length cs))) as [E|_]; [lia|].
        repeat split; try reflexivity. lia.
      + destruct (oracle w (calls w)) as [rep|] eqn:Ho.
        2: { exfalso. apply (Hok 0); [lia|]. by rewrite Nat.add_0_r. }
        rewrite (send_message_ok _ _ _ _ _ Ho).
        set (w1 := emit (SendMessage c morning_text None) (tick w)).
        change (size (users w)) with (size (users w1)).
        destruct (IH w1 n) as (Hu & Ht & Hi & Hl & Hc & Hr).
        { cbn in Hn. lia. }
        { intros i Hi. unfold w1. fields.
          replace (S (calls w) + i) with (calls w + S i) by lia. apply Hok. lia. }
        { intros Hlt. unfold w1. fields.
          replace (S (calls w) + n) with (calls w + S n) by lia. apply Hfail. cbn. lia. }
        cbv zeta in Hu, Ht, Hi, Hl, Hc, Hr.
        rewrite Hu, Ht, Hi, Hl, Hc, Hr. unfold w1. fields.
        cbn [take prompts map length]. rewrite <- app_assoc. cbn [app].
        destruct (decide (n = length cs)) as [E|E];
          destruct (decide (S n = S (length cs))) as [E'|E']; try lia;
          repeat split; try reflexivity; lia. }
  destruct (Hrun keys w n Hn Hok Hfail) as (Hu & Ht & Hi & Hl & Hc & Hr).
  repeat (split; [assumption|]). split; [|split].
  - unfold prompts. apply NoDup_fmap_2; [|by apply (sublist_NoDup _ keys), sublist_take].
    intros c1 c2 E. by injection E.
  - intros c Hc'. apply prompts_elem in Hc'. apply Hkeys.
    by apply (subseteq_take n keys).
  - intros -> c Hc'. rewrite firstn_all. apply prompts_elem. by apply Hkeys.
Qed.

Lemma morning_prompt_stops_at_first_failure_witness :
  keys_of [7%Z] open_reminder
  /\ (Overlap.finish (Overlap.morning_prompt [7%Z] open_reminder)).1
     = Raise CollaboratorError
  /\ log (Overlap.finish (Overlap.morning_prompt [7%Z] open_reminder)).2
     = log open_reminder.
Proof.
  assert (Hk : keys_of [7%Z] open_reminder).
  { split; [apply NoDup_singleton|]. intros c. rewrite list_elem_of_singleton.
    unfold open_reminder. cbn [users]. split.
    - intros ->. rewrite lookup_singleton_eq. by eexists.
    - intros [u Hu]. apply lookup_singleton_Some in Hu. by destruct Hu. }
  split; [exact Hk|].
  destruct (morning_prompt_stops_at_first_failure [7%Z] open_reminder 0 Hk)
    as (_ & _ & _ & Hl & _ & Hr & _).
  - cbn. lia.
  - intros i Hi. lia.
  - intros _. reflexivity.
  - split; [exact Hr|]. cbv zeta in Hl. rewrite Hl. apply app_nil_r.
Defined.

Example morning_round_prompts_all :
  let r := Overlap.finish (Overlap.morning_prompt [7%Z] active_session) in
  r.1 = Ok tt /\ log r.2 = [Arm 7 0 "0"; SendMessage 7 morning_text None].
Proof. vm_compute. split; reflexivity. Qed.

(** X21. The morning job reads the live dict. If [users] has another
    size when the round goes on after a send (a chat has sent its first
    message while the round waited), the round ends there with
    RuntimeError, although the send was answered: the chat it waited for
    has its prompt and the chats after it get none. *)
Theorem morning_prompt_breaks_on_new_chat (used : nat) (c : Z) (rest : list Z)
    (w : World) :
  size (users w) = used ->
  exists k,
    Overlap.prompt_keys used (c :: rest) w = Overlap.Parked w k
    /\ forall w' rep,
         oracle w' (calls w') = Succeeds rep -> size (users w') <> used ->
         k w' = Overlap.Ended (Raise RuntimeError)
                  (emit (SendMessage c morning_text None) (tick w')).
Proof.
  intros Hs. rewrite prompt_keys_eq, bool_decide_eq_true_2 by exact Hs.
  eexists. split; [reflexivity|]. intros w' rep Ho Hne.
  unfold Overlap.now. unfold mbind, Overlap.Co_bind, mret, Overlap.Co_ret.
  rewrite (await_ok _ _ _ Ho). cbn [fst snd Overlap.then_].
  rewrite prompt_keys_eq. fields. by rewrite bool_decide_eq_false_2.
Qed.

Lemma morning_prompt_breaks_on_new_chat_witness :
  size (users active_session) = 1
  /\ exists k,
       Overlap.prompt_keys 1 [7%Z] active_session = Overlap.Parked active_session k
       /\ k (with_users (insert 8%Z (mkUser [] 0 None)) active_session)
          = Overlap.Ended (Raise RuntimeError)
              (emit (SendMessage 7 morning_text None)
                 (tick (with_users (insert 8%Z (mkUser [] 0 None)) active_session))).
Proof.
  assert (Hs : size (users active_session) = 1) by reflexivity.
  split; [exact Hs|].
  destruct (morning_prompt_breaks_on_new_chat 1 7 [] active_session Hs) as (k & Ek & Hk).
  exists k. split; [exact Ek|]. apply (Hk _ "go"); [reflexivity|].
  vm_compute. discriminate.
Defined.

(** The first message of chat 8 arrives while the round waits for its
    send to chat 7: both sends are answered, and the round ends with
    RuntimeError. *)
Example newcomer_ends_the_round :
  let l := Overlap.run newcomer_at_dawn (Overlap.start active_session) in
  Overlap.jobs l = [Overlap.Over (Raise RuntimeError : result unit);
                    Overlap.Over (Ok ok_true)]
  /\ log (Overlap.world l)
     = [Arm 7 0 "0"; SendMessage 7 morning_text None;
        SendMessage 8 "👋 Welcome! I’ll ping you at 7 AM each morning to plan your day."
          None].
Proof. vm_compute. split; reflexivity. Qed.
